(** * The Dropbox storage backend of django-storages

    A shallow embedding of [storages/backends/dropbox.py] and the
    properties of its path resolution, existence test, directory listing,
    timestamp parsing, lazy download buffer, upload algorithm and
    constructors.

    Python objects that the module only passes around are records; values the
    module inspects dynamically (the metadata returned by the client) are
    dynamic values [pyval]; statements that call the remote client or touch a
    file object run in the monad [M], which threads a [World] (the log of
    client calls and the heap of file objects), may raise an [exn], and may
    run out of fuel in the one loop of the module. *)

From Stdlib Require Import ZArith Lia Ascii String List.
From Stdlib Require Strings.Byte.
From stdpp Require Import base option list gmap strings.

Set Warnings "-register-all".

Local Open Scope string_scope.
Local Open Scope Z_scope.
Local Open Scope list_scope.

(** ** Python values *)

Definition bytes := list Byte.byte.

(** Values whose shape the module discovers at run time. [PyDict] keeps the
    insertion order of a Python dict; [PyObj] is an object with attributes
    and no special methods: it cannot be subscripted or iterated, and it is
    true. A [string] stands for the [str] of the code points of its
    characters, one character each, all below 256. *)
Inductive pyval :=
| PyNone
| PyBool (b : bool)
| PyInt (z : Z)
| PyStr (s : string)
| PyBytes (b : bytes)
| PyList (l : list pyval)
| PyDict (d : list (string * pyval))
| PyObj (attrs : list (string * pyval)).

(** [bool(v)]: the truth value of a Python value. *)
Definition py_bool (v : pyval) : bool :=
  match v with
  | PyNone => false
  | PyBool b => b
  | PyInt z => negb (Z.eqb z 0)
  | PyStr s => negb (String.eqb s "")
  | PyBytes b => match b with [] => false | _ => true end
  | PyList l => match l with [] => false | _ => true end
  | PyDict d => match d with [] => false | _ => true end
  | PyObj _ => true
  end.

(** A value that is either [None] or a [str]: constructor arguments and
    settings. Its truth value. *)
Definition py_truthy (a : option string) : bool :=
  match a with
  | None => false
  | Some s => negb (String.eqb s "")
  end.

(** ** Exceptions *)

Inductive exn :=
| ImproperlyConfigured (msg : string)
| SuspiciousFileOperation (msg : string)
| ApiError (error : string)        (* dropbox.exceptions.ApiError, with the tag of its error *)
| HttpError (status_code : Z)      (* dropbox.exceptions.HttpError: not an ApiError *)
| AuthError                        (* dropbox.exceptions.AuthError: not an ApiError *)
| KeyError (key : string)
| TypeError (msg : string)
| AttributeError (attr : string)
| ValueError (msg : string)
| NameError (name : string)
| BadInput (msg : string).         (* the refusal of an argument by the SDK:
                                      dropbox.exceptions.BadInputException, an
                                      AssertionError in the releases before it *)

Inductive Res (A : Type) :=
| Ok (a : A)
| Raise (e : exn).
Arguments Ok {A} a.
Arguments Raise {A} e.

(** [isinstance(e, ApiError)], the test of [except ApiError]. *)
Definition is_ApiError (e : exn) : bool :=
  match e with
  | ApiError _ => true
  | _ => false
  end.

(** ** Strings *)

Definition slash : ascii := "/"%char.
Definition backslash : ascii := "\"%char.

Module Str.

(** [count] of [str.replace]: [None] is "all occurrences". *)
Definition more (count : option nat) : bool :=
  match count with
  | Some O => false
  | _ => true
  end.

Definition less (count : option nat) : option nat :=
  match count with
  | Some (S n) => Some n
  | c => c
  end.

(** [s.replace('', new, count)]: [new] goes before every character and at
    the end, as often as [count] allows. *)
Fixpoint interleave (new : string) (count : option nat) (s : string) : string :=
  if more count then
    new +:+ match s with
            | EmptyString => EmptyString
            | String c s' => String c (interleave new (less count) s')
            end
  else s.

(** The scan of [s.replace(old, new, count)] for a non-empty [old]: the
    occurrences are taken from the left and do not overlap; [skip] counts
    the characters of a replaced occurrence still to pass over. *)
Fixpoint replace_go (old new : string) (count : option nat) (skip : nat)
    (s : string) : string :=
  match s with
  | EmptyString => EmptyString
  | String c s' =>
      match skip with
      | S k => replace_go old new count k s'
      | O =>
          if more count && String.prefix old s
          then new +:+ replace_go old new (less count) (Nat.pred (String.length old)) s'
          else String c (replace_go old new count O s')
      end
  end.

(** [s.replace(old, new, count)] *)
Definition replace (old new : string) (count : option nat) (s : string) : string :=
  if String.eqb old "" then interleave new count s
  else replace_go old new count O s.

(** [s.startswith(p)] *)
Definition startswith (s p : string) : bool := String.prefix p s.

(** [s.split(sep)] for a one-character separator. *)
Fixpoint split (sep : ascii) (s : string) : list string :=
  match s with
  | EmptyString => [EmptyString]
  | String c s' =>
      if Ascii.eqb c sep then EmptyString :: split sep s'
      else match split sep s' with
           | [] => [String c EmptyString]
           | w :: ws => String c w :: ws
           end
  end.

(** [sep.join(l)] *)
Fixpoint join (sep : string) (l : list string) : string :=
  match l with
  | [] => EmptyString
  | [w] => w
  | w :: ws => w +:+ sep +:+ join sep ws
  end.

(** [s.rstrip(c)] for one character [c], on the reversed string. *)
Fixpoint lstrip_list (c : ascii) (l : list ascii) : list ascii :=
  match l with
  | x :: l' => if Ascii.eqb x c then lstrip_list c l' else l
  | [] => []
  end.

Definition rstrip (c : ascii) (s : string) : string :=
  string_of_list_ascii (rev (lstrip_list c (rev (list_ascii_of_string s)))).

(** Does the character occur in the string? *)
Fixpoint mem (c : ascii) (s : string) : bool :=
  match s with
  | EmptyString => false
  | String x s' => Ascii.eqb x c || mem c s'
  end.

(** [s == c * len(s)] *)
Fixpoint all_eq (c : ascii) (s : string) : bool :=
  match s with
  | EmptyString => true
  | String x s' => Ascii.eqb x c && all_eq c s'
  end.

End Str.

(** ** The world: remote service, client calls, file objects, settings *)

(** [dropbox.files.UploadSessionCursor] and [dropbox.files.CommitInfo] *)
Record UploadSessionCursor := { session_id : string; offset : Z }.
Record CommitInfo := { path : string }.

(** The calls the module makes on its client, with their arguments. A cursor
    is recorded as it is when the call is made. *)
Inductive api_call :=
| Files_delete (path : string)
| Files_get_metadata (path : string)
| Files_get_temporary_link (path : string)
| Files_download (path : string)
| Files_upload (f : bytes) (path : string)
| Files_upload_session_start (f : bytes)
| Files_upload_session_append_v2 (f : bytes) (cursor : UploadSessionCursor)
| Files_upload_session_finish (f : bytes) (cursor : UploadSessionCursor) (commit : CommitInfo).

(** What a client answers to [files_download]. The client of the SDK answers
    the pair [(FileMetadata, Response)] of the metadata of the file and the
    HTTP response that holds its content; a pair has no [read]. The doubles
    that tests put in the place of the client answer a readable file
    object. *)
Inductive download :=
| Pair (metadata : pyval) (content : bytes)
| Readable (f : nat).

(** The behaviour of the client and of the remote service behind it, which
    the module does not control: whether a call raises, and what it answers
    when it does not. *)
Record Remote := {
  raises : api_call -> option exn;
  metadata_of : string -> pyval;
  download_of : string -> download;
  session_of : bytes -> string;
  link_of : string -> string
}.

(** A file object: an upload source, a download response, a temporary file. *)
Record Stream := { data : bytes; pos : nat; closed : bool }.

Record World := {
  cwd : string;                           (* os.getcwd() *)
  settings : gmap string (option string); (* django.conf.settings *)
  remote : Remote;
  calls : list api_call;                  (* oldest first *)
  heap : gmap nat Stream
}.

Definition set_calls (c : list api_call) (w : World) : World :=
  {| cwd := cwd w; settings := settings w; remote := remote w;
     calls := c; heap := heap w |}.

Definition set_heap (h : gmap nat Stream) (w : World) : World :=
  {| cwd := cwd w; settings := settings w; remote := remote w;
     calls := calls w; heap := h |}.

(** ** The monad of statements

    [None]: the fuel of the loop ran out; [Some (Raise e, w)]: the statement
    raised [e] in world [w]; [Some (Ok a, w)]: it returned [a]. *)
Definition M (A : Type) : Type := World -> option (Res A * World).

Definition ret {A} (a : A) : M A := fun w => Some (Ok a, w).
Definition raise {A} (e : exn) : M A := fun w => Some (Raise e, w).
Definition diverge {A} : M A := fun _ => None.

Definition bind {A B} (c : M A) (k : A -> M B) : M B := fun w =>
  match c w with
  | None => None
  | Some (Raise e, w') => Some (Raise e, w')
  | Some (Ok a, w') => k a w'
  end.

Notation "x <- c ;; k" := (bind c (fun x => k))
  (at level 100, c at next level, right associativity).
Notation "c ;;; k" := (bind c (fun _ => k))
  (at level 100, right associativity).

(** [try: c except ApiError: handler] *)
Definition except_ApiError {A} (c : M A) (handler : M A) : M A := fun w =>
  match c w with
  | Some (Raise e, w') => if is_ApiError e then handler w' else Some (Raise e, w')
  | r => r
  end.

Definition getcwd : M string := fun w => Some (Ok (cwd w), w).

(** The statements of a method that assigns attributes of [self], an object
    of type [S]: they run on the object and leave it as they assigned it,
    also when a later statement raises. *)
Definition Method (S A : Type) : Type := S -> World -> option (Res A * S * World).

Definition mret {S A} (a : A) : Method S A := fun self w => Some (Ok a, self, w).
Definition mraise {S A} (e : exn) : Method S A := fun self w => Some (Raise e, self, w).

Definition mbind {S A B} (c : Method S A) (k : A -> Method S B) : Method S B := fun self w =>
  match c self w with
  | None => None
  | Some (Raise e, self', w') => Some (Raise e, self', w')
  | Some (Ok a, self', w') => k a self' w'
  end.

(** A statement that assigns no attribute. *)
Definition lift {S A} (c : M A) : Method S A := fun self w =>
  match c w with
  | None => None
  | Some (r, w') => Some (r, self, w')
  end.

(** [self.attr] and [self.attr = v] *)
Definition getattr {S A} (attr : S -> A) : Method S A := fun self w => Some (Ok (attr self), self, w).
Definition setattr {S} (assign : S -> S) : Method S unit := fun self w => Some (Ok tt, assign self, w).

Notation "x <~ c ;; k" := (mbind c (fun x => k))
  (at level 100, c at next level, right associativity).
Notation "c ;;~ k" := (mbind c (fun _ => k))
  (at level 100, right associativity).

(** ** The client *)

Module Client.

(** A client object: of a user, of a team, or of a team acting as one of
    its members. *)
Inductive t :=
| User (oauth2_access_token : string)
| Team (oauth2_access_token : string) (headers : list (string * string))
| Admin (team : t) (team_member_id : string).

(** The constructors of the SDK refuse an empty token. *)
Definition check_token (oauth2_access_token : string) : M unit :=
  if String.eqb oauth2_access_token ""
  then raise (BadInput "OAuth2 access token cannot be empty.")
  else ret tt.

(** [Dropbox(oauth2_access_token)] *)
Definition Dropbox (oauth2_access_token : string) : M t :=
  check_token oauth2_access_token ;;;
  ret (User oauth2_access_token).

(** [DropboxTeam(oauth2_access_token, headers=headers)] *)
Definition DropboxTeam (oauth2_access_token : string) (headers : list (string * string)) : M t :=
  check_token oauth2_access_token ;;;
  ret (Team oauth2_access_token headers).

(** [team.as_admin(team_member_id)], a method of team clients only. *)
Definition as_admin (team : t) (team_member_id : string) : M t :=
  match team with
  | Team _ _ => ret (Admin team team_member_id)
  | _ => raise (AttributeError "as_admin")
  end.

(** A call is logged, then raises or answers as the remote decides; which
    client object makes the call does not matter to the remote. *)
Definition call {A} (ev : api_call) (answer : Remote -> A) : M A := fun w =>
  let w' := set_calls (calls w ++ [ev]) w in
  match raises (remote w) ev with
  | Some e => Some (Raise e, w')
  | None => Some (Ok (answer (remote w)), w')
  end.

Definition files_delete (path : string) : M unit :=
  call (Files_delete path) (fun _ => tt).
Definition files_get_metadata (path : string) : M pyval :=
  call (Files_get_metadata path) (fun r => metadata_of r path).
Definition files_get_temporary_link (path : string) : M string :=
  call (Files_get_temporary_link path) (fun r => link_of r path).
Definition files_upload (f : bytes) (path : string) : M unit :=
  call (Files_upload f path) (fun _ => tt).
Definition files_upload_session_start (f : bytes) : M string :=
  call (Files_upload_session_start f) (fun r => session_of r f).
Definition files_upload_session_append_v2 (f : bytes) (cursor : UploadSessionCursor) : M unit :=
  call (Files_upload_session_append_v2 f cursor) (fun _ => tt).
Definition files_upload_session_finish (f : bytes) (cursor : UploadSessionCursor)
    (commit : CommitInfo) : M unit :=
  call (Files_upload_session_finish f cursor commit) (fun _ => tt).

Definition files_download (path : string) : M download :=
  call (Files_download path) (fun r => download_of r path).

End Client.

(** ** File objects *)

Module IO.

Definition closed_error : exn := ValueError "I/O operation on closed file.".

(** Run [k] on the open stream behind [f]. *)
Definition with_stream {A} (f : nat) (k : Stream -> World -> option (Res A * World)) : M A :=
  fun w =>
    match heap w !! f with
    | None => Some (Raise closed_error, w)
    | Some s => if closed s then Some (Raise closed_error, w) else k s w
    end.

(** [f.read(size)]: up to [size] bytes from the position, all of the rest
    when [size] is absent or negative; the position moves past them. *)
Definition read (f : nat) (size : option Z) : M bytes :=
  with_stream f (fun s w =>
    let rest := drop (pos s) (data s) in
    let chunk := match size with
                 | Some n => if (n <? 0)%Z then rest else take (Z.to_nat n) rest
                 | None => rest
                 end in
    Some (Ok chunk,
          set_heap (<[f := {| data := data s; pos := pos s + length chunk;
                              closed := false |}]> (heap w)) w)).

(** [f.tell()] *)
Definition tell (f : nat) : M Z :=
  with_stream f (fun s w => Some (Ok (Z.of_nat (pos s)), w)).

(** [f.seek(0)] *)
Definition rewind (f : nat) : M unit :=
  with_stream f (fun s w =>
    Some (Ok tt, set_heap (<[f := {| data := data s; pos := 0; closed := false |}]> (heap w)) w)).

(** [f.close()] *)
Definition close (f : nat) : M unit := fun w =>
  match heap w !! f with
  | None => Some (Ok tt, w)
  | Some s =>
      Some (Ok tt, set_heap (<[f := {| data := data s; pos := pos s; closed := true |}]> (heap w)) w)
  end.

(** [SpooledTemporaryFile()]: a fresh empty file object. *)
Definition SpooledTemporaryFile : M nat := fun w =>
  let r := fresh (dom (heap w)) in
  Some (Ok r, set_heap (<[r := {| data := []; pos := 0; closed := false |}]> (heap w)) w).

(** [f.write(b)]: the bytes go over what is at the position. *)
Definition write (f : nat) (b : bytes) : M unit :=
  with_stream f (fun s w =>
    let d := take (pos s) (data s) ++ b ++ drop (pos s + length b) (data s) in
    Some (Ok tt, set_heap (<[f := {| data := d; pos := pos s + length b;
                                     closed := false |}]> (heap w)) w)).

(** [shutil.copyfileobj(fsrc, fdst)] with an open [fdst]: [fsrc.read] is
    looked up first, then [fsrc] is read to its end and what was read is
    written at the position of [fdst]. *)
Definition copyfileobj (fsrc : download) (fdst : nat) : M unit :=
  match fsrc with
  | Readable src =>
      b <- read src None ;;
      write fdst b
  | Pair _ _ => raise (AttributeError "read")
  end.

End IO.

(** [django.core.files.base.File]: a wrapper around a file object with a
    [size] attribute of its own. *)
Module File.

Record t := { file : nat; size : Z }.

(** [content.open()] rewinds an open file; a closed one is not reopened
    here. *)
Definition open (self : t) : M unit := fun w =>
  match heap w !! file self with
  | Some s => if closed s then Some (Raise (ValueError "The file cannot be reopened."), w)
              else IO.rewind (file self) w
  | None => Some (Raise (ValueError "The file cannot be reopened."), w)
  end.

Definition read (self : t) (n : option Z) : M bytes := IO.read (file self) n.
Definition tell (self : t) : M Z := IO.tell (file self).
Definition close (self : t) : M unit := IO.close (file self).

End File.

(** ** [posixpath] and [django.utils._os.safe_join]

    [safe_join] is Django's, not this module's. It is embedded as it behaves
    on a POSIX host ([os.sep] is the forward slash, [normcase] is the
    identity), after [posixpath] and [django/utils/_os.py]. *)

Module posixpath.

Definition sep : string := "/".

Definition isabs (s : string) : bool := Str.startswith s sep.

Definition endswith_sep (s : string) : bool :=
  match rev (list_ascii_of_string s) with
  | c :: _ => Ascii.eqb c slash
  | [] => false
  end.

(** [join(a, b)] *)
Definition join (a b : string) : string :=
  if Str.startswith b sep then b
  else if String.eqb a "" || endswith_sep a then a +:+ b
  else a +:+ sep +:+ b.

(** One or two leading slashes are kept, three or more are one. *)
Definition initial_slashes (path : string) : nat :=
  if Str.startswith path "/" then
    if Str.startswith path "//" && negb (Str.startswith path "///") then 2 else 1
  else 0.

(** The loop of [normpath] over the components. *)
Fixpoint norm_comps (initial : nat) (comps new_comps : list string) : list string :=
  match comps with
  | [] => new_comps
  | comp :: comps' =>
      if String.eqb comp "" || String.eqb comp "." then norm_comps initial comps' new_comps
      else if negb (String.eqb comp "..")
              || (Nat.eqb initial 0 && match new_comps with [] => true | _ => false end)
              || match last new_comps with Some l => String.eqb l ".." | None => false end
      then norm_comps initial comps' (new_comps ++ [comp])
      else match new_comps with
           | [] => norm_comps initial comps' new_comps
           | _ => norm_comps initial comps' (removelast new_comps)
           end
  end.

Fixpoint slashes (n : nat) : string :=
  match n with
  | O => ""
  | S n' => "/" +:+ slashes n'
  end.

(** [normpath(path)] *)
Definition normpath (path : string) : string :=
  if String.eqb path "" then "."
  else
    let initial := initial_slashes path in
    let comps := norm_comps initial (Str.split slash path) [] in
    let path' := slashes initial +:+ Str.join "/" comps in
    if String.eqb path' "" then "." else path'.

(** [abspath(path)] *)
Definition abspath (path : string) : M string :=
  if isabs path then ret (normpath path)
  else
    cwd <- getcwd ;;
    ret (normpath (join cwd path)).

(** [dirname(p)]: [p] up to its last slash, without trailing slashes unless
    it is made of slashes only. *)
Definition dirname (p : string) : string :=
  let comps := Str.split slash p in
  let head := match removelast comps with
              | [] => ""
              | cs => Str.join "/" cs +:+ "/"
              end in
  if negb (String.eqb head "") && negb (Str.all_eq slash head)
  then Str.rstrip slash head else head.

End posixpath.

(** [safe_join(base, path)]: the normalised absolute join, refused unless it
    is below the base, is the base, or the base is the topmost directory. *)
Definition safe_join (base path : string) : M string :=
  final_path <- posixpath.abspath (posixpath.join base path) ;;
  base_path <- posixpath.abspath base ;;
  if negb (Str.startswith final_path (base_path +:+ posixpath.sep))
     && negb (String.eqb final_path base_path)
     && negb (String.eqb (posixpath.dirname base_path) base_path)
  then raise (SuspiciousFileOperation
                ("The joined path (" +:+ final_path +:+
                 ") is located outside of the base path component (" +:+ base_path +:+ ")"))
  else ret final_path.

(** Modelled from the spec: [storages.utils.setting(name, default)], whose
    file [storages/utils.py] is not among the sources; a named setting is
    looked up in the configuration and the default is returned when it is
    not set. *)
Definition setting (name : string) (default : option string) : M (option string) := fun w =>
  match settings w !! name with
  | Some v => Some (Ok v, w)
  | None => Some (Ok default, w)
  end.

(** [a or c]: [c] is evaluated only when [a] is falsy. *)
Definition py_or_else (a : option string) (c : M (option string)) : M (option string) :=
  if py_truthy a then ret a else c.

(** ** Dynamic access to metadata *)

Fixpoint assoc (key : string) (d : list (string * pyval)) : option pyval :=
  match d with
  | [] => None
  | (k, v) :: d' => if String.eqb k key then Some v else assoc key d'
  end.

Fixpoint assoc_set (key : string) (v : pyval) (d : list (string * pyval)) : list (string * pyval) :=
  match d with
  | [] => [(key, v)]
  | (k, x) :: d' => if String.eqb k key then (k, v) :: d' else (k, x) :: assoc_set key v d'
  end.

(** [v[key]] for a string key. *)
Definition py_getitem (v : pyval) (key : string) : M pyval :=
  match v with
  | PyDict d => match assoc key d with
                | Some x => ret x
                | None => raise (KeyError key)
                end
  | PyList _ | PyStr _ | PyBytes _ => raise (TypeError "indices must be integers or slices, not str")
  | _ => raise (TypeError "object is not subscriptable")
  end.

(** [v[key] = x] for a string key; the updated value is returned. *)
Definition py_setitem (v : pyval) (key : string) (x : pyval) : M pyval :=
  match v with
  | PyDict d => ret (PyDict (assoc_set key x d))
  | _ => raise (TypeError "object does not support item assignment")
  end.

(** [v.replace(old, new, count)] *)
Definition py_replace (v : pyval) (old new : string) (count : nat) : M pyval :=
  match v with
  | PyStr s => ret (PyStr (Str.replace old new (Some count) s))
  | PyBytes _ => raise (TypeError "a bytes-like object is required, not 'str'")
  | _ => raise (AttributeError "replace")
  end.

(** The items of [for entry in v]. *)
Definition py_iter (v : pyval) : M (list pyval) :=
  match v with
  | PyList l => ret l
  | PyDict d => ret (map (fun kv => PyStr (fst kv)) d)
  | PyStr s => ret (map (fun c => PyStr (String c EmptyString)) (list_ascii_of_string s))
  | PyBytes b => ret (map (fun x => PyInt (Z.of_N (Byte.to_N x))) b)
  | _ => raise (TypeError "object is not iterable")
  end.

(** ** [datetime.strptime]

    The parser of the Python library, embedded for the directives of
    [DATE_FORMAT] in the C locale, where [%X] is [%H:%M:%S]: a run of white
    space in the format matches one or more white-space characters, letters
    match in either case, and the numbers take the longest of their
    alternatives. The result is a naive [datetime]. *)

Record datetime := {
  year : Z; month : Z; day : Z; hour : Z; minute : Z; second : Z
}.

Module strptime.

Inductive token :=
| TLit (c : ascii)
| TSpace
| TDir (c : ascii).

(** [\s] on a [str]: the white space of ASCII, which has the four
    separators 28 to 31, and below 256 the next line 133 and the no-break
    space 160. *)
Definition is_space (c : ascii) : bool :=
  let n := nat_of_ascii c in
  Nat.eqb n 32 || (Nat.leb 9 n && Nat.leb n 13) || (Nat.leb 28 n && Nat.leb n 31)
  || Nat.eqb n 133 || Nat.eqb n 160.

(** [\d] on a [str]: below 256 the decimal digits are those of ASCII. *)
Definition digit (c : ascii) : option Z :=
  let n := nat_of_ascii c in
  if Nat.leb 48 n && Nat.leb n 57 then Some (Z.of_nat (n - 48)) else None.

(** The lower case of a character, by which [IGNORECASE] compares: below
    256 the capital letters are those of ASCII and 192 to 222 without the
    multiplication sign 215. *)
Definition lower (c : ascii) : ascii :=
  let n := nat_of_ascii c in
  if (Nat.leb 65 n && Nat.leb n 90)
     || (Nat.leb 192 n && Nat.leb n 222 && negb (Nat.eqb n 215))
  then ascii_of_nat (n + 32) else c.

Fixpoint lower_string (s : string) : string :=
  match s with
  | EmptyString => EmptyString
  | String c s' => String (lower c) (lower_string s')
  end.

(** The format as a sequence of literals, white-space runs and
    directives; [None] for a stray [%] at the end. *)
Fixpoint tokens (format : string) : option (list token) :=
  match format with
  | EmptyString => Some []
  | String c rest =>
      if Ascii.eqb c "%" then
        match rest with
        | EmptyString => None
        | String d rest' => ts ← tokens rest'; Some (TDir d :: ts)
        end
      else if is_space c then
        ts ← tokens rest;
        Some (match ts with
              | TSpace :: _ => ts
              | _ => TSpace :: ts
              end)
      else ts ← tokens rest; Some (TLit c :: ts)
  end.

(** [%X] in the C locale. *)
Definition expand (t : token) : list token :=
  match t with
  | TDir c => if Ascii.eqb c "X"
              then [TDir "H"; TLit ":"; TDir "M"; TLit ":"; TDir "S"]
              else [t]
  | _ => [t]
  end.

Fixpoint lstrip (s : string) : string :=
  match s with
  | String c s' => if is_space c then lstrip s' else s
  | EmptyString => EmptyString
  end.

(** The first name of the table that the data starts with, ignoring case:
    its index from 1 and the rest of the data. *)
Fixpoint name_index (names : list string) (i : Z) (s : string) : option (Z * string) :=
  match names with
  | [] => None
  | n :: names' =>
      if String.prefix n (lower_string (String.substring 0 (String.length n) s))
      then Some (i, String.substring (String.length n) (String.length s - String.length n) s)
      else name_index names' (i + 1) s
  end.

Definition weekdays : list string := ["mon"; "tue"; "wed"; "thu"; "fri"; "sat"; "sun"].
Definition months : list string :=
  ["jan"; "feb"; "mar"; "apr"; "may"; "jun"; "jul"; "aug"; "sep"; "oct"; "nov"; "dec"].

(** A number of two digits [a b] with [ok a b], else of one digit with
    [ok1 a]. *)
Definition number (ok : Z -> Z -> bool) (ok1 : Z -> bool) (s : string) : option (Z * string) :=
  match s with
  | String c1 s1 =>
      match digit c1 with
      | Some a =>
          match s1 with
          | String c2 s2 =>
              match digit c2 with
              | Some b => if ok a b then Some (10 * a + b, s2)
                          else if ok1 a then Some (a, s1) else None
              | None => if ok1 a then Some (a, s1) else None
              end
          | EmptyString => if ok1 a then Some (a, s1) else None
          end
      | None => None
      end
  | EmptyString => None
  end.

(** [3[0-1]|[1-2]\d|0[1-9]|[1-9]| [1-9]] *)
Definition day_of (s : string) : option (Z * string) :=
  match number (fun a b => ((a =? 3) && (b <=? 1)) || ((1 <=? a) && (a <=? 2))
                           || ((a =? 0) && (1 <=? b)))
               (fun a => 1 <=? a) s with
  | Some r => Some r
  | None =>
      match s with
      | String c (String c1 s1) =>
          if Ascii.eqb c " " then
            match digit c1 with
            | Some a => if 1 <=? a then Some (a, s1) else None
            | None => None
            end
          else None
      | _ => None
      end
  end.

(** [2[0-3]|[0-1]\d|\d] *)
Definition hour_of : string -> option (Z * string) :=
  number (fun a b => ((a =? 2) && (b <=? 3)) || (a <=? 1)) (fun _ => true).

(** [[0-5]\d|\d] *)
Definition minute_of : string -> option (Z * string) :=
  number (fun a _ => a <=? 5) (fun _ => true).

(** [6[0-1]|[0-5]\d|\d] *)
Definition second_of : string -> option (Z * string) :=
  number (fun a b => ((a =? 6) && (b <=? 1)) || (a <=? 5)) (fun _ => true).

(** [\d\d\d\d] *)
Definition year_of (s : string) : option (Z * string) :=
  match s with
  | String c1 (String c2 (String c3 (String c4 s'))) =>
      a ← digit c1; b ← digit c2; c ← digit c3; d ← digit c4;
      Some (1000 * a + 100 * b + 10 * c + d, s')
  | _ => None
  end.

Definition set_year v (t : datetime) :=
  {| year := v; month := month t; day := day t; hour := hour t; minute := minute t; second := second t |}.
Definition set_month v (t : datetime) :=
  {| year := year t; month := v; day := day t; hour := hour t; minute := minute t; second := second t |}.
Definition set_day v (t : datetime) :=
  {| year := year t; month := month t; day := v; hour := hour t; minute := minute t; second := second t |}.
Definition set_hour v (t : datetime) :=
  {| year := year t; month := month t; day := day t; hour := v; minute := minute t; second := second t |}.
Definition set_minute v (t : datetime) :=
  {| year := year t; month := month t; day := day t; hour := hour t; minute := v; second := second t |}.
Definition set_second v (t : datetime) :=
  {| year := year t; month := month t; day := day t; hour := hour t; minute := minute t; second := v |}.

(** One directive; [None] when the data does not match, also for a
    directive that is not embedded. *)
Definition directive (c : ascii) (s : string) (t : datetime) : option (datetime * string) :=
  if Ascii.eqb c "a" then '(_, s') ← name_index weekdays 1 s; Some (t, s')
  else if Ascii.eqb c "b" then '(v, s') ← name_index months 1 s; Some (set_month v t, s')
  else if Ascii.eqb c "d" then '(v, s') ← day_of s; Some (set_day v t, s')
  else if Ascii.eqb c "Y" then '(v, s') ← year_of s; Some (set_year v t, s')
  else if Ascii.eqb c "H" then '(v, s') ← hour_of s; Some (set_hour v t, s')
  else if Ascii.eqb c "M" then '(v, s') ← minute_of s; Some (set_minute v t, s')
  else if Ascii.eqb c "S" then '(v, s') ← second_of s; Some (set_second v t, s')
  else None.

(** The data against the tokens, to the end of both. *)
Fixpoint parse (ts : list token) (s : string) (t : datetime) : option datetime :=
  match ts with
  | [] => if String.eqb s "" then Some t else None
  | TLit c :: ts' =>
      match s with
      | String c' s' => if Ascii.eqb (lower c) (lower c') then parse ts' s' t else None
      | EmptyString => None
      end
  | TSpace :: ts' =>
      match s with
      | String c' s' => if is_space c' then parse ts' (lstrip s') t else None
      | EmptyString => None
      end
  | TDir c :: ts' =>
      match directive c s t with
      | Some (t', s') => parse ts' s' t'
      | None => None
      end
  end.

Definition is_leap (y : Z) : bool :=
  ((y mod 4 =? 0) && negb (y mod 100 =? 0)) || (y mod 400 =? 0).

Definition days_in_month (y m : Z) : Z :=
  if m =? 2 then (if is_leap y then 29 else 28)
  else if (m =? 4) || (m =? 6) || (m =? 9) || (m =? 11) then 30 else 31.

(** The checks of the [datetime] constructor. *)
Definition valid (t : datetime) : bool :=
  (1 <=? year t) && (year t <=? 9999) && (1 <=? month t) && (month t <=? 12)
  && (1 <=? day t) && (day t <=? days_in_month (year t) (month t))
  && (hour t <=? 23) && (minute t <=? 59) && (second t <=? 59).

Definition default : datetime :=
  {| year := 1900; month := 1; day := 1; hour := 0; minute := 0; second := 0 |}.

End strptime.

(** [datetime.strptime(date_string, format)] *)
Definition datetime_strptime (date_string : pyval) (format : string) : M datetime :=
  match date_string with
  | PyStr s =>
      match strptime.tokens format with
      | None => raise (ValueError "stray % in format")
      | Some ts =>
          match strptime.parse (concat (map strptime.expand ts)) s strptime.default with
          | Some t => if strptime.valid t then ret t
                      else raise (ValueError "value is out of range")
          | None => raise (ValueError "time data does not match format")
          end
      end
  | _ => raise (TypeError "strptime() argument 1 must be str")
  end.

(** ** The module *)

Definition DATE_FORMAT : string := "%a, %d %b %Y %X +0000".

(** The names bound at module level: the imports and the definitions. A
    global name that is not among them (nor a builtin) raises [NameError]
    when the statement that uses it runs. *)
Definition module_globals : list string :=
  ["absolute_import"; "datetime"; "copyfileobj"; "SpooledTemporaryFile";
   "ImproperlyConfigured"; "File"; "Storage"; "safe_join"; "deconstructible";
   "Dropbox"; "ApiError"; "CommitInfo"; "UploadSessionCursor"; "setting";
   "DATE_FORMAT"; "DropBoxStorageException"; "DropBoxFile"; "DropBoxStorage";
   "DropBoxTeamStorage"].

Definition global_name (globals : list string) (name : string) : M unit :=
  if bool_decide (name ∈ globals) then ret tt else raise (NameError name).

(** *** [DropBoxFile] *)

Module DropBoxFile.

(** [_file] is [None] until the attribute is set. The storage is whatever
    object the file was given. *)
Record t {Storage : Type} := {
  name : string;
  _storage : Storage;
  _file : option nat
}.
Arguments t : clear implicits.

Definition __init__ {Storage} (name : string) (storage : Storage) : t Storage :=
  {| name := name; _storage := storage; _file := None |}.

(** [self._file = f] *)
Definition set__file {Storage} (f : nat) (self : t Storage) : t Storage :=
  {| name := name self; _storage := _storage self; _file := Some f |}.

(** The property [file]. The temporary file is assigned to [_file] before
    the response is copied into it. *)
Definition file {Storage} : Method (t Storage) nat :=
  has <~ getattr _file ;;
  (match has with
   | None =>
       path <~ getattr name ;;
       response <~ lift (Client.files_download path) ;;
       f <~ lift IO.SpooledTemporaryFile ;;
       setattr (set__file f) ;;~
       lift (IO.copyfileobj response f) ;;~
       lift (IO.rewind f)
   | Some _ => mret tt
   end) ;;~
  now <~ getattr _file ;;
  match now with
  | Some f => mret f
  | None => mraise (AttributeError "_file")
  end.

End DropBoxFile.

(** *** [DropBoxStorage] *)

Module DropBoxStorage.

(** The class attribute [CHUNK_SIZE], which [self.CHUNK_SIZE] finds unless
    a subclass or an instance overrides it. *)
Definition class_CHUNK_SIZE : Z := 4 * 1024 * 1024.

Record t := {
  root_path : option string;
  client : Client.t;
  CHUNK_SIZE : Z
}.

Definition __init__ (oauth2_access_token root_path : option string) : M t :=
  oauth2_access_token <- py_or_else oauth2_access_token (setting "DROPBOX_OAUTH2_TOKEN" None) ;;
  root_path <- py_or_else root_path (setting "DROPBOX_ROOT_PATH" (Some "/")) ;;
  match oauth2_access_token with
  | None => raise (ImproperlyConfigured
                     "You must configure a token auth at'settings.DROPBOX_OAUTH2_TOKEN'.")
  | Some token =>
      client <- Client.Dropbox token ;;
      ret {| root_path := root_path; client := client; CHUNK_SIZE := class_CHUNK_SIZE |}
  end.

Definition _full_path (self : t) (name : string) : M string :=
  let name := if String.eqb name "/" then "" else name in
  match root_path self with
  | None => raise (TypeError "expected str, bytes or os.PathLike object, not NoneType")
  | Some root =>
      p <- safe_join root name ;;
      ret (Str.replace "\" "/" None p)
  end.

Definition delete (self : t) (name : string) : M unit :=
  p <- _full_path self name ;;
  Client.files_delete p.

Definition exists_ (self : t) (name : string) : M bool :=
  except_ApiError
    (p <- _full_path self name ;;
     metadata <- Client.files_get_metadata p ;;
     ret (py_bool metadata))
    (ret false).

(** The body of the loop of [listdir] on one entry. *)
Definition listdir_entry (full_path : string) (entry : pyval)
    (acc : list pyval * list pyval) : M (list pyval * list pyval) :=
  let '(directories, files) := acc in
  p <- py_getitem entry "path" ;;
  p <- py_replace p full_path "" 1 ;;
  entry <- py_setitem entry "path" p ;;
  p <- py_getitem entry "path" ;;
  p <- py_replace p "/" "" 1 ;;
  entry <- py_setitem entry "path" p ;;
  is_dir <- py_getitem entry "is_dir" ;;
  if py_bool is_dir then
    p <- py_getitem entry "path" ;;
    ret (directories ++ [p], files)
  else
    p <- py_getitem entry "path" ;;
    ret (directories, files ++ [p]).

Fixpoint listdir_loop (full_path : string) (entries : list pyval)
    (acc : list pyval * list pyval) : M (list pyval * list pyval) :=
  match entries with
  | [] => ret acc
  | entry :: entries' =>
      acc <- listdir_entry full_path entry acc ;;
      listdir_loop full_path entries' acc
  end.

Definition listdir (self : t) (path : string) : M (list pyval * list pyval) :=
  full_path <- _full_path self path ;;
  metadata <- Client.files_get_metadata full_path ;;
  contents <- py_getitem metadata "contents" ;;
  entries <- py_iter contents ;;
  listdir_loop full_path entries ([], []).

Definition size (self : t) (name : string) : M pyval :=
  p <- _full_path self name ;;
  metadata <- Client.files_get_metadata p ;;
  py_getitem metadata "bytes".

Definition modified_time (self : t) (name : string) : M datetime :=
  p <- _full_path self name ;;
  metadata <- Client.files_get_metadata p ;;
  modified <- py_getitem metadata "modified" ;;
  mod_time <- datetime_strptime modified DATE_FORMAT ;;
  ret mod_time.

Definition accessed_time (self : t) (name : string) : M datetime :=
  p <- _full_path self name ;;
  metadata <- Client.files_get_metadata p ;;
  client_mtime <- py_getitem metadata "client_mtime" ;;
  acc_time <- datetime_strptime client_mtime DATE_FORMAT ;;
  ret acc_time.

Definition url (self : t) (name : string) : M string :=
  p <- _full_path self name ;;
  Client.files_get_temporary_link p.

Definition _open (self : t) (name : string) (mode : string) : M (DropBoxFile.t t) :=
  p <- _full_path self name ;;
  let remote_file := DropBoxFile.__init__ p self in
  ret remote_file.

(** The [while] loop of [_chunked_upload]; [fuel] bounds its iterations. *)
Fixpoint upload_loop (fuel : nat) (self : t) (content : File.t)
    (cursor : UploadSessionCursor) (commit : CommitInfo) : M unit :=
  match fuel with
  | O => diverge
  | S fuel' =>
      position <- File.tell content ;;
      if position <? File.size content then
        position <- File.tell content ;;
        if File.size content - position <=? CHUNK_SIZE self then
          chunk <- File.read content (Some (CHUNK_SIZE self)) ;;
          Client.files_upload_session_finish chunk cursor commit ;;;
          upload_loop fuel' self content cursor commit
        else
          chunk <- File.read content (Some (CHUNK_SIZE self)) ;;
          Client.files_upload_session_append_v2 chunk cursor ;;;
          position <- File.tell content ;;
          upload_loop fuel' self content
            {| session_id := session_id cursor; offset := position |} commit
      else ret tt
  end.

Definition _chunked_upload (fuel : nat) (self : t) (content : File.t)
    (dest_path : string) : M unit :=
  chunk <- File.read content (Some (CHUNK_SIZE self)) ;;
  upload_session <- Client.files_upload_session_start chunk ;;
  position <- File.tell content ;;
  let cursor := {| session_id := upload_session; offset := position |} in
  let commit := {| path := dest_path |} in
  upload_loop fuel self content cursor commit.

Definition _save (fuel : nat) (self : t) (name : string) (content : File.t) : M string :=
  File.open content ;;;
  (if File.size content <=? CHUNK_SIZE self then
     f <- File.read content None ;;
     p <- _full_path self name ;;
     Client.files_upload f p
   else
     p <- _full_path self name ;;
     _chunked_upload fuel self content p) ;;;
  File.close content ;;;
  ret name.

End DropBoxStorage.

(** *** [DropBoxTeamStorage] *)

Module DropBoxTeamStorage.

Definition quote : string := String (ascii_of_nat 34) EmptyString.

(** ['{".tag": "namespace_id", "namespace_id": "%s"}' % team_namespace] *)
Definition path_root (team_namespace : string) : string :=
  "{" +:+ quote +:+ ".tag" +:+ quote +:+ ": " +:+ quote +:+ "namespace_id" +:+ quote
  +:+ ", " +:+ quote +:+ "namespace_id" +:+ quote +:+ ": " +:+ quote
  +:+ team_namespace +:+ quote +:+ "}".

(** The constructor, run in a module whose global names are [globals]. *)
Definition __init__in (globals : list string)
    (oauth2_access_token root_path : option string)
    (headers : option (list (string * string)))
    (team_namespace team_admin : option string) : M DropBoxStorage.t :=
  oauth2_access_token <- py_or_else oauth2_access_token (setting "DROPBOX_OAUTH2_TOKEN" None) ;;
  team_namespace <- py_or_else team_namespace (setting "DROPBOX_TEAM_NAMESPACE" None) ;;
  team_admin <- py_or_else team_admin (setting "DROPBOX_TEAM_ADMIN" None) ;;
  root_path <- py_or_else root_path (setting "DROPBOX_ROOT_PATH" (Some "/")) ;;
  match oauth2_access_token with
  | None => raise (ImproperlyConfigured
                     "You must configure a token auth at'settings.DROPBOX_OAUTH2_TOKEN'.")
  | Some token =>
      match team_namespace with
      | None => raise (ImproperlyConfigured
                         "You must configure a namespace at'settings.DROPBOX_TEAM_NAMESPACE'.")
      | Some namespace =>
          match team_admin with
          | None => raise (ImproperlyConfigured
                             "You must configure an admin at'settings.DROPBOX_TEAM_ADMIN'.")
          | Some admin =>
              global_name globals "DropboxTeam" ;;;
              team <- Client.DropboxTeam token
                        [("Dropbox-API-Path-Root", path_root namespace)] ;;
              client <- Client.as_admin team ("dbmid:" +:+ admin) ;;
              ret {| DropBoxStorage.root_path := root_path;
                     DropBoxStorage.client := client;
                     DropBoxStorage.CHUNK_SIZE := DropBoxStorage.class_CHUNK_SIZE |}
          end
      end
  end.

(** The constructor as the module has it. *)
Definition __init__ := __init__in module_globals.

End DropBoxTeamStorage.

(** ** The answers of the SDK

    What the client of the SDK answers to [files_get_metadata]: an instance
    of a subclass of [dropbox.files.Metadata], an object with attributes. *)

Module SDK.

Inductive Metadata :=
| FileMetadata (name path_lower path_display : string) (size : Z)
| FolderMetadata (name path_lower path_display : string)
| DeletedMetadata (name path_lower path_display : string).

Definition object_of (m : Metadata) : pyval :=
  match m with
  | FileMetadata n l d s =>
      PyObj [("name", PyStr n); ("path_lower", PyStr l); ("path_display", PyStr d);
             ("size", PyInt s)]
  | FolderMetadata n l d =>
      PyObj [("name", PyStr n); ("path_lower", PyStr l); ("path_display", PyStr d)]
  | DeletedMetadata n l d =>
      PyObj [("name", PyStr n); ("path_lower", PyStr l); ("path_display", PyStr d)]
  end.

End SDK.

(** ** Worlds and values to run the module on *)

Module Fixture.

(** A double of the client that accepts every call and answers metadata
    calls in the form of dicts: it knows one folder, [/a], with a file and a
    directory in it, and the file with its timestamps. *)
Definition folder_a : pyval :=
  PyDict [("path", PyStr "/a"); ("is_dir", PyBool true);
          ("contents",
           PyList [PyDict [("path", PyStr "/a/b.txt"); ("is_dir", PyBool false)];
                   PyDict [("path", PyStr "/a/c"); ("is_dir", PyBool true)]])].

Definition file_b : pyval :=
  PyDict [("path", PyStr "/a/b.txt"); ("is_dir", PyBool false); ("bytes", PyInt 3);
          ("modified", PyStr "Mon, 01 Jan 2024 12:00:00 +0000");
          ("client_mtime", PyStr "Mon, 01 Jan 2024 12:00:00 +0000")].

Definition remote_ok : Remote :=
  {| raises := fun _ => None;
     metadata_of := fun p => if String.eqb p "/a" then folder_a
                             else if String.eqb p "/a/b.txt" then file_b
                             else PyDict [];
     download_of := fun _ => Pair file_b [Byte.x68; Byte.x69];
     session_of := fun _ => "session-1";
     link_of := fun p => "https://dl.example" +:+ p |}.

(** The client of the SDK before a remote that holds the folder [/a] with
    the file [/a/b.txt] of two bytes in it, and nothing else. *)
Definition folder_a_object : pyval := SDK.object_of (SDK.FolderMetadata "a" "/a" "/a").

Definition file_b_object : pyval :=
  SDK.object_of (SDK.FileMetadata "b.txt" "/a/b.txt" "/a/b.txt" 2).

Definition remote_sdk : Remote :=
  {| raises := fun ev =>
       match ev with
       | Files_get_metadata p | Files_download p =>
           if String.eqb p "/a" || String.eqb p "/a/b.txt" then None
           else Some (ApiError "not_found")
       | _ => None
       end;
     metadata_of := fun p => if String.eqb p "/a" then folder_a_object else file_b_object;
     download_of := fun _ => Pair file_b_object [Byte.x68; Byte.x69];
     session_of := fun _ => "session-1";
     link_of := fun p => "https://dl.example" +:+ p |}.

(** A double of the client that answers every download with the file object
    at reference 0. *)
Definition remote_double : Remote :=
  {| raises := fun _ => None;
     metadata_of := fun _ => PyNone;
     download_of := fun _ => Readable 0;
     session_of := fun _ => "";
     link_of := fun _ => "" |}.

(** A remote whose metadata call raises an [ApiError] with the given tag. *)
Definition remote_api_error (tag : string) : Remote :=
  {| raises := fun ev => match ev with
                         | Files_get_metadata _ => Some (ApiError tag)
                         | _ => None
                         end;
     metadata_of := fun _ => PyNone;
     download_of := fun _ => Pair PyNone [];
     session_of := fun _ => "";
     link_of := fun _ => "" |}.

Definition world (r : Remote) : World :=
  {| cwd := "/srv/app"; settings := ∅; remote := r; calls := []; heap := ∅ |}.

Definition storage (root : string) (chunk : Z) : DropBoxStorage.t :=
  {| DropBoxStorage.root_path := Some root;
     DropBoxStorage.client := Client.User "token";
     DropBoxStorage.CHUNK_SIZE := chunk |}.

(** A world with one open upload source of the given bytes at reference 0. *)
Definition world_with (b : bytes) : World :=
  set_heap {[ 0%nat := {| data := b; pos := 0; closed := false |} ]} (world remote_ok).

Definition content (size : Z) : File.t := {| File.file := 0; File.size := size |}.

Definition abc : bytes := [Byte.x61; Byte.x62; Byte.x63].
Definition eight : bytes :=
  [Byte.x30; Byte.x31; Byte.x32; Byte.x33; Byte.x34; Byte.x35; Byte.x36; Byte.x37].

End Fixture.

(** The outcome of a statement without the world it leaves. *)
Definition outcome {A} (r : option (Res A * World)) : option (Res A) :=
  match r with
  | Some (a, _) => Some a
  | None => None
  end.

(** The calls a statement leaves in the log. *)
Definition calls_of {R} (r : option (R * World)) : list api_call :=
  match r with
  | Some (_, w) => calls w
  | None => []
  end.

(** The world after one more call. *)
Definition logged (ev : api_call) (w : World) : World := set_calls (calls w ++ [ev]) w.


(** A constructor argument that was not given and whose setting is not set,
    or is set to [None]. *)
Definition absent (arg : option string) (key : string) (w : World) : Prop :=
  arg = None /\ (settings w !! key = None \/ settings w !! key = Some None).

(** A constructor argument or setting that gives a usable value. *)
Definition given (arg : option string) (key : string) (w : World) (v : string) : Prop :=
  (arg = Some v /\ v <> "") \/ (py_truthy arg = false /\ settings w !! key = Some (Some v)).

(** A world in which the settings are these. *)
Definition with_settings (s : gmap string (option string)) (w : World) : World :=
  {| cwd := cwd w; settings := s; remote := remote w; calls := calls w; heap := heap w |}.

(** The test of [safe_join] on a path as the remote will read it, with its
    [..] components resolved: is it below the base, the base itself, or is
    the base the topmost directory? *)
Definition inside (base p : string) : bool :=
  let q := posixpath.normpath p in
  Str.startswith q (base +:+ posixpath.sep) || String.eqb q base
  || String.eqb (posixpath.dirname base) base.

(** The path that the answer reports for the child [name] of the folder at
    [full_path]: the path of the folder, a separator and the name; in the
    topmost folder, whose path is the separator, the separator and the
    name. *)
Definition child_path (full_path name : string) : string :=
  if String.eqb full_path "/" then "/" +:+ name else full_path +:+ "/" +:+ name.

(** An entry of the contents of the folder at [full_path], for its child
    [fst child], which is a directory when [snd child]: a dict with the
    reported path of the child, whose name has no separator. *)
Definition child_entry (full_path : string) (child : string * bool) (entry : pyval) : Prop :=
  exists d is_dir,
    entry = PyDict d
    /\ assoc "path" d = Some (PyStr (child_path full_path (fst child)))
    /\ Str.mem slash (fst child) = false
    /\ assoc "is_dir" d = Some is_dir
    /\ py_bool is_dir = snd child.

(** The names of the directories and of the files among the children, in
    their order. *)
Definition directories_of (children : list (string * bool)) : list pyval :=
  map (fun c => PyStr (fst c)) (List.filter (fun c => snd c) children).

Definition files_of (children : list (string * bool)) : list pyval :=
  map (fun c => PyStr (fst c)) (List.filter (fun c => negb (snd c)) children).

(** The point in time that [strptime] reads in a timestamp with
    [DATE_FORMAT], if it reads one. *)
Definition timestamp_of (s : string) : option datetime :=
  match strptime.tokens DATE_FORMAT with
  | Some ts =>
      match strptime.parse (concat (map strptime.expand ts)) s strptime.default with
      | Some t => if strptime.valid t then Some t else None
      | None => None
      end
  | None => None
  end.

Definition noon_2024_01_01 : datetime :=
  {| year := 2024; month := 1; day := 1; hour := 12; minute := 0; second := 0 |}.

(** The instance after its buffer was set. *)
Definition cached {Storage} (self : DropBoxFile.t Storage) (f : nat) : DropBoxFile.t Storage :=
  DropBoxFile.set__file f self.

(** The world after [SpooledTemporaryFile()] returned the file object at
    reference [f]. *)
Definition with_buffer (f : nat) (w : World) : World :=
  set_heap (<[f := {| data := []; pos := 0; closed := false |}]> (heap w)) w.

(** [n] accesses to the property [file], one after the other: the file
    objects they returned. *)
Fixpoint accesses {Storage} (n : nat) : Method (DropBoxFile.t Storage) (list nat) :=
  match n with
  | O => mret []
  | S n' =>
      f <~ DropBoxFile.file ;;
      fs <~ accesses n' ;;
      mret (f :: fs)
  end.

(** The number of downloads in a log. *)
Definition downloads (l : list api_call) : nat :=
  length (List.filter (fun ev => match ev with Files_download _ => true | _ => false end) l).

(** ** Vocabulary of the upload properties *)

(** The bytes that a call carries. *)
Definition payload (ev : api_call) : bytes :=
  match ev with
  | Files_upload f _ => f
  | Files_upload_session_start f => f
  | Files_upload_session_append_v2 f _ => f
  | Files_upload_session_finish f _ _ => f
  | _ => []
  end.

Definition is_upload (ev : api_call) : bool :=
  match ev with Files_upload _ _ => true | _ => false end.
Definition is_start (ev : api_call) : bool :=
  match ev with Files_upload_session_start _ => true | _ => false end.
Definition is_append (ev : api_call) : bool :=
  match ev with Files_upload_session_append_v2 _ _ => true | _ => false end.
Definition is_finish (ev : api_call) : bool :=
  match ev with Files_upload_session_finish _ _ _ => true | _ => false end.

(** How many calls of a kind a log has. *)
Definition count (kind : api_call -> bool) (l : list api_call) : nat :=
  length (List.filter kind l).

(** All the bytes that the calls of a log carry, in order. *)
Definition sent (l : list api_call) : bytes := concat (map payload l).

(** The file object behind [content] is open, holds [d] and is at [p]. *)
Definition stream_at (content : File.t) (d : bytes) (p : nat) (w : World) : Prop :=
  heap w !! File.file content = Some {| data := d; pos := p; closed := false |}.

(** The remote raises on no call. *)
Definition accepts (w : World) : Prop := forall ev, raises (remote w) ev = None.

(** The world in which the file object behind [content] holds [d] at [p],
    open or closed. *)
Definition put (content : File.t) (d : bytes) (p : nat) (c : bool) (w : World) : World :=
  set_heap (<[File.file content := {| data := d; pos := p; closed := c |}]> (heap w)) w.

(** Every read of the content, of whatever number of bytes, returns and
    moves the position by that number, or by what is left of the size when
    that is less. *)
Definition reads_advance (content : File.t) (w : World) : Prop :=
  forall n, 0 <= n ->
    exists chunk w1 position position',
      File.tell content w = Some (Ok position, w)
      /\ File.read content (Some n) w = Some (Ok chunk, w1)
      /\ File.tell content w1 = Some (Ok position', w1)
      /\ position' = position + Z.min n (File.size content - position).

(** Sources for the upload of more than 4 MiB: zero bytes. *)
Definition zeros (n : Z) : bytes := repeat Byte.x00 (Z.to_nat n).

(** More worlds to run the upload on. *)
Definition two_chunks : bytes := zeros (2 * DropBoxStorage.class_CHUNK_SIZE).

Definition default_storage : DropBoxStorage.t :=
  Fixture.storage "/" DropBoxStorage.class_CHUNK_SIZE.

(** ** Vocabulary of the further properties *)

(** A remote on which every call raises [e]. *)
Definition remote_down (e : exn) : Remote :=
  {| raises := fun _ => Some e;
     metadata_of := fun _ => PyNone;
     download_of := fun _ => Pair PyNone [];
     session_of := fun _ => "";
     link_of := fun _ => "" |}.

(** An access to the property [file] and, when it raised, a second access
    to the property of the same instance: the outcome of the last. *)
Definition retry {Storage} : Method (DropBoxFile.t Storage) nat := fun self w =>
  match DropBoxFile.file self w with
  | Some (Raise _, self1, w1) => DropBoxFile.file self1 w1
  | r => r
  end.

(** A string with every backslash turned into a forward slash, character by
    character. *)
Fixpoint forward_slashes (s : string) : string :=
  match s with
  | EmptyString => EmptyString
  | String c s' => String (if Ascii.eqb c backslash then slash else c) (forward_slashes s')
  end.

(** A constructor value is unusable: the argument is missing or empty, and
    the setting is not set or is [None]. *)
Definition unconfigured (arg : option string) (key : string) (w : World) : Prop :=
  py_truthy arg = false /\ (settings w !! key = None \/ settings w !! key = Some None).

(** The cursor that a session call carries. *)
Definition cursor_of (ev : api_call) : option UploadSessionCursor :=
  match ev with
  | Files_upload_session_append_v2 _ c => Some c
  | Files_upload_session_finish _ c _ => Some c
  | _ => None
  end.

(** Every call of the list that carries a cursor carries the session [sid]
    and, as offset, [n] plus the number of bytes of the calls before it. *)
Fixpoint cursors_track (sid : string) (n : Z) (l : list api_call) : Prop :=
  match l with
  | [] => True
  | ev :: l' =>
      match cursor_of ev with
      | Some c => session_id c = sid /\ offset c = n
      | None => True
      end
      /\ cursors_track sid (n + Z.of_nat (length (payload ev))) l'
  end.

(** The chunking of the bytes of [d] from position [p] in at most [n] calls:
    an append of [chunk] bytes while more than [chunk] bytes are left, then
    a finish with the rest; each call has the position as cursor offset. *)
Fixpoint tail_calls (n chunk : nat) (sid : string) (commit : CommitInfo) (d : bytes) (p : nat)
    : list api_call :=
  match n with
  | O => []
  | S n' =>
      if (length d - p <=? chunk)%nat
      then [Files_upload_session_finish (drop p d)
              {| session_id := sid; offset := Z.of_nat p |} commit]
      else Files_upload_session_append_v2 (take chunk (drop p d))
             {| session_id := sid; offset := Z.of_nat p |}
           :: tail_calls n' chunk sid commit d (p + chunk)
  end.

(** The calls of the session that uploads [d] in chunks of [chunk] bytes. *)
Definition session_calls (chunk : nat) (sid : string) (dest : string) (d : bytes)
    : list api_call :=
  Files_upload_session_start (take chunk d)
  :: tail_calls (length d) chunk sid {| path := dest |} d chunk.

(** Upload sources whose size attribute is not the number of their bytes,
    and one of three chunks of 4 bytes less one. *)
Definition eleven : bytes := Fixture.eight ++ Fixture.abc.

(** The remote raises on none of the calls of the list but the last, on
    which it raises [e]. *)
Definition raised_last (r : Remote) (e : exn) (l : list api_call) : Prop :=
  exists l0 ev, l = l0 ++ [ev] /\ Forall (fun x => raises r x = None) l0 /\ raises r ev = Some e.

(** A remote that accepts the start of a session and raises [e] on every
    other call. *)
Definition remote_failing_after_start (e : exn) : Remote :=
  {| raises := fun ev => if is_start ev then None else Some e;
     metadata_of := fun _ => PyNone;
     download_of := fun _ => Pair PyNone [];
     session_of := fun _ => "session-1";
     link_of := fun _ => "" |}.

(** A statement that leaves the world as it finds it. *)
Definition pure {A} (c : M A) : Prop := forall w, exists r, c w = Some (r, w).

(** An operation on a name makes no call when path resolution refuses the
    name, and otherwise the one call [call p] on the resolved path [p];
    whatever it returns or raises, it touches nothing else. *)
Definition makes_one_call {A} (op : M A) (call : string -> api_call)
    (self : DropBoxStorage.t) (name : string) (w : World) : Prop :=
  (exists e, DropBoxStorage._full_path self name w = Some (Raise e, w)
             /\ op w = Some (Raise e, w))
  \/ (exists p r, DropBoxStorage._full_path self name w = Some (Ok p, w)
                  /\ op w = Some (r, logged (call p) w)).

(** A world with the eleven bytes as open upload source at reference 0 and a
    remote that fails after the start of the session. *)
Definition failing_world : World :=
  set_heap {[ 0%nat := {| data := eleven; pos := 0; closed := false |} ]}
    (Fixture.world (remote_failing_after_start (HttpError 503))).

(** [t.strftime(DATE_FORMAT)] in the C locale, with the name of the weekday
    given rather than computed: numbers in two digits, the year in four. *)
Definition digit_char (k : Z) : ascii := ascii_of_nat (48 + Z.to_nat k).

Definition two (n : Z) (rest : string) : string :=
  String (digit_char (n / 10)) (String (digit_char (n mod 10)) rest).

Definition four (n : Z) (rest : string) : string :=
  String (digit_char (n / 1000)) (String (digit_char (n / 100 mod 10))
    (String (digit_char (n / 10 mod 10)) (String (digit_char (n mod 10)) rest))).

Definition weekday_names : list string := ["Mon"; "Tue"; "Wed"; "Thu"; "Fri"; "Sat"; "Sun"].

Definition month_names : list string :=
  ["Jan"; "Feb"; "Mar"; "Apr"; "May"; "Jun"; "Jul"; "Aug"; "Sep"; "Oct"; "Nov"; "Dec"].

Definition month_name (m : Z) : string := nth (Z.to_nat (m - 1)) month_names "".

Definition strftime (weekday : string) (t : datetime) : string :=
  weekday +:+ String "," (String " " (two (day t) (String " " (month_name (month t) +:+
    String " " (four (year t) (String " " (two (hour t) (String ":" (two (minute t)
      (String ":" (two (second t) " +0000"))))))))))).

(** ** Timestamps, as the format describes them

    The strings of the form [Weekday, DD Mon YYYY HH:MM:SS +0000], written
    down from the description of the directives in the documentation of
    [strptime] and not from its parser: the abbreviated name of a weekday, a
    comma, the day of the month, the abbreviated name of the month, the year
    in four digits, the time of the day and the literal offset, with white
    space between them. Names are read in either case, the day and the
    numbers of the time in one or two digits, and white space is any
    positive number of white-space characters. The weekday is not compared
    with the date. *)

Module Timestamp.

(** The code points of white space below 256. *)
Definition white_space : list nat := [9; 10; 11; 12; 13; 28; 29; 30; 31; 32; 133; 160]%nat.

Definition blank (s : string) : Prop :=
  s <> "" /\ Forall (fun c => In (nat_of_ascii c) white_space) (list_ascii_of_string s).

(** The decimal digits and their values. *)
Definition decimal : list (ascii * Z) :=
  [("0"%char, 0); ("1"%char, 1); ("2"%char, 2); ("3"%char, 3); ("4"%char, 4);
   ("5"%char, 5); ("6"%char, 6); ("7"%char, 7); ("8"%char, 8); ("9"%char, 9)].

Definition digit (c : ascii) (v : Z) : Prop := In (c, v) decimal.

(** A number written in one or in two digits. *)
Inductive short : string -> Z -> Prop :=
| short_one c v : digit c v -> short (String c "") v
| short_two c1 v1 c2 v2 :
    digit c1 v1 -> digit c2 v2 -> short (String c1 (String c2 "")) (10 * v1 + v2).

(** A number written in four digits. *)
Inductive long : string -> Z -> Prop :=
| long_four c1 v1 c2 v2 c3 v3 c4 v4 :
    digit c1 v1 -> digit c2 v2 -> digit c3 v3 -> digit c4 v4 ->
    long (String c1 (String c2 (String c3 (String c4 ""))))
      (1000 * v1 + 100 * v2 + 10 * v3 + v4).

(** The capital letters and their small letters. *)
Definition capitals : list (ascii * ascii) :=
  [("A"%char, "a"%char); ("B"%char, "b"%char); ("C"%char, "c"%char); ("D"%char, "d"%char);
   ("E"%char, "e"%char); ("F"%char, "f"%char); ("G"%char, "g"%char); ("H"%char, "h"%char);
   ("I"%char, "i"%char); ("J"%char, "j"%char); ("K"%char, "k"%char); ("L"%char, "l"%char);
   ("M"%char, "m"%char); ("N"%char, "n"%char); ("O"%char, "o"%char); ("P"%char, "p"%char);
   ("Q"%char, "q"%char); ("R"%char, "r"%char); ("S"%char, "s"%char); ("T"%char, "t"%char);
   ("U"%char, "u"%char); ("V"%char, "v"%char); ("W"%char, "w"%char); ("X"%char, "x"%char);
   ("Y"%char, "y"%char); ("Z"%char, "z"%char)].

Definition same_letter (x y : ascii) : Prop :=
  x = y \/ In (x, y) capitals \/ In (y, x) capitals.

(** [s] spells [name], whatever the case of its letters. *)
Definition spells (s name : string) : Prop :=
  Forall2 same_letter (list_ascii_of_string s) (list_ascii_of_string name).

(** [s] spells the [i]-th name of the list, counted from 1. *)
Definition names (l : list string) (s : string) (i : Z) : Prop :=
  exists name, 1 <= i /\ nth_error l (Z.to_nat (i - 1)) = Some name /\ spells s name.

Definition leap_year (y : Z) : bool :=
  (y mod 4 =? 0) && (negb (y mod 100 =? 0) || (y mod 400 =? 0)).

Definition month_lengths (y : Z) : list Z :=
  [31; if leap_year y then 29 else 28; 31; 30; 31; 30; 31; 31; 30; 31; 30; 31].

Definition days_in (y m : Z) : Z := nth (Z.to_nat (m - 1)) (month_lengths y) 0.

(** The timestamp [s] denotes the point in time [t]. *)
Definition reads (s : string) (t : datetime) : Prop :=
  exists weekday b1 dd b2 mon b3 yyyy b4 hh mm ss b5,
    s = weekday +:+ "," +:+ b1 +:+ dd +:+ b2 +:+ mon +:+ b3 +:+ yyyy +:+ b4
        +:+ hh +:+ ":" +:+ mm +:+ ":" +:+ ss +:+ b5 +:+ "+0000"
    /\ (exists i, names weekday_names weekday i)
    /\ blank b1 /\ short dd (day t)
    /\ blank b2 /\ names month_names mon (month t)
    /\ blank b3 /\ long yyyy (year t)
    /\ blank b4 /\ short hh (hour t) /\ short mm (minute t) /\ short ss (second t)
    /\ blank b5
    /\ 1 <= year t
    /\ 1 <= day t <= days_in (year t) (month t)
    /\ hour t <= 23 /\ minute t <= 59 /\ second t <= 59.

(** No point in time: the timestamp is malformed. *)
Definition malformed (s : string) : Prop := forall t, ~ reads s t.

End Timestamp.

(** ** Vocabulary of the timestamp proofs *)

(** All the characters. *)
Definition all_ascii : list ascii := map ascii_of_nat (seq 0 256).

(** The string does not start with white space, with a digit. *)
Definition head_not_space (s : string) : Prop :=
  match s with String c _ => strptime.is_space c = false | EmptyString => True end.

Definition head_not_digit (s : string) : Prop :=
  match s with String c _ => strptime.digit c = None | EmptyString => True end.

(** A string of white space, and a string of letters. *)
Definition spaces (s : string) : Prop :=
  Forall (fun c => strptime.is_space c = true) (list_ascii_of_string s).

Definition is_letter (y : ascii) : bool :=
  existsb (fun p => Ascii.eqb (fst p) y || Ascii.eqb (snd p) y) Timestamp.capitals.

Definition letters (s : string) : Prop :=
  Forall (fun y => is_letter y = true) (list_ascii_of_string s).

(** [Timestamp.same_letter] as a test. *)
Definition same_letterb (x y : ascii) : bool :=
  Ascii.eqb x y
  || existsb (fun p => Ascii.eqb (fst p) x && Ascii.eqb (snd p) y) Timestamp.capitals
  || existsb (fun p => Ascii.eqb (fst p) y && Ascii.eqb (snd p) x) Timestamp.capitals.

(** [DATE_FORMAT] as the parser reads it, with [%X] expanded. *)
Definition date_tokens : list strptime.token :=
  [strptime.TDir "a"; strptime.TLit ","; strptime.TSpace; strptime.TDir "d"; strptime.TSpace;
   strptime.TDir "b"; strptime.TSpace; strptime.TDir "Y"; strptime.TSpace;
   strptime.TDir "H"; strptime.TLit ":"; strptime.TDir "M"; strptime.TLit ":";
   strptime.TDir "S"; strptime.TSpace;
   strptime.TLit "+"; strptime.TLit "0"; strptime.TLit "0"; strptime.TLit "0";
   strptime.TLit "0"].
(** * Properties *)

(** ** The string and path functions on examples *)

Example replace_first_ex : Str.replace "/a" "" (Some 1%nat) "/a/b/a" = "/b/a".
Proof. reflexivity. Qed.

Example replace_all_ex : Str.replace "\" "/" None "a\b\\c" = "a/b//c".
Proof. reflexivity. Qed.

Example replace_overlap_ex : Str.replace "aa" "b" None "aaaaa" = "bba".
Proof. reflexivity. Qed.

Example replace_empty_ex : Str.replace "" "-" None "abc" = "-a-b-c-".
Proof. reflexivity. Qed.

Example replace_empty_one_ex : Str.replace "" "" (Some 1%nat) "abc" = "abc".
Proof. reflexivity. Qed.

Example split_ex : Str.split slash "/a//b" = [""; "a"; ""; "b"].
Proof. reflexivity. Qed.

Example rstrip_ex : Str.rstrip slash "/a/b//" = "/a/b".
Proof. reflexivity. Qed.

Example join_abs : posixpath.join "/dir" "/etc" = "/etc".
Proof. reflexivity. Qed.

Example join_rel : posixpath.join "/dir/" "a" = "/dir/a".
Proof. reflexivity. Qed.

Example normpath_dots : posixpath.normpath "/dir/a/../../etc/./x//" = "/etc/x".
Proof. reflexivity. Qed.

Example normpath_rel : posixpath.normpath "../a/.." = "..".
Proof. reflexivity. Qed.

Example normpath_two : posixpath.normpath "//a" = "//a".
Proof. reflexivity. Qed.

Example dirname_ex : posixpath.dirname "/dir/sub" = "/dir".
Proof. reflexivity. Qed.

Example dirname_root : posixpath.dirname "/" = "/".
Proof. reflexivity. Qed.

Example dirname_top : posixpath.dirname "/dir" = "/".
Proof. reflexivity. Qed.

Example dirname_none : posixpath.dirname "dir" = "".
Proof. reflexivity. Qed.

(** ** The monad *)

Lemma bind_ret {A B} (a : A) (k : A -> M B) w : bind (ret a) k w = k a w.
Proof. reflexivity. Qed.

Lemma bind_ok {A B} (c : M A) (k : A -> M B) w a w' :
  c w = Some (Ok a, w') -> bind c k w = k a w'.
Proof. intros H. unfold bind. now rewrite H. Qed.

Lemma bind_raise {A B} (c : M A) (k : A -> M B) w e w' :
  c w = Some (Raise e, w') -> bind c k w = Some (Raise e, w').
Proof. intros H. unfold bind. now rewrite H. Qed.

Lemma bind_assoc {A B C} (c : M A) (k : A -> M B) (k' : B -> M C) w :
  bind (bind c k) k' w = bind c (fun a => bind (k a) k') w.
Proof. unfold bind. destruct (c w) as [[[a|e] w1]|]; reflexivity. Qed.

Lemma bind_inv {A B} (c : M A) (k : A -> M B) w b w2 :
  bind c k w = Some (Ok b, w2) ->
  exists a w1, c w = Some (Ok a, w1) /\ k a w1 = Some (Ok b, w2).
Proof.
  unfold bind. destruct (c w) as [[[a|e] w1]|] eqn:E; try discriminate.
  intros H. eauto.
Qed.

Lemma call_ok {A} ev (answer : Remote -> A) w :
  raises (remote w) ev = None ->
  Client.call ev answer w = Some (Ok (answer (remote w)), logged ev w).
Proof. intros H. unfold Client.call. now rewrite H. Qed.

Lemma call_raise {A} ev (answer : Remote -> A) w e :
  raises (remote w) ev = Some e ->
  Client.call ev answer w = Some (Raise e, logged ev w).
Proof. intros H. unfold Client.call. now rewrite H. Qed.

(** ** Path resolution leaves the world alone *)

Lemma abspath_pure path w : exists p, posixpath.abspath path w = Some (Ok p, w).
Proof.
  unfold posixpath.abspath. destruct (posixpath.isabs path); eexists; reflexivity.
Qed.

Lemma safe_join_pure base path w : exists r, safe_join base path w = Some (r, w).
Proof.
  unfold safe_join.
  destruct (abspath_pure (posixpath.join base path) w) as [p Hp].
  destruct (abspath_pure base w) as [b Hb].
  rewrite (bind_ok _ _ _ _ _ Hp), (bind_ok _ _ _ _ _ Hb).
  match goal with |- context [if ?c then _ else _] => destruct c end;
    eexists; reflexivity.
Qed.

Lemma full_path_pure self name w :
  exists r, DropBoxStorage._full_path self name w = Some (r, w).
Proof.
  unfold DropBoxStorage._full_path.
  destruct (DropBoxStorage.root_path self) as [root|]; [|eexists; reflexivity].
  destruct (safe_join_pure root (if String.eqb name "/" then "" else name) w) as [[p|e] H].
  - rewrite (bind_ok _ _ _ _ _ H). eexists; reflexivity.
  - rewrite (bind_raise _ _ _ _ _ H). eexists; reflexivity.
Qed.

Lemma abspath_cwd path w1 w2 p :
  cwd w1 = cwd w2 ->
  posixpath.abspath path w1 = Some (Ok p, w1) ->
  posixpath.abspath path w2 = Some (Ok p, w2).
Proof.
  unfold posixpath.abspath, getcwd, bind, ret. intros Hc.
  destruct (posixpath.isabs path); cbn; rewrite <- ?Hc; congruence.
Qed.

Lemma safe_join_cwd base path w1 w2 r :
  cwd w1 = cwd w2 ->
  safe_join base path w1 = Some (r, w1) ->
  safe_join base path w2 = Some (r, w2).
Proof.
  intros Hc. unfold safe_join.
  destruct (abspath_pure (posixpath.join base path) w1) as [p Hp].
  destruct (abspath_pure base w1) as [b Hb].
  rewrite (bind_ok _ _ _ _ _ Hp), (bind_ok _ _ _ _ _ Hb).
  rewrite (bind_ok _ _ _ _ _ (abspath_cwd _ _ _ _ Hc Hp)).
  rewrite (bind_ok _ _ _ _ _ (abspath_cwd _ _ _ _ Hc Hb)).
  match goal with |- context [if ?c then _ else _] => destruct c end;
    unfold raise, ret; congruence.
Qed.

(** The resolved path depends on the world through the working directory
    only. *)
Lemma full_path_cwd self name w1 w2 r :
  cwd w1 = cwd w2 ->
  DropBoxStorage._full_path self name w1 = Some (r, w1) ->
  DropBoxStorage._full_path self name w2 = Some (r, w2).
Proof.
  intros Hc. unfold DropBoxStorage._full_path.
  destruct (DropBoxStorage.root_path self) as [root|]; [|unfold raise; congruence].
  destruct (safe_join_pure root (if String.eqb name "/" then "" else name) w1) as [[p|e] H].
  - rewrite (bind_ok _ _ _ _ _ H), (bind_ok _ _ _ _ _ (safe_join_cwd _ _ _ _ _ Hc H)).
    unfold ret. congruence.
  - rewrite (bind_raise _ _ _ _ _ H), (bind_raise _ _ _ _ _ (safe_join_cwd _ _ _ _ _ Hc H)).
    congruence.
Qed.

(** ** [exists] *)

(** What [exists] does in each case of the metadata call. *)
Lemma exists_fetch self name w p :
  DropBoxStorage._full_path self name w = Some (Ok p, w) ->
  DropBoxStorage.exists_ self name w =
    match raises (remote w) (Files_get_metadata p) with
    | None => Some (Ok (py_bool (metadata_of (remote w) p)), logged (Files_get_metadata p) w)
    | Some e => if is_ApiError e then Some (Ok false, logged (Files_get_metadata p) w)
                else Some (Raise e, logged (Files_get_metadata p) w)
    end.
Proof.
  intros Hp. unfold DropBoxStorage.exists_, except_ApiError.
  rewrite (bind_ok _ _ _ _ _ Hp). unfold Client.files_get_metadata.
  destruct (raises (remote w) (Files_get_metadata p)) as [e|] eqn:E.
  - rewrite (bind_raise _ _ _ _ _ (call_raise _ _ _ _ E)).
    destruct (is_ApiError e); reflexivity.
  - rewrite (bind_ok _ _ _ _ _ (call_ok _ _ _ E)). reflexivity.
Qed.

(** C2: when the metadata call raises a not-found [ApiError], [exists]
    returns false and does not raise; when the fetch succeeds, which on the
    client of the SDK is an answer with a [Metadata] object, [exists] returns
    true. *)
Theorem exists_false_when_not_found_true_when_fetched self name w p :
  DropBoxStorage._full_path self name w = Some (Ok p, w) ->
  (raises (remote w) (Files_get_metadata p) = Some (ApiError "not_found") ->
   DropBoxStorage.exists_ self name w = Some (Ok false, logged (Files_get_metadata p) w))
  /\ (forall m,
        raises (remote w) (Files_get_metadata p) = None ->
        metadata_of (remote w) p = SDK.object_of m ->
        DropBoxStorage.exists_ self name w = Some (Ok true, logged (Files_get_metadata p) w)).
Proof.
  intros Hp. rewrite (exists_fetch _ _ _ _ Hp).
  split; [intros E; now rewrite E|].
  intros m E Hm. rewrite E, Hm. now destruct m.
Qed.

Lemma exists_false_when_not_found_true_when_fetched_witness :
  DropBoxStorage.exists_ (Fixture.storage "/" 4) "/gone" (Fixture.world Fixture.remote_sdk)
  = Some (Ok false, logged (Files_get_metadata "/gone") (Fixture.world Fixture.remote_sdk))
  /\ DropBoxStorage.exists_ (Fixture.storage "/" 4) "/a/b.txt" (Fixture.world Fixture.remote_sdk)
     = Some (Ok true, logged (Files_get_metadata "/a/b.txt") (Fixture.world Fixture.remote_sdk)).
Proof.
  split.
  - exact (proj1 (exists_false_when_not_found_true_when_fetched (Fixture.storage "/" 4) "/gone"
                    (Fixture.world Fixture.remote_sdk) "/gone" eq_refl) eq_refl).
  - exact (proj2 (exists_false_when_not_found_true_when_fetched (Fixture.storage "/" 4)
                    "/a/b.txt" (Fixture.world Fixture.remote_sdk) "/a/b.txt" eq_refl)
             (SDK.FileMetadata "b.txt" "/a/b.txt" "/a/b.txt" 2) eq_refl eq_refl).
Defined.

(** The truth value is that of the answer: a double of the client that
    answers an empty dict, which the client of the SDK never does, makes
    [exists] return false. *)
Example exists_empty_metadata :
  raises Fixture.remote_ok (Files_get_metadata "/nothing") = None
  /\ metadata_of Fixture.remote_ok "/nothing" = PyDict []
  /\ DropBoxStorage.exists_ (Fixture.storage "/" 4) "/nothing" (Fixture.world Fixture.remote_ok)
     = Some (Ok false, logged (Files_get_metadata "/nothing") (Fixture.world Fixture.remote_ok)).
Proof. repeat split. Qed.

(** C10: whatever [ApiError] the metadata call raises, not-found or not,
    [exists] returns false and does not raise. *)
Theorem exists_any_api_error self name w p error :
  DropBoxStorage._full_path self name w = Some (Ok p, w) ->
  raises (remote w) (Files_get_metadata p) = Some (ApiError error) ->
  DropBoxStorage.exists_ self name w = Some (Ok false, logged (Files_get_metadata p) w).
Proof.
  intros Hp E. rewrite (exists_fetch _ _ _ _ Hp), E. reflexivity.
Qed.

Lemma exists_any_api_error_witness :
  DropBoxStorage.exists_ (Fixture.storage "/" 4) "/secret"
    (Fixture.world (Fixture.remote_api_error "no_permission"))
  = Some (Ok false, logged (Files_get_metadata "/secret")
                      (Fixture.world (Fixture.remote_api_error "no_permission"))).
Proof.
  apply (exists_any_api_error (Fixture.storage "/" 4) "/secret"
           (Fixture.world (Fixture.remote_api_error "no_permission")) "/secret"
           "no_permission"); reflexivity.
Defined.

(** An exception of the client that is not an [ApiError] is not caught. *)
Lemma exists_other_error self name w p e :
  DropBoxStorage._full_path self name w = Some (Ok p, w) ->
  raises (remote w) (Files_get_metadata p) = Some e ->
  is_ApiError e = false ->
  DropBoxStorage.exists_ self name w = Some (Raise e, logged (Files_get_metadata p) w).
Proof.
  intros Hp E Hn. rewrite (exists_fetch _ _ _ _ Hp), E, Hn. reflexivity.
Qed.

(** ** The constructors *)

Lemma setting_world name default w : exists v, setting name default w = Some (Ok v, w).
Proof. unfold setting. destruct (settings w !! name); eauto. Qed.

Lemma or_else_world arg name default w :
  exists v, py_or_else arg (setting name default) w = Some (Ok v, w).
Proof.
  unfold py_or_else. destruct (py_truthy arg); [eexists; reflexivity|].
  apply setting_world.
Qed.

Lemma or_else_absent arg key w :
  absent arg key w -> py_or_else arg (setting key None) w = Some (Ok None, w).
Proof.
  intros [-> H]. unfold py_or_else, setting. simpl.
  destruct H as [-> | ->]; reflexivity.
Qed.

Lemma or_else_given arg key w v default :
  given arg key w v -> py_or_else arg (setting key default) w = Some (Ok (Some v), w).
Proof.
  intros [[-> Hv] | [Hf Hs]]; unfold py_or_else.
  - simpl. destruct (String.eqb_spec v ""); [contradiction|reflexivity].
  - rewrite Hf. unfold setting. rewrite Hs. reflexivity.
Qed.

(** The team constructor in any module namespace: what it raises when one
    of the three values is absent. *)
Lemma team_init_absent globals token root headers namespace admin w :
  absent token "DROPBOX_OAUTH2_TOKEN" w \/ absent namespace "DROPBOX_TEAM_NAMESPACE" w
    \/ absent admin "DROPBOX_TEAM_ADMIN" w ->
  exists msg,
    DropBoxTeamStorage.__init__in globals token root headers namespace admin w
    = Some (Raise (ImproperlyConfigured msg), w).
Proof.
  intros H. unfold DropBoxTeamStorage.__init__in.
  destruct (or_else_world token "DROPBOX_OAUTH2_TOKEN" None w) as [t Ht].
  destruct (or_else_world namespace "DROPBOX_TEAM_NAMESPACE" None w) as [n Hn].
  destruct (or_else_world admin "DROPBOX_TEAM_ADMIN" None w) as [a Ha].
  destruct (or_else_world root "DROPBOX_ROOT_PATH" (Some "/") w) as [r Hr].
  rewrite (bind_ok _ _ _ _ _ Ht), (bind_ok _ _ _ _ _ Hn), (bind_ok _ _ _ _ _ Ha),
    (bind_ok _ _ _ _ _ Hr).
  destruct t as [t|]; [|eexists; reflexivity].
  destruct n as [n|]; [|eexists; reflexivity].
  destruct a as [a|]; [|eexists; reflexivity].
  destruct H as [H | [H | H]]; apply or_else_absent in H; congruence.
Qed.

(** C6: the team constructor raises a configuration error when the team
    namespace or the team admin is absent from both the arguments and the
    settings, whether or not the access token is present; the base
    constructor raises a configuration error when the access token is
    absent. *)
Theorem constructors_require_configuration :
  (forall token root headers namespace admin w,
     absent namespace "DROPBOX_TEAM_NAMESPACE" w \/ absent admin "DROPBOX_TEAM_ADMIN" w ->
     exists msg,
       DropBoxTeamStorage.__init__ token root headers namespace admin w
       = Some (Raise (ImproperlyConfigured msg), w))
  /\ (forall token root w,
        absent token "DROPBOX_OAUTH2_TOKEN" w ->
        exists msg,
          DropBoxStorage.__init__ token root w = Some (Raise (ImproperlyConfigured msg), w)).
Proof.
  split.
  - intros token root headers namespace admin w H.
    apply team_init_absent. tauto.
  - intros token root w H. unfold DropBoxStorage.__init__.
    rewrite (bind_ok _ _ _ _ _ (or_else_absent _ _ _ H)).
    destruct (or_else_world root "DROPBOX_ROOT_PATH" (Some "/") w) as [r Hr].
    rewrite (bind_ok _ _ _ _ _ Hr). eexists; reflexivity.
Qed.

Lemma constructors_require_configuration_witness :
  (exists msg,
     DropBoxTeamStorage.__init__ (Some "token") None None None (Some "admin")
       (Fixture.world Fixture.remote_ok)
     = Some (Raise (ImproperlyConfigured msg), Fixture.world Fixture.remote_ok))
  /\ (exists msg,
        DropBoxTeamStorage.__init__ (Some "token") None None (Some "1234") None
          (with_settings {[ "DROPBOX_TEAM_ADMIN" := None ]} (Fixture.world Fixture.remote_ok))
        = Some (Raise (ImproperlyConfigured msg),
                with_settings {[ "DROPBOX_TEAM_ADMIN" := None ]}
                  (Fixture.world Fixture.remote_ok)))
  /\ (exists msg,
        DropBoxStorage.__init__ None (Some "/dir") (Fixture.world Fixture.remote_ok)
        = Some (Raise (ImproperlyConfigured msg), Fixture.world Fixture.remote_ok)).
Proof.
  split; [|split].
  - apply (proj1 constructors_require_configuration).
    left. split; [reflexivity|]. left. reflexivity.
  - apply (proj1 constructors_require_configuration).
    right. split; [reflexivity|]. right. reflexivity.
  - apply (proj2 constructors_require_configuration).
    split; [reflexivity|]. left. reflexivity.
Defined.

(** The constructors of the SDK accept a token that is not empty. *)
Lemma check_token_ok t w : t <> "" -> Client.check_token t w = Some (Ok tt, w).
Proof.
  intros H. unfold Client.check_token.
  destruct (String.eqb_spec t ""); [contradiction|reflexivity].
Qed.

(** The base constructor with a token that is not empty builds a client
    bound to it. *)
Lemma base_init_given token root w t :
  given token "DROPBOX_OAUTH2_TOKEN" w t ->
  t <> "" ->
  exists r,
    DropBoxStorage.__init__ token root w
    = Some (Ok {| DropBoxStorage.root_path := r;
                  DropBoxStorage.client := Client.User t;
                  DropBoxStorage.CHUNK_SIZE := DropBoxStorage.class_CHUNK_SIZE |}, w).
Proof.
  intros H Ht. unfold DropBoxStorage.__init__.
  rewrite (bind_ok _ _ _ _ _ (or_else_given _ _ _ _ None H)).
  destruct (or_else_world root "DROPBOX_ROOT_PATH" (Some "/") w) as [r Hr].
  rewrite (bind_ok _ _ _ _ _ Hr). unfold Client.Dropbox.
  rewrite bind_assoc, (bind_ok _ _ _ _ _ (check_token_ok _ _ Ht)).
  eexists; reflexivity.
Qed.

(** The team constructor with its three values reaches the line that builds
    the client. *)
Lemma team_init_given globals token root headers namespace admin w t n a :
  given token "DROPBOX_OAUTH2_TOKEN" w t ->
  given namespace "DROPBOX_TEAM_NAMESPACE" w n ->
  given admin "DROPBOX_TEAM_ADMIN" w a ->
  exists r,
    DropBoxTeamStorage.__init__in globals token root headers namespace admin w
    = (global_name globals "DropboxTeam" ;;;
       team <- Client.DropboxTeam t
                 [("Dropbox-API-Path-Root", DropBoxTeamStorage.path_root n)] ;;
       client <- Client.as_admin team ("dbmid:" +:+ a) ;;
       ret {| DropBoxStorage.root_path := r;
              DropBoxStorage.client := client;
              DropBoxStorage.CHUNK_SIZE := DropBoxStorage.class_CHUNK_SIZE |}) w.
Proof.
  intros Ht Hn Ha. unfold DropBoxTeamStorage.__init__in.
  rewrite (bind_ok _ _ _ _ _ (or_else_given _ _ _ _ None Ht)).
  rewrite (bind_ok _ _ _ _ _ (or_else_given _ _ _ _ None Hn)).
  rewrite (bind_ok _ _ _ _ _ (or_else_given _ _ _ _ None Ha)).
  destruct (or_else_world root "DROPBOX_ROOT_PATH" (Some "/") w) as [r Hr].
  rewrite (bind_ok _ _ _ _ _ Hr). eexists; reflexivity.
Qed.

(** In a module that had imported [DropboxTeam], the team constructor would
    build a team client with the path-root header of the namespace and
    become the admin. *)
Lemma team_init_with_import globals token root headers namespace admin w t n a :
  "DropboxTeam" ∈ globals ->
  given token "DROPBOX_OAUTH2_TOKEN" w t ->
  given namespace "DROPBOX_TEAM_NAMESPACE" w n ->
  given admin "DROPBOX_TEAM_ADMIN" w a ->
  t <> "" ->
  exists self,
    DropBoxTeamStorage.__init__in globals token root headers namespace admin w
    = Some (Ok self, w)
    /\ DropBoxStorage.client self
       = Client.Admin
           (Client.Team t [("Dropbox-API-Path-Root", DropBoxTeamStorage.path_root n)])
           ("dbmid:" +:+ a).
Proof.
  intros Hg Ht Hn Ha Hne.
  destruct (team_init_given globals token root headers namespace admin w t n a Ht Hn Ha)
    as [r ->].
  unfold global_name. rewrite bool_decide_eq_true_2 by exact Hg.
  rewrite bind_ret. unfold Client.DropboxTeam.
  rewrite bind_assoc, (bind_ok _ _ _ _ _ (check_token_ok _ _ Hne)).
  eexists; split; reflexivity.
Qed.

(** C5 fails in the module as it is: [DropboxTeam] is not among its global
    names, so with an access token, a namespace and an admin the team
    constructor raises [NameError] where it would build the client, and no
    client is built. *)
Theorem team_init_raises_NameError token root headers namespace admin w t n a :
  given token "DROPBOX_OAUTH2_TOKEN" w t ->
  given namespace "DROPBOX_TEAM_NAMESPACE" w n ->
  given admin "DROPBOX_TEAM_ADMIN" w a ->
  DropBoxTeamStorage.__init__ token root headers namespace admin w
  = Some (Raise (NameError "DropboxTeam"), w).
Proof.
  intros Ht Hn Ha. unfold DropBoxTeamStorage.__init__.
  destruct (team_init_given module_globals token root headers namespace admin w t n a Ht Hn Ha)
    as [r ->].
  reflexivity.
Qed.

Lemma team_init_raises_NameError_witness :
  DropBoxTeamStorage.__init__ (Some "token") None None (Some "1234") (Some "admin")
    (Fixture.world Fixture.remote_ok)
  = Some (Raise (NameError "DropboxTeam"), Fixture.world Fixture.remote_ok).
Proof.
  apply (team_init_raises_NameError (Some "token") None None (Some "1234") (Some "admin")
           (Fixture.world Fixture.remote_ok) "token" "1234" "admin");
    (left; split; [reflexivity|discriminate]).
Defined.

(** The team constructor never returns a storage, whatever it is given. *)
Lemma team_init_never_returns token root headers namespace admin w self w' :
  DropBoxTeamStorage.__init__ token root headers namespace admin w <> Some (Ok self, w').
Proof.
  unfold DropBoxTeamStorage.__init__, DropBoxTeamStorage.__init__in.
  destruct (or_else_world token "DROPBOX_OAUTH2_TOKEN" None w) as [t Ht].
  destruct (or_else_world namespace "DROPBOX_TEAM_NAMESPACE" None w) as [n Hn].
  destruct (or_else_world admin "DROPBOX_TEAM_ADMIN" None w) as [a Ha].
  destruct (or_else_world root "DROPBOX_ROOT_PATH" (Some "/") w) as [r Hr].
  rewrite (bind_ok _ _ _ _ _ Ht), (bind_ok _ _ _ _ _ Hn), (bind_ok _ _ _ _ _ Ha),
    (bind_ok _ _ _ _ _ Hr).
  destruct t; [|discriminate]. destruct n; [|discriminate]. destruct a; discriminate.
Qed.

(** ** Path resolution *)

Lemma prefix_single c c' s :
  String.prefix (String c EmptyString) (String c' s) = Ascii.eqb c c'.
Proof.
  simpl. destruct (ascii_dec c c') as [->|Hn].
  - rewrite Ascii.eqb_refl. now destruct s.
  - symmetry. now apply Ascii.eqb_neq.
Qed.

(** Replacing one character by another everywhere, character by
    character. *)
Lemma replace_char_cons old new c s :
  Str.replace (String old EmptyString) (String new EmptyString) None (String c s)
  = String (if Ascii.eqb old c then new else c)
      (Str.replace (String old EmptyString) (String new EmptyString) None s).
Proof.
  unfold Str.replace. simpl String.eqb. cbv iota.
  cbn [Str.replace_go Str.more andb]. rewrite prefix_single.
  destruct (Ascii.eqb old c); reflexivity.
Qed.

Lemma replace_char_absent old new s :
  old <> new ->
  Str.mem old (Str.replace (String old EmptyString) (String new EmptyString) None s) = false.
Proof.
  intros Hn. induction s as [|c s IH]; [reflexivity|].
  rewrite replace_char_cons. cbn [Str.mem]. rewrite IH, orb_false_r.
  destruct (Ascii.eqb_spec old c) as [->|Hc].
  - apply Ascii.eqb_neq. congruence.
  - apply Ascii.eqb_neq. congruence.
Qed.

Lemma replace_char_id old new s :
  Str.mem old s = false ->
  Str.replace (String old EmptyString) (String new EmptyString) None s = s.
Proof.
  induction s as [|c s IH]; [reflexivity|].
  cbn [Str.mem]. intros H. apply orb_false_elim in H as [Hc Hs].
  rewrite replace_char_cons, (IH Hs).
  rewrite Ascii.eqb_sym in Hc. now rewrite Hc.
Qed.

(** What [safe_join] guarantees of the path it returns. *)
Lemma safe_join_checked base path w p w' :
  safe_join base path w = Some (Ok p, w') ->
  exists b, posixpath.abspath base w = Some (Ok b, w)
            /\ posixpath.abspath (posixpath.join base path) w = Some (Ok p, w)
            /\ (Str.startswith p (b +:+ posixpath.sep) = true \/ p = b
                \/ posixpath.dirname b = b).
Proof.
  unfold safe_join.
  destruct (abspath_pure (posixpath.join base path) w) as [q Hq].
  destruct (abspath_pure base w) as [b Hb].
  rewrite (bind_ok _ _ _ _ _ Hq), (bind_ok _ _ _ _ _ Hb).
  destruct (Str.startswith q (b +:+ posixpath.sep)) eqn:E1; cbn [negb andb].
  { unfold ret. intros [= <- <-]. eauto 6. }
  destruct (String.eqb_spec q b) as [->|E2]; cbn [negb andb].
  { unfold ret. intros [= <- <-]. eauto 6. }
  destruct (String.eqb_spec (posixpath.dirname b) b) as [E3|E3]; cbn [negb].
  { unfold ret. intros [= <- <-]. eauto 6. }
  unfold raise. discriminate.
Qed.

(** The bare separator is the empty name. *)
Lemma full_path_slash_is_empty self :
  DropBoxStorage._full_path self "/" = DropBoxStorage._full_path self "".
Proof. reflexivity. Qed.

(** No backslash is left in a resolved path. *)
Lemma full_path_no_backslash self name w p w' :
  DropBoxStorage._full_path self name w = Some (Ok p, w') ->
  Str.mem backslash p = false.
Proof.
  unfold DropBoxStorage._full_path.
  destruct (DropBoxStorage.root_path self) as [root|]; [|discriminate].
  intros H. apply bind_inv in H as (q & w1 & _ & H).
  injection H as <- _. apply (replace_char_absent backslash slash). discriminate.
Qed.

(** When [safe_join] returns a path without a backslash, that path is the
    resolved path, with what [safe_join] checked of it. *)
Lemma full_path_without_backslash self root name w p :
  DropBoxStorage.root_path self = Some root ->
  safe_join root (if String.eqb name "/" then "" else name) w = Some (Ok p, w) ->
  Str.mem backslash p = false ->
  DropBoxStorage._full_path self name w = Some (Ok p, w)
  /\ exists b, posixpath.abspath root w = Some (Ok b, w)
               /\ (Str.startswith p (b +:+ posixpath.sep) = true \/ p = b
                   \/ posixpath.dirname b = b).
Proof.
  intros Hr Hs Hm. split.
  - unfold DropBoxStorage._full_path. rewrite Hr, (bind_ok _ _ _ _ _ Hs).
    pose proof (replace_char_id backslash slash p Hm) as E.
    unfold backslash, slash in E. unfold ret. now rewrite E.
  - destruct (safe_join_checked _ _ _ _ _ Hs) as (b & Hb & _ & H). eauto.
Qed.

(** A plain traversal attempt is refused. *)
Example full_path_dotdot_refused w :
  exists msg,
    DropBoxStorage._full_path (Fixture.storage "/dir" 4) "../x" w
    = Some (Raise (SuspiciousFileOperation msg), w).
Proof. eexists. reflexivity. Qed.

(** C3 fails on a name with backslashes: [safe_join] sees no [..] component
    in ["..\x"] and accepts the join, and the replacement of the backslashes
    then makes one; the resolved path is ["/dir/../x"], which is ["/x"],
    outside the root ["/dir"]. *)
Theorem full_path_backslash_escapes w :
  DropBoxStorage._full_path (Fixture.storage "/dir" 4) "..\x" w = Some (Ok "/dir/../x", w)
  /\ posixpath.normpath "/dir/../x" = "/x"
  /\ inside "/dir" "/dir/../x" = false.
Proof. repeat split. Qed.

(** The same in general: whenever the join of root and name is accepted
    with a backslash in it, the resolved path differs from the path that
    was checked. *)
Lemma full_path_differs_from_checked self root name w p :
  DropBoxStorage.root_path self = Some root ->
  safe_join root (if String.eqb name "/" then "" else name) w = Some (Ok p, w) ->
  Str.mem backslash p = true ->
  exists q, DropBoxStorage._full_path self name w = Some (Ok q, w) /\ q <> p.
Proof.
  intros Hr Hs Hm. eexists. split.
  - unfold DropBoxStorage._full_path. rewrite Hr, (bind_ok _ _ _ _ _ Hs). reflexivity.
  - intros E. pose proof (replace_char_absent backslash slash p) as H.
    unfold backslash, slash in H, Hm. rewrite E, Hm in H.
    discriminate H. discriminate.
Qed.

(** ** [listdir] *)

Lemma assoc_set_eq key v d : assoc key (assoc_set key v d) = Some v.
Proof.
  induction d as [|[k x] d IH]; simpl.
  - now rewrite String.eqb_refl.
  - destruct (String.eqb k key) eqn:E; simpl; now rewrite E.
Qed.

Lemma assoc_set_ne key key' v d :
  key <> key' -> assoc key' (assoc_set key v d) = assoc key' d.
Proof.
  intros Hn. induction d as [|[k x] d IH]; simpl.
  - destruct (String.eqb_spec key key'); [contradiction|reflexivity].
  - destruct (String.eqb_spec k key) as [->|Hk]; simpl.
    + destruct (String.eqb_spec key key'); [contradiction|reflexivity].
    + now rewrite IH.
Qed.

Lemma append_nil_l s : "" +:+ s = s.
Proof. reflexivity. Qed.

Lemma append_cons c a s : String c a +:+ s = String c (a +:+ s).
Proof. reflexivity. Qed.

Lemma prefix_app a r : String.prefix a (a +:+ r) = true.
Proof.
  induction a as [|c a IH].
  - rewrite append_nil_l. now destruct r.
  - rewrite append_cons. simpl. destruct (ascii_dec c c); [exact IH|contradiction].
Qed.

Lemma replace_go_skip a old new count r :
  Str.replace_go old new count (String.length a) (a +:+ r)
  = Str.replace_go old new count O r.
Proof. induction a as [|c a IH]; [reflexivity|exact IH]. Qed.

Lemma replace_go_done old new s : Str.replace_go old new (Some O) O s = s.
Proof. induction s as [|c s IH]; [reflexivity|]. simpl. now rewrite IH. Qed.

(** Removing the first occurrence of [old] from a string that starts with
    it leaves the rest. *)
Lemma replace_prefix_once old rest :
  Str.replace old "" (Some 1%nat) (old +:+ rest) = rest.
Proof.
  unfold Str.replace. destruct old as [|c old].
  - rewrite append_nil_l. destruct rest as [|c rest]; [reflexivity|].
    cbn [String.eqb Str.interleave Str.more Str.less].
    rewrite append_nil_l. now destruct rest.
  - cbn [String.eqb]. rewrite append_cons. cbn [Str.replace_go].
    rewrite <- append_cons, prefix_app.
    cbn [Str.more andb Str.less Nat.pred String.length].
    now rewrite append_nil_l, replace_go_skip, replace_go_done.
Qed.

(** In the topmost folder the reported paths are a separator and the name:
    the first replacement takes the separator, and the second finds none in
    a plain name. *)
Lemma replace_go_absent c new count s :
  Str.mem c s = false ->
  Str.replace_go (String c EmptyString) new count O s = s.
Proof.
  induction s as [|x s IH]; [reflexivity|].
  cbn [Str.mem]. intros H. apply orb_false_elim in H as [Hx Hs].
  cbn [Str.replace_go]. rewrite prefix_single, Ascii.eqb_sym, Hx, andb_false_r.
  now rewrite (IH Hs).
Qed.

(** One entry of a child goes to the directories or to the files under the
    name of the child. *)
Lemma listdir_entry_child full_path child entry directories files w :
  child_entry full_path child entry ->
  DropBoxStorage.listdir_entry full_path entry (directories, files) w
  = Some (Ok (if snd child then (directories ++ [PyStr (fst child)], files)
              else (directories, files ++ [PyStr (fst child)])), w).
Proof.
  intros (d & is_dir & -> & Hp & Hn & Hd & Hb).
  unfold DropBoxStorage.listdir_entry, py_getitem, py_replace, py_setitem.
  rewrite Hp. rewrite !bind_ret. rewrite assoc_set_eq. rewrite !bind_ret.
  rewrite assoc_set_ne by discriminate. rewrite assoc_set_ne by discriminate.
  rewrite Hd, bind_ret, Hb. rewrite assoc_set_eq.
  assert (E : Str.replace "/" "" (Some 1%nat)
                (Str.replace full_path "" (Some 1%nat) (child_path full_path (fst child)))
              = fst child).
  { unfold child_path. destruct (String.eqb_spec full_path "/") as [->|_].
    - rewrite (replace_prefix_once "/" (fst child)).
      exact (replace_go_absent slash "" (Some 1%nat) (fst child) Hn).
    - rewrite replace_prefix_once. exact (replace_prefix_once "/" (fst child)). }
  rewrite E. destruct (snd child); reflexivity.
Qed.

Lemma listdir_loop_children full_path children entries :
  Forall2 (child_entry full_path) children entries ->
  forall directories files w,
    DropBoxStorage.listdir_loop full_path entries (directories, files) w
    = Some (Ok (directories ++ directories_of children, files ++ files_of children), w).
Proof.
  unfold directories_of, files_of.
  induction 1 as [|child entry children entries Hc _ IH]; intros directories files w.
  - simpl. now rewrite !app_nil_r.
  - cbn [DropBoxStorage.listdir_loop].
    rewrite (bind_ok _ _ _ _ _ (listdir_entry_child _ _ _ _ _ w Hc)).
    destruct child as [n [|]]; cbn [snd fst List.filter negb map]; rewrite IH.
    + now rewrite <- app_assoc.
    + now rewrite <- app_assoc.
Qed.

(** What [listdir] computes from an answer in the form of a dict, as the
    doubles of the tests give it: the children that the answer reports, the
    directories in one sequence and the files in another, each under the
    name left when the queried path and one separator are taken off its
    reported path, in the order of the report; in the topmost folder as in
    any other. *)
Lemma listdir_partitions self path w full_path d children entries :
  DropBoxStorage._full_path self path w = Some (Ok full_path, w) ->
  raises (remote w) (Files_get_metadata full_path) = None ->
  metadata_of (remote w) full_path = PyDict d ->
  assoc "contents" d = Some (PyList entries) ->
  Forall2 (child_entry full_path) children entries ->
  DropBoxStorage.listdir self path w
  = Some (Ok (directories_of children, files_of children),
          logged (Files_get_metadata full_path) w).
Proof.
  intros Hp Hr Hm Hc Hch. unfold DropBoxStorage.listdir.
  rewrite (bind_ok _ _ _ _ _ Hp). unfold Client.files_get_metadata.
  rewrite (bind_ok _ _ _ _ _ (call_ok _ _ _ Hr)). rewrite Hm.
  unfold py_getitem. rewrite Hc, bind_ret. unfold py_iter. rewrite bind_ret.
  now rewrite (listdir_loop_children _ _ _ Hch).
Qed.

(** The folder [/a] with the file [/a/b.txt] and the directory [/a/c],
    answered as a dict. *)
Example listdir_of_dict_answer :
  DropBoxStorage.listdir (Fixture.storage "/" 4) "/a" (Fixture.world Fixture.remote_ok)
  = Some (Ok ([PyStr "c"], [PyStr "b.txt"]),
          logged (Files_get_metadata "/a") (Fixture.world Fixture.remote_ok)).
Proof. reflexivity. Qed.

(** The topmost folder with the same children, answered as a dict. *)
Example listdir_of_root_dict_answer :
  DropBoxStorage.listdir (Fixture.storage "/" 4) "/"
    (Fixture.world
       {| raises := fun _ => None;
          metadata_of := fun _ =>
            PyDict [("contents",
                     PyList [PyDict [("path", PyStr "/b.txt"); ("is_dir", PyBool false)];
                             PyDict [("path", PyStr "/c"); ("is_dir", PyBool true)]])];
          download_of := fun _ => Pair PyNone []; session_of := fun _ => "";
          link_of := fun _ => "" |})
  = Some (Ok ([PyStr "c"], [PyStr "b.txt"]),
          logged (Files_get_metadata "/")
            (Fixture.world
               {| raises := fun _ => None;
                  metadata_of := fun _ =>
                    PyDict [("contents",
                             PyList [PyDict [("path", PyStr "/b.txt"); ("is_dir", PyBool false)];
                                     PyDict [("path", PyStr "/c"); ("is_dir", PyBool true)]])];
                  download_of := fun _ => Pair PyNone []; session_of := fun _ => "";
                  link_of := fun _ => "" |})).
Proof. reflexivity. Qed.

(** C4 fails on the client that the module builds: the metadata call of the
    SDK answers a [Metadata] object, which cannot be subscripted, so reading
    its ['contents'] raises [TypeError] after the one call, for every folder
    and whatever its children; no listing is returned. *)
Theorem listdir_raises_on_metadata_object self path w full_path m :
  DropBoxStorage._full_path self path w = Some (Ok full_path, w) ->
  raises (remote w) (Files_get_metadata full_path) = None ->
  metadata_of (remote w) full_path = SDK.object_of m ->
  exists msg,
    DropBoxStorage.listdir self path w
    = Some (Raise (TypeError msg), logged (Files_get_metadata full_path) w).
Proof.
  intros Hp Hr Hm. unfold DropBoxStorage.listdir.
  rewrite (bind_ok _ _ _ _ _ Hp). unfold Client.files_get_metadata.
  rewrite (bind_ok _ _ _ _ _ (call_ok _ _ _ Hr)), Hm.
  destruct m; eexists; reflexivity.
Qed.

(** The folder [/a] on the client of the SDK. *)
Lemma listdir_raises_on_metadata_object_witness :
  exists msg,
    DropBoxStorage.listdir (Fixture.storage "/" 4) "/a" (Fixture.world Fixture.remote_sdk)
    = Some (Raise (TypeError msg),
            logged (Files_get_metadata "/a") (Fixture.world Fixture.remote_sdk)).
Proof.
  exact (listdir_raises_on_metadata_object (Fixture.storage "/" 4) "/a"
           (Fixture.world Fixture.remote_sdk) "/a" (SDK.FolderMetadata "a" "/a" "/a")
           eq_refl eq_refl eq_refl).
Defined.

(** ** [modified_time] and [accessed_time] *)

Example timestamp_literal :
  timestamp_of "Mon, 01 Jan 2024 12:00:00 +0000" = Some noon_2024_01_01.
Proof. reflexivity. Qed.

Example timestamp_leap_day :
  timestamp_of "Thu, 29 Feb 2024 23:59:59 +0000"
  = Some {| year := 2024; month := 2; day := 29; hour := 23; minute := 59; second := 59 |}.
Proof. reflexivity. Qed.

Example timestamp_iso_rejected : timestamp_of "2024-01-01T12:00:00Z" = None.
Proof. reflexivity. Qed.

Example timestamp_offset_rejected : timestamp_of "Mon, 01 Jan 2024 12:00:00 +0100" = None.
Proof. reflexivity. Qed.

Example timestamp_no_such_day_rejected : timestamp_of "Fri, 30 Feb 2024 12:00:00 +0000" = None.
Proof. reflexivity. Qed.

Example timestamp_empty_rejected : timestamp_of "" = None.
Proof. reflexivity. Qed.

(** [strptime] with [DATE_FORMAT] returns what it reads or raises
    [ValueError]; it has no other result. *)
Lemma strptime_timestamp s w :
  match timestamp_of s with
  | Some t => datetime_strptime (PyStr s) DATE_FORMAT w = Some (Ok t, w)
  | None => exists msg, datetime_strptime (PyStr s) DATE_FORMAT w = Some (Raise (ValueError msg), w)
  end.
Proof.
  unfold timestamp_of, datetime_strptime.
  destruct (strptime.tokens DATE_FORMAT) as [ts|]; [|eexists; reflexivity].
  destruct (strptime.parse _ s strptime.default) as [t|]; [|eexists; reflexivity].
  destruct (strptime.valid t); [reflexivity|eexists; reflexivity].
Qed.

(** Both methods hand the timestamp of their metadata field to [strptime]
    and return what it returns. *)
Lemma modified_time_strptime self name w p d v :
  DropBoxStorage._full_path self name w = Some (Ok p, w) ->
  raises (remote w) (Files_get_metadata p) = None ->
  metadata_of (remote w) p = PyDict d ->
  assoc "modified" d = Some v ->
  DropBoxStorage.modified_time self name w
  = bind (datetime_strptime v DATE_FORMAT) ret (logged (Files_get_metadata p) w).
Proof.
  intros Hp Hr Hm Hv. unfold DropBoxStorage.modified_time.
  rewrite (bind_ok _ _ _ _ _ Hp). unfold Client.files_get_metadata.
  rewrite (bind_ok _ _ _ _ _ (call_ok _ _ _ Hr)), Hm.
  unfold py_getitem. now rewrite Hv, bind_ret.
Qed.

Lemma accessed_time_strptime self name w p d v :
  DropBoxStorage._full_path self name w = Some (Ok p, w) ->
  raises (remote w) (Files_get_metadata p) = None ->
  metadata_of (remote w) p = PyDict d ->
  assoc "client_mtime" d = Some v ->
  DropBoxStorage.accessed_time self name w
  = bind (datetime_strptime v DATE_FORMAT) ret (logged (Files_get_metadata p) w).
Proof.
  intros Hp Hr Hm Hv. unfold DropBoxStorage.accessed_time.
  rewrite (bind_ok _ _ _ _ _ Hp). unfold Client.files_get_metadata.
  rewrite (bind_ok _ _ _ _ _ (call_ok _ _ _ Hr)), Hm.
  unfold py_getitem. now rewrite Hv, bind_ret.
Qed.

Lemma strptime_returned s w :
  match timestamp_of s with
  | Some t => bind (datetime_strptime (PyStr s) DATE_FORMAT) ret w = Some (Ok t, w)
  | None => exists msg,
      bind (datetime_strptime (PyStr s) DATE_FORMAT) ret w = Some (Raise (ValueError msg), w)
  end.
Proof.
  pose proof (strptime_timestamp s w) as H.
  destruct (timestamp_of s) as [t|].
  - now rewrite (bind_ok _ _ _ _ _ H).
  - destruct H as [msg H]. exists msg. now rewrite (bind_raise _ _ _ _ _ H).
Qed.

(** *** The parser and the description of the format *)

Lemma in_all_ascii c : In c all_ascii.
Proof.
  unfold all_ascii. rewrite <- (ascii_nat_embedding c).
  apply List.in_map, List.in_seq. pose proof (nat_ascii_bounded c). lia.
Qed.

Lemma ascii_forall (P : ascii -> bool) : forallb P all_ascii = true -> forall c, P c = true.
Proof. intros H c. rewrite List.forallb_forall in H. apply H, in_all_ascii. Qed.

(** The white space of the parser is the white space of the description. *)
Lemma space_white c :
  strptime.is_space c = true <-> In (nat_of_ascii c) Timestamp.white_space.
Proof.
  assert (H : forall c, Bool.eqb (strptime.is_space c)
                          (existsb (Nat.eqb (nat_of_ascii c)) Timestamp.white_space) = true)
    by (apply ascii_forall; vm_compute; reflexivity).
  specialize (H c). apply Bool.eqb_prop in H. rewrite H, List.existsb_exists. split.
  - intros (n & Hin & E). apply Nat.eqb_eq in E. now subst.
  - intros Hin. exists (nat_of_ascii c). split; [assumption|apply Nat.eqb_refl].
Qed.

(** The digits of the parser are the digits of the description. *)
Lemma digit_decimal c v : strptime.digit c = Some v <-> Timestamp.digit c v.
Proof.
  unfold Timestamp.digit. split.
  - assert (H : forall c, match strptime.digit c with
                          | Some v => existsb (fun p => Ascii.eqb (fst p) c && (snd p =? v))
                                        Timestamp.decimal
                          | None => true
                          end = true)
      by (apply ascii_forall; vm_compute; reflexivity).
    intros E. specialize (H c). rewrite E in H.
    apply List.existsb_exists in H as ([c' v'] & Hin & Hp).
    apply andb_prop in Hp as [Hc Hv]. apply Ascii.eqb_eq in Hc. apply Z.eqb_eq in Hv.
    cbn in Hc, Hv. now subst.
  - cbn [In Timestamp.decimal]. intros H.
    repeat (destruct H as [H | H]; [injection H as <- <-; reflexivity|]). contradiction.
Qed.

Lemma digit_bounds c v : strptime.digit c = Some v -> 0 <= v <= 9.
Proof.
  intros H. apply digit_decimal in H. cbn [Timestamp.digit In Timestamp.decimal] in H.
  unfold Timestamp.digit in H. cbn [In Timestamp.decimal] in H.
  repeat (destruct H as [H | H]; [injection H as <- <-; lia|]). contradiction.
Qed.

Lemma digit_not_white c v : strptime.digit c = Some v -> strptime.is_space c = false.
Proof.
  assert (H : forall c, match strptime.digit c with
                        | Some _ => negb (strptime.is_space c)
                        | None => true
                        end = true)
    by (apply ascii_forall; vm_compute; reflexivity).
  intros E. specialize (H c). rewrite E in H. now apply negb_true_iff in H.
Qed.

Lemma white_not_digit c : strptime.is_space c = true -> strptime.digit c = None.
Proof.
  intros H. destruct (strptime.digit c) as [v|] eqn:E; [|reflexivity].
  apply digit_not_white in E. congruence.
Qed.

(** The letters of a name match in either case, and nothing else matches
    them. *)
Lemma same_letterb_spec x y : same_letterb x y = true <-> Timestamp.same_letter x y.
Proof.
  unfold same_letterb, Timestamp.same_letter.
  rewrite !orb_true_iff, Ascii.eqb_eq, !List.existsb_exists. split.
  - intros [[H | ([a b] & Hin & H)] | ([a b] & Hin & H)]; [now left| |];
      apply andb_prop in H as [H1 H2]; apply Ascii.eqb_eq in H1, H2; cbn in H1, H2; subst; auto.
  - intros [H | [H | H]]; [now left; left| |].
    + left; right. exists (x, y). split; [assumption|]. cbn. now rewrite !Ascii.eqb_refl.
    + right. exists (y, x). split; [assumption|]. cbn. now rewrite !Ascii.eqb_refl.
Qed.

Lemma same_letter_lower x y :
  is_letter y = true ->
  (Timestamp.same_letter x y <-> strptime.lower x = strptime.lower y).
Proof.
  intros Hy. rewrite <- same_letterb_spec, <- Ascii.eqb_eq.
  assert (H : forall y x, (if is_letter y
                           then Bool.eqb (same_letterb x y)
                                  (Ascii.eqb (strptime.lower x) (strptime.lower y))
                           else true) = true).
  { intros y0. apply ascii_forall. revert y0. apply ascii_forall. vm_compute. reflexivity. }
  specialize (H y x). rewrite Hy in H. apply Bool.eqb_prop in H. now rewrite H.
Qed.

(** ** Strings and white space *)

Lemma list_of_append a b :
  list_ascii_of_string (a +:+ b) = list_ascii_of_string a ++ list_ascii_of_string b.
Proof.
  induction a as [|c a IH]; [reflexivity|].
  rewrite append_cons. cbn [list_ascii_of_string]. now rewrite IH.
Qed.

Lemma blank_spaces b :
  Timestamp.blank b <-> exists c b', b = String c b' /\ strptime.is_space c = true /\ spaces b'.
Proof.
  unfold Timestamp.blank, spaces. split.
  - intros [Hn H]. destruct b as [|c b']; [contradiction|]. exists c, b'.
    cbn [list_ascii_of_string] in H. inversion H as [|? ? Hc Hb]; subst.
    split; [reflexivity|]. split; [now apply space_white|].
    eapply Forall_impl; [exact Hb|]. intros x Hx. now apply space_white.
  - intros (c & b' & -> & Hc & Hb). split; [discriminate|].
    cbn [list_ascii_of_string]. constructor; [now apply space_white|].
    eapply Forall_impl; [exact Hb|]. intros x Hx. now apply space_white.
Qed.

Lemma lstrip_spaces b s : spaces b -> strptime.lstrip (b +:+ s) = strptime.lstrip s.
Proof.
  unfold spaces. induction b as [|c b IH]; [reflexivity|].
  cbn [list_ascii_of_string]. intros H. inversion H as [|? ? Hc Hb]; subst.
  rewrite append_cons. cbn [strptime.lstrip]. rewrite Hc. now apply IH.
Qed.

Lemma lstrip_head s : head_not_space s -> strptime.lstrip s = s.
Proof. destruct s as [|c s]; [reflexivity|]. cbn. now intros ->. Qed.


(** ** The steps of the parser *)

Lemma read_lit c ts s t :
  strptime.parse (strptime.TLit c :: ts) (String c s) t = strptime.parse ts s t.
Proof. cbn [strptime.parse]. now rewrite Ascii.eqb_refl. Qed.

Lemma read_blank b s ts t :
  Timestamp.blank b -> head_not_space s ->
  strptime.parse (strptime.TSpace :: ts) (b +:+ s) t = strptime.parse ts s t.
Proof.
  intros Hb Hs. apply blank_spaces in Hb as (c & b' & -> & Hc & Hb).
  rewrite append_cons. cbn [strptime.parse]. rewrite Hc.
  now rewrite (lstrip_spaces _ _ Hb), (lstrip_head _ Hs).
Qed.


Lemma read_dir c ts s t s' t' :
  strptime.directive c s t = Some (t', s') ->
  strptime.parse (strptime.TDir c :: ts) s t = strptime.parse ts s' t'.
Proof. intros H. cbn [strptime.parse]. now rewrite H. Qed.



(** ** Numbers *)

Lemma number_one_digit ok ok1 c a rest :
  strptime.digit c = Some a -> head_not_digit rest -> ok1 a = true ->
  strptime.number ok ok1 (String c rest) = Some (a, rest).
Proof.
  intros Hc Hr Hok. unfold strptime.number. rewrite Hc.
  destruct rest as [|c2 rest]; [now rewrite Hok|].
  cbn in Hr. now rewrite Hr, Hok.
Qed.

Lemma number_two_digits ok ok1 c1 a c2 b rest :
  strptime.digit c1 = Some a -> strptime.digit c2 = Some b -> ok a b = true ->
  strptime.number ok ok1 (String c1 (String c2 rest)) = Some (10 * a + b, rest).
Proof. intros H1 H2 Hok. unfold strptime.number. now rewrite H1, H2, Hok. Qed.



Lemma number_of_short ok ok1 dd v rest :
  Timestamp.short dd v -> head_not_digit rest ->
  (forall a b, 0 <= a <= 9 -> 0 <= b <= 9 -> v = 10 * a + b -> ok a b = true) ->
  (forall a, 0 <= a <= 9 -> v = a -> ok1 a = true) ->
  strptime.number ok ok1 (dd +:+ rest) = Some (v, rest).
Proof.
  intros Hs Hr Hok Hok1. destruct Hs as [c v Hc | c1 v1 c2 v2 H1 H2].
  - apply digit_decimal in Hc. pose proof (digit_bounds _ _ Hc).
    apply number_one_digit; auto.
  - apply digit_decimal in H1, H2.
    pose proof (digit_bounds _ _ H1). pose proof (digit_bounds _ _ H2).
    apply number_two_digits; auto.
Qed.

(** The year *)
Lemma year_of_long yyyy v rest :
  Timestamp.long yyyy v -> strptime.year_of (yyyy +:+ rest) = Some (v, rest).
Proof.
  intros H. destruct H as [c1 v1 c2 v2 c3 v3 c4 v4 H1 H2 H3 H4].
  apply digit_decimal in H1, H2, H3, H4.
  cbn [strptime.year_of String.append]. rewrite !append_cons, append_nil_l.
  cbn [strptime.year_of]. now rewrite H1, H2, H3, H4.
Qed.


(** ** Names *)

Lemma substring_all s : String.substring 0 (String.length s) s = s.
Proof. induction s; cbn; congruence. Qed.

Lemma substring_none s : String.substring 0 0 s = "".
Proof. destruct s; reflexivity. Qed.



Lemma substring_append a rest :
  String.substring 0 (String.length a) (a +:+ rest) = a
  /\ String.substring (String.length a) (String.length (a +:+ rest) - String.length a)
       (a +:+ rest) = rest.
Proof.
  induction a as [|c a [IH1 IH2]].
  - rewrite append_nil_l. cbn [String.length].
    rewrite substring_none, Nat.sub_0_r, substring_all. auto.
  - rewrite append_cons. cbn [String.length String.substring Nat.sub]. now rewrite IH1, IH2.
Qed.

Lemma prefix_same n : String.prefix n n = true.
Proof.
  induction n as [|c n IH]; [reflexivity|]. cbn.
  destruct (ascii_dec c c); [exact IH|contradiction].
Qed.

Lemma prefix_whole n x :
  String.prefix n x = true -> (String.length x <= String.length n)%nat -> x = n.
Proof.
  revert x. induction n as [|c n IH]; intros [|c' x]; cbn; try discriminate; try lia; auto.
  destruct (ascii_dec c c') as [->|]; [|discriminate].
  intros H Hl. f_equal. apply IH; [exact H|lia].
Qed.

Lemma lower_string_length s : String.length (strptime.lower_string s) = String.length s.
Proof. induction s; cbn; congruence. Qed.


Lemma name_index_of names i k n wd rest l :
  NoDup names -> Forall (fun n' => String.length n' = l) names ->
  nth_error names k = Some n ->
  strptime.lower_string wd = n ->
  strptime.name_index names i (wd +:+ rest) = Some (i + Z.of_nat k, rest).
Proof.
  intros Hd Hl. revert i k.
  induction names as [|n' names IH]; intros i k Hk Hw; [now destruct k|].
  apply NoDup_cons in Hd as [Hn' Hd]. apply Forall_cons in Hl as [Hl' Hls].
  assert (Hlen : String.length wd = String.length n).
  { now rewrite <- Hw, lower_string_length. }
  assert (Hn : String.length n = String.length n').
  { destruct k; [now injection Hk as ->|].
    cbn in Hk. apply nth_error_In in Hk.
    rewrite List.Forall_forall in Hls. rewrite Hl'. now apply Hls. }
  cbn [strptime.name_index]. rewrite <- Hn, <- Hlen.
  rewrite (proj1 (substring_append wd rest)), (proj2 (substring_append wd rest)), Hw.
  destruct k as [|k].
  - injection Hk as ->. rewrite prefix_same. do 2 f_equal. lia.
  - cbn in Hk. destruct (String.prefix n' n) eqn:Hp.
    + apply prefix_whole in Hp; [|lia]. subst n'.
      exfalso. apply Hn'. apply list_elem_of_In. eapply nth_error_In, Hk.
    + rewrite (IH Hd Hls (i + 1) k Hk Hw). do 2 f_equal. lia.
Qed.

Lemma spells_lower wd name :
  letters name ->
  (Timestamp.spells wd name <-> strptime.lower_string wd = strptime.lower_string name).
Proof.
  unfold letters, Timestamp.spells. revert wd.
  induction name as [|y name IH]; intros wd Hl.
  - destruct wd; cbn; split; intros H; try constructor; try discriminate; inversion H.
  - cbn [list_ascii_of_string] in Hl. inversion Hl as [|? ? Hy Hl']; subst.
    destruct wd as [|x wd]; cbn [list_ascii_of_string strptime.lower_string].
    + split; intros H; [inversion H|discriminate].
    + split.
      * intros H. inversion H as [|? ? ? ? Hxy Hrest]; subst.
        apply (same_letter_lower x y Hy) in Hxy. rewrite Hxy. f_equal. now apply IH.
      * intros [= Hxy Hrest]. constructor; [now apply (same_letter_lower x y Hy)|].
        now apply IH.
Qed.

Lemma weekdays_lower : strptime.weekdays = map strptime.lower_string weekday_names.
Proof. reflexivity. Qed.

Lemma months_lower : strptime.months = map strptime.lower_string month_names.
Proof. reflexivity. Qed.

Lemma weekday_letters : Forall letters weekday_names.
Proof. repeat constructor. Qed.

Lemma month_letters : Forall letters month_names.
Proof. repeat constructor. Qed.

Lemma weekdays_separate :
  NoDup strptime.weekdays /\ Forall (fun n => String.length n = 3%nat) strptime.weekdays.
Proof.
  split; [|repeat constructor].
  repeat (apply NoDup_cons_2; [rewrite list_elem_of_In; cbn; intuition discriminate|]).
  apply NoDup_nil_2.
Qed.

Lemma months_separate :
  NoDup strptime.months /\ Forall (fun n => String.length n = 3%nat) strptime.months.
Proof.
  split; [|repeat constructor].
  repeat (apply NoDup_cons_2; [rewrite list_elem_of_In; cbn; intuition discriminate|]).
  apply NoDup_nil_2.
Qed.


Lemma index_of_names tbl wd v rest l :
  Forall letters tbl ->
  NoDup (map strptime.lower_string tbl) ->
  Forall (fun n => String.length n = l) (map strptime.lower_string tbl) ->
  Timestamp.names tbl wd v ->
  strptime.name_index (map strptime.lower_string tbl) 1 (wd +:+ rest) = Some (v, rest).
Proof.
  intros Hl Hd Hlen (name & Hv & Hk & Hs).
  rewrite (name_index_of _ 1 (Z.to_nat (v - 1)) (strptime.lower_string name) wd rest l Hd Hlen).
  - do 2 f_equal. lia.
  - rewrite nth_error_map, Hk. reflexivity.
  - apply spells_lower; [|exact Hs].
    rewrite List.Forall_forall in Hl. apply Hl. eapply nth_error_In, Hk.
Qed.

(** ** The calendar *)

Lemma leap_same y : strptime.is_leap y = Timestamp.leap_year y.
Proof.
  unfold strptime.is_leap, Timestamp.leap_year.
  destruct (Z.eqb_spec (y mod 4) 0), (Z.eqb_spec (y mod 100) 0), (Z.eqb_spec (y mod 400) 0);
    try reflexivity; exfalso;
    pose proof (Z.div_mod y 4 ltac:(lia)); pose proof (Z.div_mod y 100 ltac:(lia));
    pose proof (Z.div_mod y 400 ltac:(lia)); pose proof (Z.mod_pos_bound y 4 ltac:(lia));
    pose proof (Z.mod_pos_bound y 100 ltac:(lia)); lia.
Qed.

Lemma days_same y m :
  1 <= m <= 12 -> strptime.days_in_month y m = Timestamp.days_in y m.
Proof.
  intros H. unfold strptime.days_in_month, Timestamp.days_in, Timestamp.month_lengths.
  rewrite leap_same.
  assert (E : m = 1 \/ m = 2 \/ m = 3 \/ m = 4 \/ m = 5 \/ m = 6 \/ m = 7 \/ m = 8
              \/ m = 9 \/ m = 10 \/ m = 11 \/ m = 12) by lia.
  repeat (destruct E as [-> | E]); try subst m; reflexivity.
Qed.

Lemma days_at_most y m : Timestamp.days_in y m <= 31.
Proof.
  unfold Timestamp.days_in, Timestamp.month_lengths.
  generalize (Z.to_nat (m - 1)). intros k.
  do 12 (destruct k as [|k]; [cbn; try destruct (Timestamp.leap_year y); lia|]).
  cbn. destruct k; cbn; lia.
Qed.

(** The checks of the [datetime] constructor, on what the parser can
    return. *)
Lemma valid_calendar t :
  1 <= month t <= 12 -> year t <= 9999 ->
  (strptime.valid t = true
   <-> 1 <= year t /\ 1 <= day t <= Timestamp.days_in (year t) (month t)
       /\ hour t <= 23 /\ minute t <= 59 /\ second t <= 59).
Proof.
  intros Hm Hy. unfold strptime.valid. rewrite (days_same _ _ Hm).
  rewrite !andb_true_iff, !Z.leb_le. lia.
Qed.

(** ** The directives of the format *)

Lemma timestamp_of_parse s :
  timestamp_of s
  = match strptime.parse date_tokens s strptime.default with
    | Some t => if strptime.valid t then Some t else None
    | None => None
    end.
Proof. reflexivity. Qed.

Lemma directive_weekday s t :
  strptime.directive "a" s t
  = match strptime.name_index strptime.weekdays 1 s with
    | Some (_, s') => Some (t, s')
    | None => None
    end.
Proof.
  unfold strptime.directive. cbn [Ascii.eqb Bool.eqb].
  now destruct (strptime.name_index strptime.weekdays 1 s) as [[]|].
Qed.

Lemma directive_month s t :
  strptime.directive "b" s t
  = match strptime.name_index strptime.months 1 s with
    | Some (v, s') => Some (strptime.set_month v t, s')
    | None => None
    end.
Proof.
  unfold strptime.directive. cbn [Ascii.eqb Bool.eqb].
  now destruct (strptime.name_index strptime.months 1 s) as [[]|].
Qed.

Lemma directive_day s t :
  strptime.directive "d" s t
  = match strptime.day_of s with
    | Some (v, s') => Some (strptime.set_day v t, s')
    | None => None
    end.
Proof.
  unfold strptime.directive. cbn [Ascii.eqb Bool.eqb].
  now destruct (strptime.day_of s) as [[]|].
Qed.

Lemma directive_year s t :
  strptime.directive "Y" s t
  = match strptime.year_of s with
    | Some (v, s') => Some (strptime.set_year v t, s')
    | None => None
    end.
Proof.
  unfold strptime.directive. cbn [Ascii.eqb Bool.eqb].
  now destruct (strptime.year_of s) as [[]|].
Qed.

Lemma directive_hour s t :
  strptime.directive "H" s t
  = match strptime.hour_of s with
    | Some (v, s') => Some (strptime.set_hour v t, s')
    | None => None
    end.
Proof.
  unfold strptime.directive. cbn [Ascii.eqb Bool.eqb].
  now destruct (strptime.hour_of s) as [[]|].
Qed.

Lemma directive_minute s t :
  strptime.directive "M" s t
  = match strptime.minute_of s with
    | Some (v, s') => Some (strptime.set_minute v t, s')
    | None => None
    end.
Proof.
  unfold strptime.directive. cbn [Ascii.eqb Bool.eqb].
  now destruct (strptime.minute_of s) as [[]|].
Qed.

Lemma directive_second s t :
  strptime.directive "S" s t
  = match strptime.second_of s with
    | Some (v, s') => Some (strptime.set_second v t, s')
    | None => None
    end.
Proof.
  unfold strptime.directive. cbn [Ascii.eqb Bool.eqb].
  now destruct (strptime.second_of s) as [[]|].
Qed.


Lemma short_day_of dd v rest :
  Timestamp.short dd v -> head_not_digit rest -> 1 <= v <= 31 ->
  strptime.day_of (dd +:+ rest) = Some (v, rest).
Proof.
  intros Hs Hr Hv. unfold strptime.day_of.
  rewrite (number_of_short _ _ dd v rest Hs Hr); [reflexivity| |].
  - intros a b Ha Hb ->.
    destruct (Z.eqb_spec a 3), (Z.leb_spec b 1), (Z.leb_spec 1 a), (Z.leb_spec a 2),
      (Z.eqb_spec a 0), (Z.leb_spec 1 b); cbn; try reflexivity; lia.
  - intros a Ha ->. now apply Z.leb_le.
Qed.

Lemma short_hour_of hh v rest :
  Timestamp.short hh v -> head_not_digit rest -> v <= 23 ->
  strptime.hour_of (hh +:+ rest) = Some (v, rest).
Proof.
  intros Hs Hr Hv. unfold strptime.hour_of.
  apply (number_of_short _ _ hh v rest Hs Hr); [|reflexivity].
  intros a b Ha Hb ->.
  destruct (Z.eqb_spec a 2), (Z.leb_spec b 3), (Z.leb_spec a 1); cbn; try reflexivity; lia.
Qed.

Lemma short_minute_of mm v rest :
  Timestamp.short mm v -> head_not_digit rest -> v <= 59 ->
  strptime.minute_of (mm +:+ rest) = Some (v, rest).
Proof.
  intros Hs Hr Hv. unfold strptime.minute_of.
  apply (number_of_short _ _ mm v rest Hs Hr); [|reflexivity].
  intros a b Ha Hb ->. apply Z.leb_le. lia.
Qed.

Lemma short_second_of ss v rest :
  Timestamp.short ss v -> head_not_digit rest -> v <= 59 ->
  strptime.second_of (ss +:+ rest) = Some (v, rest).
Proof.
  intros Hs Hr Hv. unfold strptime.second_of.
  apply (number_of_short _ _ ss v rest Hs Hr); [|reflexivity].
  intros a b Ha Hb ->.
  destruct (Z.eqb_spec a 6), (Z.leb_spec b 1), (Z.leb_spec a 5); cbn; try reflexivity; lia.
Qed.

Lemma names_bound tbl wd v :
  Timestamp.names tbl wd v -> 1 <= v <= Z.of_nat (length tbl).
Proof.
  intros (name & Hv & Hk & _). split; [exact Hv|].
  assert (Z.to_nat (v - 1) < length tbl)%nat by (apply nth_error_Some; congruence). lia.
Qed.

(** What starts a part of a timestamp is not white space, and what follows
    a number is not a digit. *)
Lemma short_head dd v rest : Timestamp.short dd v -> head_not_space (dd +:+ rest).
Proof.
  intros [c ? H | c ? ? ? H _]; rewrite append_cons; cbn [head_not_space];
    apply digit_decimal in H; exact (digit_not_white _ _ H).
Qed.

Lemma long_head yyyy v rest : Timestamp.long yyyy v -> head_not_space (yyyy +:+ rest).
Proof.
  intros [c ? ? ? ? ? ? ? H _ _ _]. rewrite append_cons. cbn [head_not_space].
  apply digit_decimal in H. exact (digit_not_white _ _ H).
Qed.

Lemma letter_not_white x y :
  is_letter y = true -> Timestamp.same_letter x y -> strptime.is_space x = false.
Proof.
  intros Hy H. apply same_letterb_spec in H.
  assert (A : forall y x, (if is_letter y && same_letterb x y
                           then negb (strptime.is_space x) else true) = true).
  { intros y0. apply ascii_forall. revert y0. apply ascii_forall. vm_compute. reflexivity. }
  specialize (A y x). rewrite Hy, H in A. now apply negb_true_iff in A.
Qed.

Lemma names_head tbl wd v rest :
  Forall (fun name => letters name /\ name <> "") tbl ->
  Timestamp.names tbl wd v -> head_not_space (wd +:+ rest).
Proof.
  intros Hl (name & _ & Hk & Hs).
  assert (Hn : letters name /\ name <> "").
  { rewrite List.Forall_forall in Hl. apply Hl. eapply nth_error_In, Hk. }
  destruct Hn as [Hn Hne]. unfold Timestamp.spells in Hs. unfold letters in Hn.
  destruct name as [|y name]; [contradiction|].
  cbn [list_ascii_of_string] in Hs, Hn.
  destruct wd as [|x wd]; [inversion Hs|].
  cbn [list_ascii_of_string] in Hs.
  apply Forall2_cons in Hs as [Hxy _]. apply Forall_cons in Hn as [Hy _].
  rewrite append_cons. cbn [head_not_space]. eapply letter_not_white; eassumption.
Qed.

Lemma weekday_names_plain : Forall (fun name => letters name /\ name <> "") weekday_names.
Proof. repeat constructor; discriminate. Qed.

Lemma month_names_plain : Forall (fun name => letters name /\ name <> "") month_names.
Proof. repeat constructor; discriminate. Qed.

Lemma blank_head b rest : Timestamp.blank b -> head_not_digit (b +:+ rest).
Proof.
  intros H. apply blank_spaces in H as (c & b' & -> & Hc & _).
  rewrite append_cons. cbn [head_not_digit]. now apply white_not_digit.
Qed.

(** ** The parser reads the timestamps of the description, and no other *)



Lemma long_bound yyyy v : Timestamp.long yyyy v -> 0 <= v <= 9999.
Proof.
  intros [c1 v1 c2 v2 c3 v3 c4 v4 H1 H2 H3 H4].
  apply digit_decimal, digit_bounds in H1, H2, H3, H4. lia.
Qed.

Lemma colon_head rest : head_not_digit (String ":" rest).
Proof. reflexivity. Qed.

Theorem timestamp_that_reads_is_parsed s t : Timestamp.reads s t -> timestamp_of s = Some t.
Proof.
  intros (weekday & b1 & dd & b2 & mon & b3 & yyyy & b4 & hh & mm & ss & b5 & -> & [i Hwd]
          & Hb1 & Hdd & Hb2 & Hmon & Hb3 & Hyyyy & Hb4 & Hhh & Hmm & Hss & Hb5
          & Hy & Hd & Hh & Hm & Hs).
  pose proof (names_bound _ _ _ Hmon) as Hmb. cbn [length month_names Z.of_nat] in Hmb.
  pose proof (days_at_most (year t) (month t)) as Hd31.
  pose proof (long_bound _ _ Hyyyy) as Hy9.
  rewrite timestamp_of_parse. unfold date_tokens.
  destruct weekdays_separate as [Hwn Hwl]. destruct months_separate as [Hmn Hml].
  rewrite weekdays_lower in Hwn, Hwl. rewrite months_lower in Hmn, Hml.
  erewrite read_dir; cycle 1.
  { rewrite directive_weekday, weekdays_lower.
    now rewrite (index_of_names _ _ _ _ _ weekday_letters Hwn Hwl Hwd). }
  change ("," +:+ ?x) with (String "," x). rewrite read_lit.
  rewrite (read_blank _ _ _ _ Hb1 (short_head _ _ _ Hdd)).
  erewrite read_dir; cycle 1.
  { rewrite directive_day.
    now rewrite (short_day_of _ _ _ Hdd (blank_head _ _ Hb2) ltac:(lia)). }
  rewrite (read_blank _ _ _ _ Hb2 (names_head _ _ _ _ month_names_plain Hmon)).
  erewrite read_dir; cycle 1.
  { rewrite directive_month, months_lower.
    now rewrite (index_of_names _ _ _ _ _ month_letters Hmn Hml Hmon). }
  rewrite (read_blank _ _ _ _ Hb3 (long_head _ _ _ Hyyyy)).
  erewrite read_dir; cycle 1.
  { rewrite directive_year. now rewrite (year_of_long _ _ _ Hyyyy). }
  rewrite (read_blank _ _ _ _ Hb4 (short_head _ _ _ Hhh)).
  change (":" +:+ mm +:+ ":" +:+ ss +:+ b5 +:+ "+0000")
    with (String ":" (mm +:+ String ":" (ss +:+ b5 +:+ "+0000"))).
  erewrite read_dir; cycle 1.
  { rewrite directive_hour. now rewrite (short_hour_of _ _ _ Hhh (colon_head _) Hh). }
  rewrite read_lit.
  erewrite read_dir; cycle 1.
  { rewrite directive_minute. now rewrite (short_minute_of _ _ _ Hmm (colon_head _) Hm). }
  rewrite read_lit.
  erewrite read_dir; cycle 1.
  { rewrite directive_second.
    now rewrite (short_second_of _ _ _ Hss (blank_head _ _ Hb5) Hs). }
  rewrite (read_blank _ _ _ _ Hb5); [|reflexivity].
  rewrite !read_lit. cbn [strptime.parse String.eqb].
  replace (strptime.set_second _ _) with t by (destruct t; reflexivity).
  assert (V : strptime.valid t = true) by (apply valid_calendar; [lia|lia|tauto]).
  now rewrite V.
Qed.


(** A timestamp in another form denotes no point in time. *)
Example iso_timestamp_is_malformed : Timestamp.malformed "2024-01-01T12:00:00Z".
Proof. intros t H. apply timestamp_that_reads_is_parsed in H. discriminate. Qed.


(** A malformed timestamp in the metadata makes the method raise. *)
Example modified_time_malformed :
  outcome (DropBoxStorage.modified_time (Fixture.storage "/" 4) "/x"
             (Fixture.world
                {| raises := fun _ => None;
                   metadata_of := fun _ => PyDict [("modified", PyStr "2024-01-01T12:00:00Z")];
                   download_of := fun _ => Pair PyNone []; session_of := fun _ => "";
                   link_of := fun _ => "" |}))
  = Some (Raise (ValueError "time data does not match format")).
Proof. reflexivity. Qed.

(** ** File objects *)

Lemma with_stream_open {A} f (k : Stream -> World -> option (Res A * World)) w s :
  heap w !! f = Some s -> closed s = false -> IO.with_stream f k w = k s w.
Proof. intros H Hc. unfold IO.with_stream. now rewrite H, Hc. Qed.

(** ** The buffer of [DropBoxFile] *)

Lemma fresh_None (h : gmap nat Stream) : h !! fresh (dom h) = None.
Proof. apply not_elem_of_dom, is_fresh. Qed.

Lemma download_call path w :
  Client.files_download path w
  = match raises (remote w) (Files_download path) with
    | Some e => Some (Raise e, logged (Files_download path) w)
    | None => Some (Ok (download_of (remote w) path), logged (Files_download path) w)
    end.
Proof. reflexivity. Qed.

(** The first access, statement by statement: the download, the temporary
    file and its assignment, then the copy and the reset, which leave the
    assignment as it is when they raise. *)
Lemma file_first {Storage} (self : DropBoxFile.t Storage) w :
  DropBoxFile._file self = None ->
  DropBoxFile.file self w
  = match raises (remote w) (Files_download (DropBoxFile.name self)) with
    | Some e => Some (Raise e, self, logged (Files_download (DropBoxFile.name self)) w)
    | None =>
        let f := fresh (dom (heap w)) in
        match (IO.copyfileobj (download_of (remote w) (DropBoxFile.name self)) f ;;;
               IO.rewind f)
                (with_buffer f (logged (Files_download (DropBoxFile.name self)) w)) with
        | None => None
        | Some (Raise e, w') => Some (Raise e, cached self f, w')
        | Some (Ok _, w') => Some (Ok f, cached self f, w')
        end
    end.
Proof.
  intros Hn. unfold DropBoxFile.file, mbind, getattr, setattr, lift. rewrite Hn.
  rewrite download_call.
  destruct (raises (remote w) (Files_download (DropBoxFile.name self))) as [e|]; [reflexivity|].
  unfold IO.SpooledTemporaryFile, with_buffer, bind, cached. cbn [heap logged set_calls].
  cbv zeta.
  destruct (IO.copyfileobj _ _ _) as [[[[]|e] w2]|]; [|reflexivity|reflexivity].
  destruct (IO.rewind _ w2) as [[[[]|e] w3]|]; reflexivity.
Qed.

(** A later access, in whatever world: the buffer of the instance, the
    instance and the world as they were, so no call to the remote. *)
Lemma file_again {Storage} (self : DropBoxFile.t Storage) f w :
  DropBoxFile.file (cached self f) w = Some (Ok f, cached self f, w).
Proof. reflexivity. Qed.

Lemma accesses_again {Storage} (self : DropBoxFile.t Storage) f n w :
  accesses n (cached self f) w = Some (Ok (repeat f n), cached self f, w).
Proof.
  induction n as [|n IH]; [reflexivity|].
  cbn [accesses]. unfold mbind at 1. rewrite file_again.
  unfold mbind at 1. now rewrite IH.
Qed.

Lemma downloads_app l1 l2 : downloads (l1 ++ l2) = (downloads l1 + downloads l2)%nat.
Proof. unfold downloads. now rewrite List.filter_app, length_app. Qed.

(** What the property does with a readable answer, as the doubles of the
    tests give it: the rest of the answer is copied into a fresh temporary
    file, the answer is left at its end and the temporary file at its start,
    and the temporary file is the buffer of the instance. *)
Lemma file_copies_readable_answer {Storage} (self : DropBoxFile.t Storage) w src d q :
  DropBoxFile._file self = None ->
  raises (remote w) (Files_download (DropBoxFile.name self)) = None ->
  download_of (remote w) (DropBoxFile.name self) = Readable src ->
  heap w !! src = Some {| data := d; pos := q; closed := false |} ->
  exists f,
    f <> src /\ heap w !! f = None
    /\ DropBoxFile.file self w
       = Some (Ok f, cached self f,
               set_heap
                 (<[f := {| data := drop q d; pos := 0; closed := false |}]>
                    (<[src := {| data := d; pos := q + length (drop q d); closed := false |}]>
                       (heap w)))
                 (logged (Files_download (DropBoxFile.name self)) w)).
Proof.
  intros Hn Hr Hd Hs. rewrite (file_first self w Hn), Hr, Hd.
  set (f := fresh (dom (heap w))).
  assert (Hf : heap w !! f = None) by apply fresh_None.
  assert (Hne : f <> src) by (intros E; rewrite E in Hf; congruence).
  exists f. split; [exact Hne|]. split; [exact Hf|].
  cbv zeta. unfold IO.copyfileobj, IO.read, IO.write, IO.rewind.
  unfold bind at 1. unfold bind at 1.
  erewrite with_stream_open; cycle 1.
  { cbn [heap with_buffer set_heap logged set_calls].
    rewrite lookup_insert_ne by congruence. exact Hs. }
  { reflexivity. }
  cbn [heap with_buffer set_heap logged set_calls data pos closed].
  erewrite with_stream_open; cycle 1.
  { cbn [heap set_heap]. rewrite lookup_insert_ne by congruence. apply lookup_insert_eq. }
  { reflexivity. }
  cbn [heap set_heap data pos closed take drop app Nat.add].
  erewrite with_stream_open; cycle 1.
  { cbn [heap set_heap]. apply lookup_insert_eq. }
  { reflexivity. }
  cbn [heap set_heap data pos closed].
  rewrite drop_nil, app_nil_r, insert_insert_eq.
  rewrite (insert_insert_ne _ src f) by congruence.
  rewrite insert_insert_eq.
  reflexivity.
Qed.

(** The double of the tests: the file object at reference 0 holds three
    bytes and is the answer to every download. *)
Example file_on_double :
  exists f,
    DropBoxFile.file (DropBoxFile.__init__ "/a/b.txt" (Fixture.storage "/" 4))
      (set_heap {[ 0%nat := {| data := Fixture.abc; pos := 0; closed := false |} ]}
         (Fixture.world Fixture.remote_double))
    = Some (Ok f, cached (DropBoxFile.__init__ "/a/b.txt" (Fixture.storage "/" 4)) f,
            set_heap
              (<[f := {| data := Fixture.abc; pos := 0; closed := false |}]>
                 (<[0%nat := {| data := Fixture.abc; pos := 3; closed := false |}]>
                    {[ 0%nat := {| data := Fixture.abc; pos := 0; closed := false |} ]}))
              (logged (Files_download "/a/b.txt") (Fixture.world Fixture.remote_double))).
Proof.
  destruct (file_copies_readable_answer
              (DropBoxFile.__init__ "/a/b.txt" (Fixture.storage "/" 4))
              (set_heap {[ 0%nat := {| data := Fixture.abc; pos := 0; closed := false |} ]}
                 (Fixture.world Fixture.remote_double))
              0%nat Fixture.abc 0%nat eq_refl eq_refl eq_refl (lookup_singleton_eq _ _))
    as (f & _ & _ & H).
  exists f. exact H.
Qed.

(** C8 fails on the client that the module builds: the download of the SDK
    answers the pair of the metadata and the response, and a pair has no
    [read]. The first access makes the one download and raises
    [AttributeError] in the copy. The temporary file was assigned to the
    instance before the copy: it stays there, empty, whatever the content
    of the remote file, and every later access returns it and calls the
    remote no more. *)
Theorem file_raises_on_pair_and_keeps_empty_buffer {Storage} (self : DropBoxFile.t Storage)
    w m b :
  DropBoxFile._file self = None ->
  raises (remote w) (Files_download (DropBoxFile.name self)) = None ->
  download_of (remote w) (DropBoxFile.name self) = Pair m b ->
  exists f,
    heap w !! f = None
    /\ DropBoxFile.file self w
       = Some (Raise (AttributeError "read"), cached self f,
               with_buffer f (logged (Files_download (DropBoxFile.name self)) w))
    /\ (forall n w2, accesses n (cached self f) w2
                     = Some (Ok (repeat f n), cached self f, w2)).
Proof.
  intros Hn Hr Hd. exists (fresh (dom (heap w))).
  split; [apply fresh_None|]. split; [|intros n w2; apply accesses_again].
  now rewrite (file_first self w Hn), Hr, Hd.
Qed.

Lemma file_raises_on_pair_and_keeps_empty_buffer_witness :
  exists f,
    heap (Fixture.world Fixture.remote_sdk) !! f = None
    /\ DropBoxFile.file (DropBoxFile.__init__ "/a/b.txt" (Fixture.storage "/" 4))
         (Fixture.world Fixture.remote_sdk)
       = Some (Raise (AttributeError "read"),
               cached (DropBoxFile.__init__ "/a/b.txt" (Fixture.storage "/" 4)) f,
               with_buffer f
                 (logged (Files_download "/a/b.txt") (Fixture.world Fixture.remote_sdk)))
    /\ (forall n w2,
          accesses n (cached (DropBoxFile.__init__ "/a/b.txt" (Fixture.storage "/" 4)) f) w2
          = Some (Ok (repeat f n),
                  cached (DropBoxFile.__init__ "/a/b.txt" (Fixture.storage "/" 4)) f, w2)).
Proof.
  exact (file_raises_on_pair_and_keeps_empty_buffer
           (DropBoxFile.__init__ "/a/b.txt" (Fixture.storage "/" 4))
           (Fixture.world Fixture.remote_sdk) Fixture.file_b_object [Byte.x68; Byte.x69]
           eq_refl eq_refl eq_refl).
Defined.

(** ** The upload *)

Section Stream.

Variable content : File.t.
Variable d : bytes.

Lemma tell_at p w :
  stream_at content d p w -> File.tell content w = Some (Ok (Z.of_nat p), w).
Proof.
  intros H. unfold File.tell, IO.tell. now rewrite (with_stream_open _ _ _ _ H eq_refl).
Qed.

Lemma read_at p w n :
  stream_at content d p w -> 0 <= n ->
  File.read content (Some n) w
  = Some (Ok (take (Z.to_nat n) (drop p d)),
          put content d (p + length (take (Z.to_nat n) (drop p d))) false w).
Proof.
  intros H Hn. unfold File.read, IO.read.
  rewrite (with_stream_open _ _ _ _ H eq_refl). cbn [data pos].
  destruct (Z.ltb_spec n 0); [lia|reflexivity].
Qed.

Lemma read_all_at p w :
  stream_at content d p w ->
  File.read content None w
  = Some (Ok (drop p d), put content d (p + length (drop p d)) false w).
Proof.
  intros H. unfold File.read, IO.read.
  now rewrite (with_stream_open _ _ _ _ H eq_refl).
Qed.

Lemma stream_at_put p c w : c = false -> stream_at content d p (put content d p c w).
Proof. intros ->. unfold stream_at, put. cbn [heap set_heap]. apply lookup_insert_eq. Qed.

Lemma stream_at_logged p ev w : stream_at content d p w -> stream_at content d p (logged ev w).
Proof. exact id. Qed.

Lemma accepts_put p c w : accepts w -> accepts (put content d p c w).
Proof. exact id. Qed.

(** A read advances the position by what was asked for, up to what is left
    of the size, when the size is the number of bytes of the stream. *)
Lemma read_advances p w n :
  File.size content = Z.of_nat (length d) ->
  stream_at content d p w -> 0 <= n -> (p <= length d)%nat ->
  exists chunk w',
    File.read content (Some n) w = Some (Ok chunk, w')
    /\ File.tell content w' = Some (Ok (Z.of_nat p + Z.min n (File.size content - Z.of_nat p)), w')
    /\ Z.of_nat (length chunk) = Z.min n (File.size content - Z.of_nat p).
Proof.
  intros Hsize H Hn Hp. eexists _, _. split; [apply (read_at _ _ _ H Hn)|].
  assert (E : Z.of_nat (length (take (Z.to_nat n) (drop p d)))
              = Z.min n (File.size content - Z.of_nat p)).
  { rewrite length_take, length_drop, Hsize. lia. }
  split; [|exact E].
  rewrite (tell_at _ _ (stream_at_put _ _ _ eq_refl)). do 3 f_equal. lia.
Qed.

Lemma open_at p w :
  stream_at content d p w -> File.open content w = Some (Ok tt, put content d 0 false w).
Proof.
  intros H. unfold File.open. rewrite H. cbn [closed]. unfold IO.rewind.
  now rewrite (with_stream_open _ _ _ _ H eq_refl).
Qed.

Lemma close_at p w :
  stream_at content d p w -> File.close content w = Some (Ok tt, put content d p true w).
Proof. intros H. unfold File.close, IO.close. now rewrite H. Qed.

End Stream.

Section Upload.

Variable self : DropBoxStorage.t.
Variable content : File.t.
Variable d : bytes.

Hypothesis chunk_positive : 0 < DropBoxStorage.CHUNK_SIZE self.
Hypothesis size_is_length : File.size content = Z.of_nat (length d).

Let CH : nat := Z.to_nat (DropBoxStorage.CHUNK_SIZE self).

(** The loop from a position before the end: append calls of one chunk
    each, then one finish call with the rest, and the file object at its
    end, whatever the fuel above the number of bytes left. *)
Lemma upload_loop_runs commit n :
  forall p cursor w,
    stream_at content d p w -> accepts w ->
    (p < length d)%nat -> (length d - p <= n)%nat ->
    offset cursor = Z.of_nat p ->
    exists appends last,
      (forall fuel, (n < fuel)%nat ->
         DropBoxStorage.upload_loop fuel self content cursor commit w
         = Some (Ok tt,
                 set_calls
                   (calls w ++ appends ++
                      [Files_upload_session_finish last
                         {| session_id := session_id cursor;
                            offset := Z.of_nat (length d - length last) |} commit])
                   (put content d (length d) false w)))
      /\ Forall (fun ev => is_append ev = true /\ length (payload ev) = CH) appends
      /\ sent appends ++ last = drop p d
      /\ (0 < length last <= CH)%nat.
Proof.
  assert (Hc : 0 <= DropBoxStorage.CHUNK_SIZE self) by lia.
  induction n as [|n IH]; intros p cursor w Hs Ha Hp Hn Ho; [lia|].
  destruct (Z.leb_spec (File.size content - Z.of_nat p) (DropBoxStorage.CHUNK_SIZE self))
    as [Hle|Hgt].
  - (* the rest fits in one chunk: finish *)
    assert (Hrest : (length (drop p d) <= CH)%nat) by (rewrite length_drop; lia).
    assert (Hend : (p + length (drop p d))%nat = length d) by (rewrite length_drop; lia).
    exists [], (drop p d). split; [|split; [|split]].
    + intros fuel Hf. destruct fuel as [|[|fuel]]; [lia|lia|].
      cbn [DropBoxStorage.upload_loop].
      rewrite (bind_ok _ _ _ _ _ (tell_at _ _ _ _ Hs)).
      destruct (Z.ltb_spec (Z.of_nat p) (File.size content)) as [_|Hge]; [|lia].
      rewrite (bind_ok _ _ _ _ _ (tell_at _ _ _ _ Hs)).
      destruct (Z.leb_spec (File.size content - Z.of_nat p) (DropBoxStorage.CHUNK_SIZE self))
        as [_|Hgt]; [|lia].
      rewrite (bind_ok _ _ _ _ _ (read_at _ _ _ _ _ Hs Hc)). fold CH.
      rewrite (take_ge _ _ Hrest), Hend.
      unfold Client.files_upload_session_finish.
      rewrite (bind_ok _ _ _ _ _ (call_ok _ _ _ (accepts_put _ _ _ _ _ Ha _))).
      rewrite (bind_ok _ _ _ _ _
                 (tell_at _ _ _ _ (stream_at_logged content d _ _ _
                                 (stream_at_put content d (length d) false w eq_refl)))).
      destruct (Z.ltb_spec (Z.of_nat (length d)) (File.size content)) as [Hlt|_]; [lia|].
      unfold ret. do 3 f_equal. unfold logged. cbn [app]. do 3 f_equal.
      destruct cursor as [sid off]. cbn [offset session_id] in *. subst off.
      repeat f_equal. rewrite length_drop. lia.
    + constructor.
    + reflexivity.
    + rewrite length_drop in *. lia.
  - (* more than one chunk is left: append and go on *)
    assert (Hlen : length (take CH (drop p d)) = CH) by (rewrite length_take, length_drop; lia).
    pose proof (stream_at_logged content d (p + CH)
                  (Files_upload_session_append_v2 (take CH (drop p d)) cursor)
                  _ (stream_at_put content d (p + CH) false w eq_refl)) as Hs'.
    destruct (IH (p + CH)%nat {| session_id := session_id cursor; offset := Z.of_nat (p + CH) |}
                _ Hs' Ha) as (appends & last & Hrun & Hall & Hsent & Hlast);
      [lia | lia | reflexivity |].
    exists (Files_upload_session_append_v2 (take CH (drop p d)) cursor :: appends), last.
    split; [|split; [|split]].
    + intros fuel Hf. destruct fuel as [|fuel]; [lia|].
      cbn [DropBoxStorage.upload_loop].
      rewrite (bind_ok _ _ _ _ _ (tell_at _ _ _ _ Hs)).
      destruct (Z.ltb_spec (Z.of_nat p) (File.size content)) as [_|Hge]; [|lia].
      rewrite (bind_ok _ _ _ _ _ (tell_at _ _ _ _ Hs)).
      destruct (Z.leb_spec (File.size content - Z.of_nat p) (DropBoxStorage.CHUNK_SIZE self))
        as [Hle|_]; [lia|].
      rewrite (bind_ok _ _ _ _ _ (read_at _ _ _ _ _ Hs Hc)). fold CH. rewrite Hlen.
      unfold Client.files_upload_session_append_v2.
      rewrite (bind_ok _ _ _ _ _ (call_ok _ _ _ (accepts_put _ _ _ _ _ Ha _))).
      rewrite (bind_ok _ _ _ _ _ (tell_at _ _ _ _ Hs')).
      rewrite (Hrun fuel) by lia. cbn [session_id].
      unfold put, logged, set_calls, set_heap. cbn [heap cwd settings remote calls].
      now rewrite insert_insert_eq, <- app_assoc.
    + constructor; [split; [reflexivity|exact Hlen]|exact Hall].
    + unfold sent in *. cbn [map concat payload]. rewrite <- app_assoc, Hsent.
      rewrite <- (drop_drop d CH p) || rewrite <- (drop_drop d p CH).
      apply take_drop.
    + exact Hlast.
Qed.

(** [_chunked_upload] on content of more than one chunk, read from its
    start. *)
Lemma chunked_upload_runs dest w :
  stream_at content d 0 w -> accepts w ->
  DropBoxStorage.CHUNK_SIZE self < File.size content ->
  exists appends last,
    (forall fuel, (length d < fuel)%nat ->
       DropBoxStorage._chunked_upload fuel self content dest w
       = Some (Ok tt,
               set_calls
                 (calls w ++ Files_upload_session_start (take CH d) :: appends ++
                    [Files_upload_session_finish last
                       {| session_id := session_of (remote w) (take CH d);
                          offset := Z.of_nat (length d - length last) |}
                       {| path := dest |}])
                 (put content d (length d) false w)))
    /\ Forall (fun ev => is_append ev = true /\ length (payload ev) = CH) appends
    /\ take CH d ++ sent appends ++ last = d
    /\ length (take CH d) = CH
    /\ (0 < length last <= CH)%nat.
Proof.
  intros Hs Ha Hbig.
  assert (Hc : 0 <= DropBoxStorage.CHUNK_SIZE self) by lia.
  assert (Hlen : length (take CH d) = CH) by (rewrite length_take; lia).
  set (ev := Files_upload_session_start (take CH d)).
  pose proof (stream_at_logged content d CH ev _ (stream_at_put content d CH false w eq_refl)) as Hs'.
  destruct (upload_loop_runs {| path := dest |} (length d) CH
              {| session_id := session_of (remote w) (take CH d); offset := Z.of_nat CH |}
              _ Hs' Ha) as (appends & last & Hrun & Hall & Hsent & Hlast);
    [lia | lia | reflexivity |].
  exists appends, last. split; [|split; [|split; [|split]]]; try assumption.
  - intros fuel Hf. unfold DropBoxStorage._chunked_upload.
    rewrite (bind_ok _ _ _ _ _ (read_at _ _ _ _ _ Hs Hc)). fold CH.
    rewrite drop_0, Hlen. cbn [Nat.add].
    unfold Client.files_upload_session_start.
    rewrite (bind_ok _ _ _ _ _ (call_ok _ _ _ (accepts_put _ _ _ _ _ Ha _))).
    rewrite (bind_ok _ _ _ _ _ (tell_at _ _ _ _ Hs')).
    refine (eq_trans (Hrun fuel Hf) _). cbn [session_id].
    unfold put, logged, set_calls, set_heap. cbn [heap cwd settings remote calls].
    now rewrite insert_insert_eq, <- app_assoc.
  - rewrite Hsent. apply take_drop.
Qed.

(** [_save] of content that fits in one chunk: one upload call with all
    the bytes, and the file object closed at its end. *)
Lemma save_small name dest p w fuel :
  stream_at content d p w -> accepts w ->
  DropBoxStorage._full_path self name w = Some (Ok dest, w) ->
  File.size content <= DropBoxStorage.CHUNK_SIZE self ->
  DropBoxStorage._save fuel self name content w
  = Some (Ok name, set_calls (calls w ++ [Files_upload d dest])
                     (put content d (length d) true w)).
Proof.
  intros Hs Ha Hp Hle. unfold DropBoxStorage._save.
  rewrite (bind_ok _ _ _ _ _ (open_at _ _ _ _ Hs)).
  destruct (Z.leb_spec (File.size content) (DropBoxStorage.CHUNK_SIZE self)) as [_|Hgt]; [|lia].
  pose proof (stream_at_put content d 0 false w eq_refl) as Hs0.
  rewrite bind_assoc, (bind_ok _ _ _ _ _ (read_all_at _ _ _ _ Hs0)).
  rewrite drop_0. cbn [Nat.add].
  rewrite bind_assoc,
    (bind_ok _ _ _ _ _
       (full_path_cwd self name w
          (put content d (length d) false (put content d 0 false w)) _ eq_refl Hp)).
  unfold Client.files_upload.
  rewrite (bind_ok _ _ _ _ _
             (call_ok _ _ _ (accepts_put _ _ _ _ _ (accepts_put _ _ _ _ _ Ha) _))).
  assert (Hs1 : stream_at content d (length d)
                  (logged (Files_upload d dest)
                     (put content d (length d) false (put content d 0 false w)))).
  { apply stream_at_logged, (stream_at_put content d). reflexivity. }
  rewrite (bind_ok _ _ _ _ _ (close_at _ _ _ _ Hs1)).
  unfold ret, put, logged, set_calls, set_heap. cbn [heap cwd settings remote calls].
  now rewrite !insert_insert_eq.
Qed.

(** [_save] of content of more than one chunk: the calls of one upload
    session, and the file object closed at its end. *)
Lemma save_large name dest p w :
  stream_at content d p w -> accepts w ->
  DropBoxStorage._full_path self name w = Some (Ok dest, w) ->
  DropBoxStorage.CHUNK_SIZE self < File.size content ->
  exists appends last,
    (forall fuel, (length d < fuel)%nat ->
       DropBoxStorage._save fuel self name content w
       = Some (Ok name,
               set_calls
                 (calls w ++ Files_upload_session_start (take CH d) :: appends ++
                    [Files_upload_session_finish last
                       {| session_id := session_of (remote w) (take CH d);
                          offset := Z.of_nat (length d - length last) |}
                       {| path := dest |}])
                 (put content d (length d) true w)))
    /\ Forall (fun ev => is_append ev = true /\ length (payload ev) = CH) appends
    /\ take CH d ++ sent appends ++ last = d
    /\ length (take CH d) = CH
    /\ (0 < length last <= CH)%nat.
Proof.
  intros Hs Ha Hp Hbig.
  pose proof (stream_at_put content d 0 false w eq_refl) as Hs0.
  destruct (chunked_upload_runs dest _ Hs0 (accepts_put content d 0 false w Ha) Hbig)
    as (appends & last & Hrun & Hrest).
  exists appends, last. split; [|exact Hrest].
  intros fuel Hf. unfold DropBoxStorage._save.
  rewrite (bind_ok _ _ _ _ _ (open_at _ _ _ _ Hs)).
  destruct (Z.leb_spec (File.size content) (DropBoxStorage.CHUNK_SIZE self)) as [Hle|_]; [lia|].
  rewrite bind_assoc,
    (bind_ok _ _ _ _ _
       (full_path_cwd self name w (put content d 0 false w) _ eq_refl Hp)).
  rewrite (bind_ok _ _ _ _ _ (Hrun fuel Hf)).
  match goal with
  | |- bind _ _ ?w1 = _ =>
      assert (Hs1 : stream_at content d (length d) w1)
        by (apply (stream_at_put content d (length d) false); reflexivity)
  end.
  rewrite (bind_ok _ _ _ _ _ (close_at _ _ _ _ Hs1)).
  unfold ret, put, logged, set_calls, set_heap. cbn [heap cwd settings remote calls].
  now rewrite !insert_insert_eq.
Qed.

End Upload.

Lemma count_app kind l1 l2 : count kind (l1 ++ l2) = (count kind l1 + count kind l2)%nat.
Proof. unfold count. now rewrite List.filter_app, length_app. Qed.

Lemma count_appends kind appends :
  (forall ev, is_append ev = true -> kind ev = false) ->
  Forall (fun ev => is_append ev = true) appends ->
  count kind appends = 0%nat.
Proof.
  intros Hk. induction 1 as [|ev l Hev _ IH]; [reflexivity|].
  unfold count in *. cbn [List.filter]. now rewrite (Hk _ Hev).
Qed.

Lemma sent_app l1 l2 : sent (l1 ++ l2) = sent l1 ++ sent l2.
Proof. unfold sent. now rewrite map_app, concat_app. Qed.

Lemma sent_chunks n appends :
  Forall (fun ev => is_append ev = true /\ length (payload ev) = n) appends ->
  length (sent appends) = (length appends * n)%nat.
Proof.
  induction 1 as [|ev l [_ Hev] _ IH]; [reflexivity|].
  unfold sent in *. cbn [map concat length]. rewrite length_app, Hev, IH. simpl. lia.
Qed.

Lemma count_all_appends appends :
  Forall (fun ev => is_append ev = true) appends ->
  count is_append appends = length appends.
Proof.
  induction 1 as [|ev l Hev _ IH]; [reflexivity|].
  unfold count in *. cbn [List.filter]. rewrite Hev. cbn [length]. now rewrite IH.
Qed.

(** The calls of one upload session: one start, appends, one finish, and no
    single-shot upload. *)
Lemma session_counts first appends last cursor commit :
  Forall (fun ev => is_append ev = true) appends ->
  let session := Files_upload_session_start first :: appends
                   ++ [Files_upload_session_finish last cursor commit] in
  count is_upload session = 0%nat
  /\ count is_start session = 1%nat
  /\ count is_finish session = 1%nat
  /\ count is_append session = length appends.
Proof.
  intros Hall session. subst session.
  change (Files_upload_session_start first :: appends
            ++ [Files_upload_session_finish last cursor commit])
    with ([Files_upload_session_start first] ++ appends
            ++ [Files_upload_session_finish last cursor commit]).
  rewrite !count_app, (count_all_appends _ Hall).
  rewrite (count_appends is_upload appends), (count_appends is_start appends),
    (count_appends is_finish appends);
    try assumption; try (intros [] ?; (discriminate || reflexivity)).
  unfold count. cbn [List.filter is_upload is_start is_finish is_append length].
  repeat split; lia.
Qed.

(** When the size is a multiple of the chunk size, the rest that the finish
    call carries is a whole chunk. *)
Lemma last_chunk_whole (chunk k l total : Z) :
  0 < chunk -> 0 <= k -> 0 < l <= chunk ->
  total = chunk + k * chunk + l ->
  total mod chunk = 0 ->
  l = chunk.
Proof.
  intros Hc Hk Hl -> Hm.
  replace (chunk + k * chunk + l) with (l + (1 + k) * chunk) in Hm by lia.
  rewrite Z_mod_plus_full in Hm.
  destruct (Z.eq_dec l chunk) as [|Hne]; [assumption|].
  rewrite Z.mod_small in Hm by lia. lia.
Qed.

Lemma zeros_length n : 0 <= n -> Z.of_nat (length (zeros n)) = n.
Proof. intros H. unfold zeros. rewrite List.repeat_length. lia. Qed.

(** The size is the number of bytes exactly when the reads advance as
    asked. *)
Lemma sized_reads_advance content d p w :
  File.size content = Z.of_nat (length d) ->
  stream_at content d p w -> (p <= length d)%nat ->
  reads_advance content w.
Proof.
  intros Hsize Hs Hp n Hn.
  destruct (read_advances content d p w n Hsize Hs Hn Hp) as (chunk & w1 & Hr & Ht & _).
  exists chunk, w1, (Z.of_nat p), (Z.of_nat p + Z.min n (File.size content - Z.of_nat p)).
  split; [exact (tell_at _ _ _ _ Hs)|]. split; [exact Hr|]. split; [exact Ht|reflexivity].
Qed.

Lemma reads_advance_sized content d w :
  stream_at content d 0 w -> reads_advance content w ->
  File.size content = Z.of_nat (length d).
Proof.
  intros Hs Hra.
  destruct (Hra (Z.max (File.size content) (Z.of_nat (length d))) ltac:(lia))
    as (chunk & w1 & position & position' & Ht & Hr & Ht' & ->).
  rewrite (tell_at _ _ _ _ Hs) in Ht. injection Ht as <-.
  rewrite (read_at _ _ _ _ _ Hs) in Hr by lia.
  injection Hr as <- <-.
  rewrite (tell_at _ _ _ _ (stream_at_put content d _ false w eq_refl)) in Ht'.
  injection Ht' as Ht'. rewrite length_take, length_drop in Ht'. lia.
Qed.

(** The upload on small inputs, with a chunk size of 4 bytes. *)
Example save_three_bytes :
  calls_of (DropBoxStorage._save 0 (Fixture.storage "/" 4) "f" (Fixture.content 3)
              (Fixture.world_with Fixture.abc))
  = [Files_upload Fixture.abc "/f"].
Proof. reflexivity. Qed.

Example save_two_chunks :
  calls_of (DropBoxStorage._save 9 (Fixture.storage "/" 4) "f" (Fixture.content 8)
              (Fixture.world_with Fixture.eight))
  = [Files_upload_session_start [Byte.x30; Byte.x31; Byte.x32; Byte.x33];
     Files_upload_session_finish [Byte.x34; Byte.x35; Byte.x36; Byte.x37]
       {| session_id := "session-1"; offset := 4 |} {| path := "/f" |}].
Proof. reflexivity. Qed.

Example save_three_chunks :
  calls_of (DropBoxStorage._save 9 (Fixture.storage "/" 3) "f" (Fixture.content 8)
              (Fixture.world_with Fixture.eight))
  = [Files_upload_session_start [Byte.x30; Byte.x31; Byte.x32];
     Files_upload_session_append_v2 [Byte.x33; Byte.x34; Byte.x35]
       {| session_id := "session-1"; offset := 3 |};
     Files_upload_session_finish [Byte.x36; Byte.x37]
       {| session_id := "session-1"; offset := 6 |} {| path := "/f" |}].
Proof. reflexivity. Qed.

(** Content whose size attribute exceeds what its reads deliver keeps the
    loop going for ever: every iteration appends an empty chunk. *)
Lemma upload_loop_spins fuel :
  forall cursor commit w,
    stream_at (Fixture.content 10) Fixture.abc 3 w -> accepts w ->
    DropBoxStorage.upload_loop fuel (Fixture.storage "/" 4) (Fixture.content 10) cursor commit w
    = None.
Proof.
  induction fuel as [|fuel IH]; intros cursor commit w Hs Ha; [reflexivity|].
  cbn [DropBoxStorage.upload_loop].
  rewrite (bind_ok _ _ _ _ _ (tell_at _ _ _ _ Hs)).
  change (Z.of_nat 3 <? File.size (Fixture.content 10)) with true. cbv iota.
  rewrite (bind_ok _ _ _ _ _ (tell_at _ _ _ _ Hs)).
  change (File.size (Fixture.content 10) - Z.of_nat 3
          <=? DropBoxStorage.CHUNK_SIZE (Fixture.storage "/" 4)) with false. cbv iota.
  rewrite (bind_ok _ _ _ _ _
             (read_at _ _ _ _ 4 Hs ltac:(discriminate))).
  unfold Client.files_upload_session_append_v2.
  rewrite (bind_ok _ _ _ _ _ (call_ok _ _ _ (accepts_put _ _ _ _ _ Ha _))).
  pose proof (stream_at_logged _ _ _
                (Files_upload_session_append_v2 [] cursor) _
                (stream_at_put (Fixture.content 10) Fixture.abc 3 false w eq_refl)) as Hs'.
  rewrite (bind_ok _ _ _ _ _ (tell_at _ _ _ _ Hs')).
  apply IH; [exact Hs'|exact Ha].
Qed.

Lemma chunked_upload_spins fuel :
  DropBoxStorage._chunked_upload fuel (Fixture.storage "/" 4) (Fixture.content 10) "/f"
    (Fixture.world_with Fixture.abc)
  = None.
Proof.
  unfold DropBoxStorage._chunked_upload.
  assert (Hs : stream_at (Fixture.content 10) Fixture.abc 0 (Fixture.world_with Fixture.abc))
    by reflexivity.
  assert (Ha : accepts (Fixture.world_with Fixture.abc)) by (intros ev; reflexivity).
  rewrite (bind_ok _ _ _ _ _ (read_at _ _ _ _ 4 Hs ltac:(discriminate))).
  unfold Client.files_upload_session_start.
  rewrite (bind_ok _ _ _ _ _ (call_ok _ _ _ (accepts_put _ _ _ _ _ Ha _))).
  match goal with
  | |- bind _ _ ?w1 = _ =>
      assert (Hs' : stream_at (Fixture.content 10) Fixture.abc 3 w1) by reflexivity
  end.
  rewrite (bind_ok _ _ _ _ _ (tell_at _ _ _ _ Hs')).
  apply upload_loop_spins; [exact Hs'|exact Ha].
Qed.

(** C1: with the chunk size of the class, 4 MiB, [_save] of content whose
    size is the number of its bytes makes, when the size is at most 4 MiB,
    one single-shot upload call with all the bytes and no other call; when
    the size is more, the calls of one session: one start, then appends,
    then one finish, which together carry the bytes of the content in order,
    as many as its size; and when the size is a multiple of 4 MiB the finish
    call carries the last whole chunk. *)
Theorem save_calls self name content d p w dest :
  DropBoxStorage.CHUNK_SIZE self = DropBoxStorage.class_CHUNK_SIZE ->
  File.size content = Z.of_nat (length d) ->
  stream_at content d p w ->
  accepts w ->
  DropBoxStorage._full_path self name w = Some (Ok dest, w) ->
  (File.size content <= 4 * 1024 * 1024 ->
   forall fuel, exists w',
     DropBoxStorage._save fuel self name content w = Some (Ok name, w')
     /\ calls w' = calls w ++ [Files_upload d dest])
  /\ (4 * 1024 * 1024 < File.size content ->
      exists first appends last cursor,
        let session := Files_upload_session_start first :: appends
                         ++ [Files_upload_session_finish last cursor {| path := dest |}] in
        (forall fuel, (length d < fuel)%nat -> exists w',
           DropBoxStorage._save fuel self name content w = Some (Ok name, w')
           /\ calls w' = calls w ++ session)
        /\ Forall (fun ev => is_append ev = true) appends
        /\ count is_upload session = 0%nat
        /\ count is_start session = 1%nat
        /\ count is_finish session = 1%nat
        /\ sent session = d
        /\ Z.of_nat (length (sent session)) = File.size content
        /\ (File.size content mod (4 * 1024 * 1024) = 0 ->
            Z.of_nat (length last) = 4 * 1024 * 1024)).
Proof.
  intros Hchunk Hsize Hs Ha Hp.
  assert (Hpos : 0 < DropBoxStorage.CHUNK_SIZE self) by (rewrite Hchunk; reflexivity).
  change (4 * 1024 * 1024) with DropBoxStorage.class_CHUNK_SIZE. rewrite <- Hchunk.
  split.
  - intros Hle fuel. eexists. split.
    + apply (save_small self content d name dest p w fuel Hs Ha Hp Hle).
    + reflexivity.
  - intros Hbig.
    destruct (save_large self content d Hpos Hsize name dest p w Hs Ha Hp Hbig)
      as (appends & last & Hrun & Hall & Hsent & Hfirst & Hlast).
    set (CH := Z.to_nat (DropBoxStorage.CHUNK_SIZE self)) in *.
    assert (Happ : Forall (fun ev => is_append ev = true) appends).
    { eapply Forall_impl; [exact Hall|]. intros ev [H _]. exact H. }
    exists (take CH d), appends, last,
      {| session_id := session_of (remote w) (take CH d);
         offset := Z.of_nat (length d - length last) |}.
    cbv zeta.
    destruct (session_counts (take CH d) appends last
                {| session_id := session_of (remote w) (take CH d);
                   offset := Z.of_nat (length d - length last) |}
                {| path := dest |} Happ) as (Hu & Hst & Hfi & _).
    assert (Hd : sent (Files_upload_session_start (take CH d) :: appends
                         ++ [Files_upload_session_finish last
                               {| session_id := session_of (remote w) (take CH d);
                                  offset := Z.of_nat (length d - length last) |}
                               {| path := dest |}]) = d).
    { change (Files_upload_session_start (take CH d) :: ?l)
        with ([Files_upload_session_start (take CH d)] ++ l).
      rewrite !sent_app. unfold sent at 1 3. cbn [map concat payload].
      rewrite !app_nil_r. exact Hsent. }
    repeat split; try assumption.
    + intros fuel Hf. eexists. split; [apply (Hrun fuel Hf)|reflexivity].
    + now rewrite Hd.
    + intros Hmod. rewrite <- Hsent in Hsize.
      rewrite !length_app, Hfirst, (sent_chunks CH appends Hall) in Hsize.
      apply (last_chunk_whole (DropBoxStorage.CHUNK_SIZE self) (Z.of_nat (length appends))
               (Z.of_nat (length last)) (File.size content)); lia.
Qed.

Lemma save_calls_witness :
  (forall fuel, exists w',
     DropBoxStorage._save fuel default_storage "f" (Fixture.content 3)
       (Fixture.world_with Fixture.abc) = Some (Ok "f", w')
     /\ calls w' = [Files_upload Fixture.abc "/f"])
  /\ (exists first appends last cursor,
        let session := Files_upload_session_start first :: appends
                         ++ [Files_upload_session_finish last cursor {| path := "/f" |}] in
        (forall fuel, (length two_chunks < fuel)%nat -> exists w',
           DropBoxStorage._save fuel default_storage "f"
             (Fixture.content (2 * DropBoxStorage.class_CHUNK_SIZE))
             (Fixture.world_with two_chunks) = Some (Ok "f", w')
           /\ calls w' = session)
        /\ count is_start session = 1%nat
        /\ count is_finish session = 1%nat
        /\ sent session = two_chunks
        /\ Z.of_nat (length last) = 4 * 1024 * 1024).
Proof.
  split.
  - apply (proj1 (save_calls default_storage "f" (Fixture.content 3) Fixture.abc 0
                    (Fixture.world_with Fixture.abc) "/f"
                    eq_refl eq_refl eq_refl (fun _ => eq_refl) eq_refl)).
    discriminate.
  - destruct (proj2 (save_calls default_storage "f"
                       (Fixture.content (2 * DropBoxStorage.class_CHUNK_SIZE)) two_chunks 0
                       (Fixture.world_with two_chunks) "/f"
                       eq_refl
                       (eq_sym (zeros_length (2 * DropBoxStorage.class_CHUNK_SIZE)
                                  ltac:(discriminate)))
                       (lookup_singleton_eq _ _) (fun _ => eq_refl) eq_refl)
                eq_refl)
      as (first & appends & last & cursor & Hrun & _ & _ & Hst & Hfi & Hd & _ & Hm).
    exists first, appends, last, cursor. cbv zeta.
    split; [exact Hrun|]. split; [exact Hst|]. split; [exact Hfi|]. split; [exact Hd|].
    apply Hm. reflexivity.
Defined.

(** C9: with the chunk size of the class, for content of more than 4 MiB
    whose reads advance the position by what is asked for, up to what is
    left of the size, [_chunked_upload] returns for every fuel above the
    number of bytes; when it returns, the position of the content is its
    size, the calls of the session carried all the bytes, and one of them is
    a finish call. *)
Theorem chunked_upload_terminates self content d dest w :
  DropBoxStorage.CHUNK_SIZE self = DropBoxStorage.class_CHUNK_SIZE ->
  4 * 1024 * 1024 < File.size content ->
  stream_at content d 0 w ->
  accepts w ->
  reads_advance content w ->
  exists session w',
    (forall fuel, (length d < fuel)%nat ->
       DropBoxStorage._chunked_upload fuel self content dest w = Some (Ok tt, w'))
    /\ calls w' = calls w ++ session
    /\ File.tell content w' = Some (Ok (File.size content), w')
    /\ sent session = d
    /\ count is_finish session = 1%nat.
Proof.
  intros Hchunk Hbig Hs Ha Hra.
  pose proof (reads_advance_sized content d w Hs Hra) as Hsize.
  assert (Hpos : 0 < DropBoxStorage.CHUNK_SIZE self) by (rewrite Hchunk; reflexivity).
  change (4 * 1024 * 1024) with DropBoxStorage.class_CHUNK_SIZE in Hbig.
  rewrite <- Hchunk in Hbig.
  destruct (chunked_upload_runs self content d Hpos Hsize dest w Hs Ha Hbig)
    as (appends & last & Hrun & Hall & Hsent & Hfirst & Hlast).
  set (CH := Z.to_nat (DropBoxStorage.CHUNK_SIZE self)) in *.
  assert (Happ : Forall (fun ev => is_append ev = true) appends).
  { eapply Forall_impl; [exact Hall|]. intros ev [H _]. exact H. }
  eexists _, _. split; [exact Hrun|]. split; [reflexivity|].
  split; [|split].
  - rewrite Hsize. apply (tell_at content d (length d)).
    apply (stream_at_put content d (length d) false). reflexivity.
  - change (Files_upload_session_start (take CH d) :: ?l)
      with ([Files_upload_session_start (take CH d)] ++ l).
    rewrite !sent_app. unfold sent at 1 3. cbn [map concat payload].
    rewrite !app_nil_r. exact Hsent.
  - apply (session_counts (take CH d) appends last _ _ Happ).
Qed.

Lemma chunked_upload_terminates_witness :
  exists session w',
    (forall fuel, (length two_chunks < fuel)%nat ->
       DropBoxStorage._chunked_upload fuel default_storage
         (Fixture.content (2 * DropBoxStorage.class_CHUNK_SIZE)) "/f"
         (Fixture.world_with two_chunks) = Some (Ok tt, w'))
    /\ calls w' = session
    /\ File.tell (Fixture.content (2 * DropBoxStorage.class_CHUNK_SIZE)) w'
       = Some (Ok (2 * DropBoxStorage.class_CHUNK_SIZE), w')
    /\ sent session = two_chunks
    /\ count is_finish session = 1%nat.
Proof.
  apply (chunked_upload_terminates default_storage
           (Fixture.content (2 * DropBoxStorage.class_CHUNK_SIZE)) two_chunks "/f"
           (Fixture.world_with two_chunks) eq_refl eq_refl (lookup_singleton_eq _ _)
           (fun _ => eq_refl)).
  apply (sized_reads_advance _ two_chunks 0).
  - symmetry. apply zeros_length. discriminate.
  - apply lookup_singleton_eq.
  - apply Nat.le_0_l.
Defined.

(** * Further properties *)

(** ** Errors of the remote and of the path *)

Lemma safe_join_raises base path w e w' :
  safe_join base path w = Some (Raise e, w') -> exists msg, e = SuspiciousFileOperation msg.
Proof.
  unfold safe_join.
  destruct (abspath_pure (posixpath.join base path) w) as [p Hp].
  destruct (abspath_pure base w) as [b Hb].
  rewrite (bind_ok _ _ _ _ _ Hp), (bind_ok _ _ _ _ _ Hb).
  match goal with |- context [if ?c then _ else _] => destruct c end.
  - unfold raise. intros [= <- _]. eauto.
  - unfold ret. discriminate.
Qed.

(** Path resolution raises [SuspiciousFileOperation], or [TypeError] when
    there is no root, and nothing else. *)
Lemma full_path_raises self name w e w' :
  DropBoxStorage._full_path self name w = Some (Raise e, w') ->
  (exists msg, e = SuspiciousFileOperation msg) \/ (exists msg, e = TypeError msg).
Proof.
  unfold DropBoxStorage._full_path.
  destruct (DropBoxStorage.root_path self) as [root|].
  - destruct (safe_join_pure root (if String.eqb name "/" then "" else name) w) as [[p|e0] H].
    + rewrite (bind_ok _ _ _ _ _ H). unfold ret. discriminate.
    + rewrite (bind_raise _ _ _ _ _ H). intros [= <- _].
      left. exact (safe_join_raises _ _ _ _ _ H).
  - unfold raise. intros [= <- _]. right. eauto.
Qed.

(** X1: a name that path resolution refuses makes every operation raise the
    same exception before any call to the remote: the world is as it was.
    This holds for [exists] too, which catches [ApiError] only. *)
Theorem refused_name_reaches_no_remote self name w e :
  DropBoxStorage._full_path self name w = Some (Raise e, w) ->
  DropBoxStorage.delete self name w = Some (Raise e, w)
  /\ DropBoxStorage.exists_ self name w = Some (Raise e, w)
  /\ DropBoxStorage.listdir self name w = Some (Raise e, w)
  /\ DropBoxStorage.size self name w = Some (Raise e, w)
  /\ DropBoxStorage.modified_time self name w = Some (Raise e, w)
  /\ DropBoxStorage.accessed_time self name w = Some (Raise e, w)
  /\ DropBoxStorage.url self name w = Some (Raise e, w)
  /\ (forall mode, DropBoxStorage._open self name mode w = Some (Raise e, w)).
Proof.
  intros H.
  assert (Hn : is_ApiError e = false).
  { destruct (full_path_raises _ _ _ _ _ H) as [[msg ->] | [msg ->]]; reflexivity. }
  repeat split; try intros mode;
    unfold DropBoxStorage.delete, DropBoxStorage.exists_, except_ApiError,
      DropBoxStorage.listdir, DropBoxStorage.size, DropBoxStorage.modified_time,
      DropBoxStorage.accessed_time, DropBoxStorage.url, DropBoxStorage._open;
    rewrite (bind_raise _ _ _ _ _ H); try reflexivity.
  now rewrite Hn.
Qed.

Lemma refused_name_reaches_no_remote_witness :
  exists msg,
    DropBoxStorage.exists_ (Fixture.storage "/dir" 4) "../secret"
      (Fixture.world Fixture.remote_ok)
    = Some (Raise (SuspiciousFileOperation msg), Fixture.world Fixture.remote_ok)
    /\ DropBoxStorage.delete (Fixture.storage "/dir" 4) "../secret"
         (Fixture.world Fixture.remote_ok)
       = Some (Raise (SuspiciousFileOperation msg), Fixture.world Fixture.remote_ok).
Proof.
  eexists.
  destruct (refused_name_reaches_no_remote (Fixture.storage "/dir" 4) "../secret"
              (Fixture.world Fixture.remote_ok) _ eq_refl) as (Hd & He & _).
  split; [exact He|exact Hd].
Defined.

(** X2: [delete], [listdir], [size], [modified_time], [accessed_time] and
    [url] catch nothing: whatever exception their one call to the remote
    raises, an [ApiError] included, they raise it, and they make no other
    call. *)
Theorem remote_errors_propagate self name w p e :
  DropBoxStorage._full_path self name w = Some (Ok p, w) ->
  (raises (remote w) (Files_delete p) = Some e ->
   DropBoxStorage.delete self name w = Some (Raise e, logged (Files_delete p) w))
  /\ (raises (remote w) (Files_get_metadata p) = Some e ->
      DropBoxStorage.listdir self name w = Some (Raise e, logged (Files_get_metadata p) w)
      /\ DropBoxStorage.size self name w = Some (Raise e, logged (Files_get_metadata p) w)
      /\ DropBoxStorage.modified_time self name w
         = Some (Raise e, logged (Files_get_metadata p) w)
      /\ DropBoxStorage.accessed_time self name w
         = Some (Raise e, logged (Files_get_metadata p) w))
  /\ (raises (remote w) (Files_get_temporary_link p) = Some e ->
      DropBoxStorage.url self name w = Some (Raise e, logged (Files_get_temporary_link p) w)).
Proof.
  intros Hp. split; [|split]; intros He; repeat split;
    unfold DropBoxStorage.delete, DropBoxStorage.listdir, DropBoxStorage.size,
      DropBoxStorage.modified_time, DropBoxStorage.accessed_time, DropBoxStorage.url;
    rewrite (bind_ok _ _ _ _ _ Hp);
    unfold Client.files_delete, Client.files_get_metadata, Client.files_get_temporary_link;
    try (rewrite (bind_raise _ _ _ _ _ (call_raise _ _ _ _ He)); reflexivity);
    exact (call_raise _ _ _ _ He).
Qed.

Lemma remote_errors_propagate_witness :
  DropBoxStorage.delete (Fixture.storage "/" 4) "/gone"
    (Fixture.world (remote_down (ApiError "not_found")))
  = Some (Raise (ApiError "not_found"),
          logged (Files_delete "/gone") (Fixture.world (remote_down (ApiError "not_found"))))
  /\ DropBoxStorage.size (Fixture.storage "/" 4) "/gone"
       (Fixture.world (remote_down (ApiError "not_found")))
     = Some (Raise (ApiError "not_found"),
             logged (Files_get_metadata "/gone")
               (Fixture.world (remote_down (ApiError "not_found")))).
Proof.
  destruct (remote_errors_propagate (Fixture.storage "/" 4) "/gone"
              (Fixture.world (remote_down (ApiError "not_found"))) "/gone"
              (ApiError "not_found") eq_refl) as (Hd & Hm & _).
  split; [exact (Hd eq_refl)|exact (proj1 (proj2 (Hm eq_refl)))].
Defined.

(** X3: [exists] raises no [ApiError]: it returns a truth value, or raises
    what path resolution raised, or raises the exception of the remote that
    is not an [ApiError]. *)
Theorem exists_raises_no_ApiError self name w :
  exists r w',
    DropBoxStorage.exists_ self name w = Some (r, w')
    /\ match r with
       | Ok _ => True
       | Raise e => is_ApiError e = false
       end.
Proof.
  destruct (full_path_pure self name w) as [[p|e] Hp].
  - rewrite (exists_fetch _ _ _ _ Hp).
    destruct (raises (remote w) (Files_get_metadata p)) as [e|].
    + destruct (is_ApiError e) eqn:E; eexists _, _; (split; [reflexivity|]); [exact I|exact E].
    + eexists _, _. split; [reflexivity|exact I].
  - destruct (refused_name_reaches_no_remote self name w e Hp) as (_ & He & _).
    rewrite He. eexists _, _. split; [reflexivity|].
    destruct (full_path_raises _ _ _ _ _ Hp) as [[msg ->] | [msg ->]]; reflexivity.
Qed.

(** X4: a metadata answer without the field that a method reads makes it
    raise [KeyError] for that field: [contents] in [listdir], [bytes] in
    [size], [modified] in [modified_time], [client_mtime] in
    [accessed_time]. *)
Theorem missing_field_raises_KeyError self name w p d :
  DropBoxStorage._full_path self name w = Some (Ok p, w) ->
  raises (remote w) (Files_get_metadata p) = None ->
  metadata_of (remote w) p = PyDict d ->
  (assoc "contents" d = None ->
   DropBoxStorage.listdir self name w
   = Some (Raise (KeyError "contents"), logged (Files_get_metadata p) w))
  /\ (assoc "bytes" d = None ->
      DropBoxStorage.size self name w
      = Some (Raise (KeyError "bytes"), logged (Files_get_metadata p) w))
  /\ (assoc "modified" d = None ->
      DropBoxStorage.modified_time self name w
      = Some (Raise (KeyError "modified"), logged (Files_get_metadata p) w))
  /\ (assoc "client_mtime" d = None ->
      DropBoxStorage.accessed_time self name w
      = Some (Raise (KeyError "client_mtime"), logged (Files_get_metadata p) w)).
Proof.
  intros Hp Hr Hm. repeat split; intros Hk;
    unfold DropBoxStorage.listdir, DropBoxStorage.size, DropBoxStorage.modified_time,
      DropBoxStorage.accessed_time;
    rewrite (bind_ok _ _ _ _ _ Hp); unfold Client.files_get_metadata;
    rewrite (bind_ok _ _ _ _ _ (call_ok _ _ _ Hr)), Hm; unfold py_getitem; rewrite Hk;
    reflexivity.
Qed.

Lemma missing_field_raises_KeyError_witness :
  DropBoxStorage.listdir (Fixture.storage "/" 4) "/a/b.txt" (Fixture.world Fixture.remote_ok)
  = Some (Raise (KeyError "contents"),
          logged (Files_get_metadata "/a/b.txt") (Fixture.world Fixture.remote_ok))
  /\ DropBoxStorage.modified_time (Fixture.storage "/" 4) "/a" (Fixture.world Fixture.remote_ok)
     = Some (Raise (KeyError "modified"),
             logged (Files_get_metadata "/a") (Fixture.world Fixture.remote_ok)).
Proof.
  split.
  - exact (proj1 (missing_field_raises_KeyError (Fixture.storage "/" 4) "/a/b.txt"
                    (Fixture.world Fixture.remote_ok) "/a/b.txt" _ eq_refl eq_refl eq_refl)
             eq_refl).
  - exact (proj1 (proj2 (proj2 (missing_field_raises_KeyError (Fixture.storage "/" 4) "/a"
                                  (Fixture.world Fixture.remote_ok) "/a" _
                                  eq_refl eq_refl eq_refl)))
             eq_refl).
Defined.

(** ** The resolved path *)

Lemma replace_backslashes s : Str.replace "\" "/" None s = forward_slashes s.
Proof.
  induction s as [|c s IH]; [reflexivity|].
  pose proof (replace_char_cons backslash slash c s) as H.
  unfold backslash, slash in H. rewrite H, IH. cbn [forward_slashes].
  now rewrite (Ascii.eqb_sym c backslash).
Qed.

Lemma forward_slashes_length s : String.length (forward_slashes s) = String.length s.
Proof. induction s as [|c s IH]; [reflexivity|]. cbn. now rewrite IH. Qed.

(** X5: the resolved path is the path that [safe_join] accepted with each
    backslash turned into a forward slash and no other change: it has the
    same length, and it is that very path when there was no backslash. *)
Theorem resolved_path_is_join_with_forward_slashes self root name w q :
  DropBoxStorage.root_path self = Some root ->
  safe_join root (if String.eqb name "/" then "" else name) w = Some (Ok q, w) ->
  DropBoxStorage._full_path self name w = Some (Ok (forward_slashes q), w)
  /\ String.length (forward_slashes q) = String.length q
  /\ Str.mem backslash (forward_slashes q) = false
  /\ (Str.mem backslash q = false -> forward_slashes q = q).
Proof.
  intros Hr Hq. split; [|split; [|split]].
  - unfold DropBoxStorage._full_path. rewrite Hr, (bind_ok _ _ _ _ _ Hq).
    unfold ret. now rewrite replace_backslashes.
  - apply forward_slashes_length.
  - rewrite <- replace_backslashes.
    apply (replace_char_absent backslash slash). discriminate.
  - intros Hm. rewrite <- replace_backslashes.
    apply (replace_char_id backslash slash q Hm).
Qed.

Lemma resolved_path_is_join_with_forward_slashes_witness :
  DropBoxStorage._full_path (Fixture.storage "/dir" 4) "a\b/c" (Fixture.world Fixture.remote_ok)
  = Some (Ok "/dir/a/b/c", Fixture.world Fixture.remote_ok).
Proof.
  exact (proj1 (resolved_path_is_join_with_forward_slashes (Fixture.storage "/dir" 4) "/dir"
                  "a\b/c" (Fixture.world Fixture.remote_ok) "/dir/a\b/c" eq_refl eq_refl)).
Defined.

(** ** Opening and reading a remote file *)

(** The operations on file objects return and make no call. *)
Lemma with_stream_calls {A} f (k : Stream -> World -> option (Res A * World)) w :
  (forall s, exists r w', k s w = Some (r, w') /\ calls w' = calls w) ->
  exists r w', IO.with_stream f k w = Some (r, w') /\ calls w' = calls w.
Proof.
  intros Hk. unfold IO.with_stream.
  destruct (heap w !! f) as [s|]; [|eauto].
  destruct (closed s); [eauto|apply Hk].
Qed.

Lemma read_calls f n w : exists r w', IO.read f n w = Some (r, w') /\ calls w' = calls w.
Proof. apply with_stream_calls. intros s. eauto. Qed.

Lemma write_calls f b w : exists r w', IO.write f b w = Some (r, w') /\ calls w' = calls w.
Proof. apply with_stream_calls. intros s. eauto. Qed.

Lemma rewind_calls f w : exists r w', IO.rewind f w = Some (r, w') /\ calls w' = calls w.
Proof. apply with_stream_calls. intros s. eauto. Qed.

Lemma copy_and_rewind_calls response f w :
  exists r w', (IO.copyfileobj response f ;;; IO.rewind f) w = Some (r, w')
               /\ calls w' = calls w.
Proof.
  unfold bind. destruct response as [m b|src]; cbn [IO.copyfileobj]; [eauto|].
  unfold bind. destruct (read_calls src None w) as (r1 & w1 & -> & H1).
  destruct r1 as [b|e]; [|eauto].
  destruct (write_calls f b w1) as (r2 & w2 & -> & H2).
  destruct r2 as [[]|e]; [|exists (Raise e), w2; split; [reflexivity|congruence]].
  destruct (rewind_calls f w2) as (r3 & w3 & -> & H3).
  exists r3, w3. split; [now destruct r3|congruence].
Qed.

(** X6: [_open] makes no call to the remote and touches no file object,
    whatever the mode: it returns a [DropBoxFile] for the resolved path
    without a buffer. The first access to the buffer is what calls the
    remote: whatever the remote answers or raises, the access returns or
    raises after the one download of that path. *)
Theorem open_downloads_nothing self name mode w p :
  DropBoxStorage._full_path self name w = Some (Ok p, w) ->
  DropBoxStorage._open self name mode w = Some (Ok (DropBoxFile.__init__ p self), w)
  /\ exists r self' w',
       DropBoxFile.file (DropBoxFile.__init__ p self) w = Some (r, self', w')
       /\ calls w' = calls w ++ [Files_download p].
Proof.
  intros Hp. split.
  - unfold DropBoxStorage._open. now rewrite (bind_ok _ _ _ _ _ Hp).
  - rewrite (file_first (DropBoxFile.__init__ p self) w eq_refl). cbn [DropBoxFile.name DropBoxFile.__init__].
    destruct (raises (remote w) (Files_download p)) as [e|]; [eauto|].
    cbv zeta.
    destruct (copy_and_rewind_calls (download_of (remote w) p) (fresh (dom (heap w)))
                (with_buffer (fresh (dom (heap w))) (logged (Files_download p) w)))
      as (r & w' & -> & Hc).
    destruct r as [[]|e]; eexists _, _, w'; (split; [reflexivity|exact Hc]).
Qed.

Lemma open_downloads_nothing_witness :
  DropBoxStorage._open (Fixture.storage "/" 4) "a/b.txt" "rb" (Fixture.world Fixture.remote_sdk)
  = Some (Ok (DropBoxFile.__init__ "/a/b.txt" (Fixture.storage "/" 4)),
          Fixture.world Fixture.remote_sdk).
Proof.
  exact (proj1 (open_downloads_nothing (Fixture.storage "/" 4) "a/b.txt" "rb"
                  (Fixture.world Fixture.remote_sdk) "/a/b.txt" eq_refl)).
Defined.

(** X7: a download that raises leaves the [DropBoxFile] without a buffer and
    the heap as it was; the exception reaches the caller, and the next
    access calls the remote again. *)
Theorem failed_download_is_not_cached {Storage} (self : DropBoxFile.t Storage) w e :
  DropBoxFile._file self = None ->
  raises (remote w) (Files_download (DropBoxFile.name self)) = Some e ->
  DropBoxFile.file self w
  = Some (Raise e, self, logged (Files_download (DropBoxFile.name self)) w)
  /\ heap (logged (Files_download (DropBoxFile.name self)) w) = heap w
  /\ retry self w
     = Some (Raise e, self, logged (Files_download (DropBoxFile.name self))
                              (logged (Files_download (DropBoxFile.name self)) w)).
Proof.
  intros Hn He.
  assert (H : forall w0, remote w0 = remote w ->
                DropBoxFile.file self w0
                = Some (Raise e, self, logged (Files_download (DropBoxFile.name self)) w0)).
  { intros w0 Hw. rewrite (file_first self w0 Hn), Hw. now rewrite He. }
  split; [apply H; reflexivity|]. split; [reflexivity|].
  unfold retry. rewrite (H w eq_refl). apply H. reflexivity.
Qed.

Lemma failed_download_is_not_cached_witness :
  calls_of (retry (DropBoxFile.__init__ "/gone" (Fixture.storage "/" 4))
              (Fixture.world (remote_down (ApiError "not_found"))))
  = [Files_download "/gone"; Files_download "/gone"].
Proof.
  rewrite (proj2 (proj2 (failed_download_is_not_cached
                           (DropBoxFile.__init__ "/gone" (Fixture.storage "/" 4))
                           (Fixture.world (remote_down (ApiError "not_found")))
                           (ApiError "not_found") eq_refl eq_refl))).
  reflexivity.
Defined.

Lemma read_all_stream f s w :
  heap w !! f = Some s -> closed s = false ->
  IO.read f None w
  = Some (Ok (drop (pos s) (data s)),
          set_heap (<[f := {| data := data s; pos := pos s + length (drop (pos s) (data s));
                              closed := false |}]> (heap w)) w).
Proof. intros H Hc. unfold IO.read. now rewrite (with_stream_open _ _ _ _ H Hc). Qed.

(** X8: on the client of the SDK the content of the remote file does not
    reach a caller who tries again, and the caller is not told: after the
    first access raised in the copy, the second access returns the
    temporary file that was left in the instance, without a second
    download, and reading it to its end returns no bytes. *)
Theorem retry_after_failed_copy_reads_nothing {Storage} (self : DropBoxFile.t Storage)
    w m b :
  DropBoxFile._file self = None ->
  raises (remote w) (Files_download (DropBoxFile.name self)) = None ->
  download_of (remote w) (DropBoxFile.name self) = Pair m b ->
  exists f w',
    retry self w = Some (Ok f, cached self f, w')
    /\ downloads (calls w') = S (downloads (calls w))
    /\ outcome (IO.read f None w') = Some (Ok []).
Proof.
  intros Hn Hr Hd. unfold retry.
  rewrite (file_first self w Hn), Hr, Hd. cbv zeta.
  cbn [IO.copyfileobj bind raise]. unfold bind, raise. rewrite file_again.
  eexists _, _. split; [reflexivity|]. split.
  - cbn [calls with_buffer set_heap logged set_calls]. rewrite downloads_app. cbn. lia.
  - rewrite (read_all_stream _ {| data := []; pos := 0; closed := false |});
      [reflexivity| |reflexivity].
    cbn [heap with_buffer set_heap]. apply lookup_insert_eq.
Qed.

Lemma retry_after_failed_copy_reads_nothing_witness :
  exists f w',
    retry (DropBoxFile.__init__ "/a/b.txt" (Fixture.storage "/" 4))
      (Fixture.world Fixture.remote_sdk)
    = Some (Ok f, cached (DropBoxFile.__init__ "/a/b.txt" (Fixture.storage "/" 4)) f, w')
    /\ downloads (calls w') = S (downloads (calls (Fixture.world Fixture.remote_sdk)))
    /\ outcome (IO.read f None w') = Some (Ok []).
Proof.
  exact (retry_after_failed_copy_reads_nothing
           (DropBoxFile.__init__ "/a/b.txt" (Fixture.storage "/" 4))
           (Fixture.world Fixture.remote_sdk) Fixture.file_b_object [Byte.x68; Byte.x69]
           eq_refl eq_refl eq_refl).
Defined.

(** ** The constructors again *)

Lemma or_else_unconfigured arg key w :
  unconfigured arg key w -> py_or_else arg (setting key None) w = Some (Ok None, w).
Proof.
  intros [Hf H]. unfold py_or_else, setting. rewrite Hf.
  destruct H as [-> | ->]; reflexivity.
Qed.

Lemma or_else_configured arg key w :
  ~ unconfigured arg key w ->
  exists v, given arg key w v /\ py_or_else arg (setting key None) w = Some (Ok (Some v), w).
Proof.
  intros Hn. unfold py_or_else, setting, given.
  destruct (py_truthy arg) eqn:Ht.
  - destruct arg as [v|]; [|discriminate]. exists v. split; [|reflexivity].
    left. split; [reflexivity|]. intros ->. discriminate.
  - destruct (settings w !! key) as [[v|]|] eqn:Hs.
    + exists v. split; [right; split; reflexivity|reflexivity].
    + exfalso. apply Hn. split; auto.
    + exfalso. apply Hn. split; auto.
Qed.

(** X9: the base constructor raises [ImproperlyConfigured] exactly when it
    has no usable token: the argument is missing or empty and the setting is
    not set or is [None]. With a token that is not empty it returns a
    storage whose client is bound to the token. An empty token, which the
    settings alone can supply, passes the test of the constructor and is
    refused by the constructor of the SDK. *)
Theorem base_init_outcomes token root w :
  (unconfigured token "DROPBOX_OAUTH2_TOKEN" w ->
   exists msg, DropBoxStorage.__init__ token root w = Some (Raise (ImproperlyConfigured msg), w))
  /\ (~ unconfigured token "DROPBOX_OAUTH2_TOKEN" w ->
      exists t,
        given token "DROPBOX_OAUTH2_TOKEN" w t
        /\ (t <> "" ->
            exists r,
              DropBoxStorage.__init__ token root w
              = Some (Ok {| DropBoxStorage.root_path := r;
                            DropBoxStorage.client := Client.User t;
                            DropBoxStorage.CHUNK_SIZE := DropBoxStorage.class_CHUNK_SIZE |},
                      w))
        /\ (t = "" ->
            py_truthy token = false
            /\ exists msg,
                 DropBoxStorage.__init__ token root w = Some (Raise (BadInput msg), w))).
Proof.
  destruct (or_else_world root "DROPBOX_ROOT_PATH" (Some "/") w) as [r Hr].
  split; intros H; unfold DropBoxStorage.__init__.
  - rewrite (bind_ok _ _ _ _ _ (or_else_unconfigured _ _ _ H)), (bind_ok _ _ _ _ _ Hr).
    eexists; reflexivity.
  - destruct (or_else_configured _ _ _ H) as (t & Hg & Ht).
    rewrite (bind_ok _ _ _ _ _ Ht), (bind_ok _ _ _ _ _ Hr).
    exists t. split; [exact Hg|]. split.
    + intros Hne. exists r. unfold Client.Dropbox.
      now rewrite bind_assoc, (bind_ok _ _ _ _ _ (check_token_ok _ _ Hne)).
    + intros ->. split.
      * destruct Hg as [[_ Hne] | [Hf _]]; [contradiction|exact Hf].
      * eexists; reflexivity.
Qed.

Lemma base_init_outcomes_witness :
  (exists msg,
     DropBoxStorage.__init__ (Some "") None (Fixture.world Fixture.remote_sdk)
     = Some (Raise (ImproperlyConfigured msg), Fixture.world Fixture.remote_sdk))
  /\ (exists r,
        DropBoxStorage.__init__ (Some "token") (Some "/dir") (Fixture.world Fixture.remote_sdk)
        = Some (Ok {| DropBoxStorage.root_path := r;
                      DropBoxStorage.client := Client.User "token";
                      DropBoxStorage.CHUNK_SIZE := DropBoxStorage.class_CHUNK_SIZE |},
                Fixture.world Fixture.remote_sdk)).
Proof.
  split.
  - apply (proj1 (base_init_outcomes (Some "") None (Fixture.world Fixture.remote_sdk))).
    split; [reflexivity|left; reflexivity].
  - destruct (proj2 (base_init_outcomes (Some "token") (Some "/dir")
                       (Fixture.world Fixture.remote_sdk)))
      as (t & Hg & Hok & _).
    + intros [H _]. discriminate.
    + destruct Hg as [[E _] | [Hf _]]; [|discriminate].
      injection E as <-. apply Hok. discriminate.
Defined.

(** An empty token in the settings: the constructor of the SDK refuses
    it. *)
Example base_init_empty_token_in_settings :
  outcome (DropBoxStorage.__init__ None None
             (with_settings {[ "DROPBOX_OAUTH2_TOKEN" := Some "" ]}
                (Fixture.world Fixture.remote_sdk)))
  = Some (Raise (BadInput "OAuth2 access token cannot be empty.")).
Proof. reflexivity. Qed.

(** X10: the team constructor returns no storage, whatever its arguments and
    the settings: it raises [ImproperlyConfigured] when a value is unusable
    and [NameError] for [DropboxTeam] otherwise, and the world is as it
    was. *)
Theorem team_init_always_raises token root headers namespace admin w :
  exists e,
    DropBoxTeamStorage.__init__ token root headers namespace admin w = Some (Raise e, w)
    /\ ((exists msg, e = ImproperlyConfigured msg) \/ e = NameError "DropboxTeam").
Proof.
  unfold DropBoxTeamStorage.__init__, DropBoxTeamStorage.__init__in.
  destruct (or_else_world token "DROPBOX_OAUTH2_TOKEN" None w) as [t Ht].
  destruct (or_else_world namespace "DROPBOX_TEAM_NAMESPACE" None w) as [n Hn].
  destruct (or_else_world admin "DROPBOX_TEAM_ADMIN" None w) as [a Ha].
  destruct (or_else_world root "DROPBOX_ROOT_PATH" (Some "/") w) as [r Hr].
  rewrite (bind_ok _ _ _ _ _ Ht), (bind_ok _ _ _ _ _ Hn), (bind_ok _ _ _ _ _ Ha),
    (bind_ok _ _ _ _ _ Hr).
  destruct t as [t|]; [|eexists; split; [reflexivity|left; eauto]].
  destruct n as [n|]; [|eexists; split; [reflexivity|left; eauto]].
  destruct a as [a|]; [|eexists; split; [reflexivity|left; eauto]].
  eexists; split; [reflexivity|right; reflexivity].
Qed.

(** ** The calls of an upload session *)

Section Session.

Variable self : DropBoxStorage.t.
Variable content : File.t.
Variable d : bytes.

Hypothesis chunk_positive : 0 < DropBoxStorage.CHUNK_SIZE self.
Hypothesis size_is_length : File.size content = Z.of_nat (length d).

Let CH : nat := Z.to_nat (DropBoxStorage.CHUNK_SIZE self).

(** The loop makes the calls of the chunking, one iteration for each. *)
Lemma upload_loop_refines commit sid n :
  forall p w,
    stream_at content d p w -> accepts w ->
    (p < length d)%nat -> (length d - p <= n)%nat ->
    forall fuel, (n < fuel)%nat ->
      DropBoxStorage.upload_loop fuel self content
        {| session_id := sid; offset := Z.of_nat p |} commit w
      = Some (Ok tt, set_calls (calls w ++ tail_calls n CH sid commit d p)
                       (put content d (length d) false w)).
Proof.
  assert (Hc : 0 <= DropBoxStorage.CHUNK_SIZE self) by lia.
  induction n as [|n IH]; intros p w Hs Ha Hp Hn fuel Hf; [lia|].
  destruct fuel as [|fuel]; [lia|].
  cbn [DropBoxStorage.upload_loop tail_calls].
  rewrite (bind_ok _ _ _ _ _ (tell_at _ _ _ _ Hs)).
  destruct (Z.ltb_spec (Z.of_nat p) (File.size content)) as [_|Hge]; [|lia].
  rewrite (bind_ok _ _ _ _ _ (tell_at _ _ _ _ Hs)).
  destruct (Z.leb_spec (File.size content - Z.of_nat p) (DropBoxStorage.CHUNK_SIZE self))
    as [Hle|Hgt]; rewrite (bind_ok _ _ _ _ _ (read_at _ _ _ _ _ Hs Hc)); fold CH.
  - destruct (Nat.leb_spec (length d - p) CH) as [_|Hlt]; [|lia].
    assert (Hrest : (length (drop p d) <= CH)%nat) by (rewrite length_drop; lia).
    assert (Hend : (p + length (drop p d))%nat = length d) by (rewrite length_drop; lia).
    rewrite (take_ge _ _ Hrest), Hend.
    unfold Client.files_upload_session_finish.
    rewrite (bind_ok _ _ _ _ _ (call_ok _ _ _ (accepts_put _ _ _ _ _ Ha _))).
    destruct fuel as [|fuel]; [lia|].
    cbn [DropBoxStorage.upload_loop].
    rewrite (bind_ok _ _ _ _ _
               (tell_at _ _ _ _ (stream_at_logged content d _ _ _
                                   (stream_at_put content d (length d) false w eq_refl)))).
    destruct (Z.ltb_spec (Z.of_nat (length d)) (File.size content)) as [Hlt|_]; [lia|].
    reflexivity.
  - destruct (Nat.leb_spec (length d - p) CH) as [Hle|_]; [lia|].
    assert (Hlen : length (take CH (drop p d)) = CH) by (rewrite length_take, length_drop; lia).
    rewrite Hlen.
    unfold Client.files_upload_session_append_v2.
    rewrite (bind_ok _ _ _ _ _ (call_ok _ _ _ (accepts_put _ _ _ _ _ Ha _))).
    pose proof (stream_at_logged content d (p + CH)
                  (Files_upload_session_append_v2 (take CH (drop p d))
                     {| session_id := sid; offset := Z.of_nat p |})
                  _ (stream_at_put content d (p + CH) false w eq_refl)) as Hs'.
    rewrite (bind_ok _ _ _ _ _ (tell_at _ _ _ _ Hs')). cbn [session_id].
    rewrite (IH (p + CH)%nat _ Hs' Ha) by lia.
    unfold put, logged, set_calls, set_heap. cbn [heap cwd settings remote calls].
    now rewrite insert_insert_eq, <- app_assoc.
Qed.

(** [_save] of content of more than one chunk makes the calls of the
    chunking of its bytes. *)
Lemma save_refines name dest p w fuel :
  stream_at content d p w -> accepts w ->
  DropBoxStorage._full_path self name w = Some (Ok dest, w) ->
  DropBoxStorage.CHUNK_SIZE self < File.size content ->
  (length d < fuel)%nat ->
  DropBoxStorage._save fuel self name content w
  = Some (Ok name,
          set_calls (calls w ++ session_calls CH (session_of (remote w) (take CH d)) dest d)
            (put content d (length d) true w)).
Proof.
  intros Hs Ha Hp Hbig Hf.
  assert (Hc : 0 <= DropBoxStorage.CHUNK_SIZE self) by lia.
  assert (Hlen : length (take CH d) = CH) by (rewrite length_take; lia).
  pose proof (stream_at_put content d 0 false w eq_refl) as Hs0.
  unfold DropBoxStorage._save.
  rewrite (bind_ok _ _ _ _ _ (open_at _ _ _ _ Hs)).
  destruct (Z.leb_spec (File.size content) (DropBoxStorage.CHUNK_SIZE self)) as [Hle|_]; [lia|].
  rewrite bind_assoc,
    (bind_ok _ _ _ _ _ (full_path_cwd self name w (put content d 0 false w) _ eq_refl Hp)).
  unfold DropBoxStorage._chunked_upload.
  rewrite !bind_assoc, (bind_ok _ _ _ _ _ (read_at _ _ _ _ _ Hs0 Hc)). fold CH.
  rewrite drop_0, Hlen. cbn [Nat.add].
  unfold Client.files_upload_session_start.
  rewrite bind_assoc,
    (bind_ok _ _ _ _ _
       (call_ok _ _ _ (accepts_put _ _ _ _ _ (accepts_put content d 0 false w Ha) _))).
  match goal with
  | |- bind _ _ ?w1 = _ => assert (Hs1 : stream_at content d CH w1) by (apply lookup_insert_eq)
  end.
  rewrite bind_assoc, (bind_ok _ _ _ _ _ (tell_at _ _ _ _ Hs1)).
  rewrite (bind_ok _ _ _ _ _
             (upload_loop_refines {| path := dest |} _ (length d) CH _ Hs1 Ha
                ltac:(lia) ltac:(lia) fuel Hf)).
  match goal with
  | |- bind _ _ ?w2 = _ =>
      assert (Hs2 : stream_at content d (length d) w2) by (apply lookup_insert_eq)
  end.
  rewrite (bind_ok _ _ _ _ _ (close_at _ _ _ _ Hs2)).
  unfold ret, session_calls, put, logged, set_calls, set_heap.
  cbn [heap cwd settings remote calls].
  now rewrite !insert_insert_eq, <- app_assoc.
Qed.

End Session.

(** The cursors of the chunking carry the position before their chunk. *)
Lemma tail_calls_track n chunk sid commit d :
  forall p, cursors_track sid (Z.of_nat p) (tail_calls n chunk sid commit d p).
Proof.
  induction n as [|n IH]; intros p; [exact I|].
  cbn [tail_calls]. destruct (Nat.leb_spec (length d - p) chunk) as [Hle|Hgt].
  - cbn. auto.
  - cbn [cursors_track cursor_of payload session_id offset]. split; [auto|].
    rewrite length_take, length_drop.
    replace (Z.of_nat p + Z.of_nat (chunk `min` (length d - p))) with (Z.of_nat (p + chunk))
      by lia.
    apply IH.
Qed.

(** The chunking of what is left from [p] is as many calls as chunks. *)
Lemma tail_calls_length n chunk sid commit d :
  (0 < chunk)%nat ->
  forall p, (p < length d)%nat -> (length d - p <= n)%nat ->
    Z.of_nat (length (tail_calls n chunk sid commit d p))
    = (Z.of_nat (length d - p) + Z.of_nat chunk - 1) / Z.of_nat chunk.
Proof.
  intros Hc. induction n as [|n IH]; intros p Hp Hn; [lia|].
  cbn [tail_calls]. destruct (Nat.leb_spec (length d - p) chunk) as [Hle|Hgt].
  - cbn [length]. change (Z.of_nat 1) with 1.
    apply (Z.div_unique _ _ 1 (Z.of_nat (length d - p) - 1)); lia.
  - cbn [length]. rewrite Nat2Z.inj_succ, (IH (p + chunk)%nat) by lia.
    replace (Z.of_nat (length d - p) + Z.of_nat chunk - 1)
      with (Z.of_nat (length d - (p + chunk)) + Z.of_nat chunk - 1 + 1 * Z.of_nat chunk) by lia.
    rewrite Z.div_add by lia. lia.
Qed.

(** All but the last call of the chunking carry a whole chunk. *)
Lemma tail_calls_chunks n chunk sid commit d :
  (0 < chunk)%nat ->
  forall p, (length d - p <= n)%nat ->
    Forall (fun ev => length (payload ev) = chunk)
      (removelast (tail_calls n chunk sid commit d p)).
Proof.
  intros Hc. induction n as [|n IH]; intros p Hn; [constructor|].
  cbn [tail_calls]. destruct (Nat.leb_spec (length d - p) chunk) as [Hle|Hgt].
  - constructor.
  - destruct n as [|n]; [lia|].
    specialize (IH (p + chunk)%nat ltac:(lia)).
    remember (tail_calls (S n) chunk sid commit d (p + chunk)) as t eqn:Et.
    destruct t as [|ev t].
    { cbn [tail_calls] in Et. destruct (length d - (p + chunk) <=? chunk)%nat; discriminate. }
    change (removelast (?a :: ev :: t)) with (a :: removelast (ev :: t)).
    constructor; [|exact IH].
    cbn [payload]. rewrite length_take, length_drop. lia.
Qed.

Lemma tail_calls_nonempty n chunk sid commit d p :
  tail_calls (S n) chunk sid commit d p <> [].
Proof. cbn [tail_calls]. destruct (length d - p <=? chunk)%nat; discriminate. Qed.

(** X11: in the session that uploads content of more than one chunk, every
    append and the finish carry the session that the start call was
    answered with and, as offset, the number of bytes that the calls before
    them carried. *)
Theorem session_cursors_track self name content d p w dest fuel :
  0 < DropBoxStorage.CHUNK_SIZE self ->
  File.size content = Z.of_nat (length d) ->
  stream_at content d p w ->
  accepts w ->
  DropBoxStorage._full_path self name w = Some (Ok dest, w) ->
  DropBoxStorage.CHUNK_SIZE self < File.size content ->
  (length d < fuel)%nat ->
  exists w' first rest,
    DropBoxStorage._save fuel self name content w = Some (Ok name, w')
    /\ calls w' = calls w ++ Files_upload_session_start first :: rest
    /\ cursors_track (session_of (remote w) first) 0 (Files_upload_session_start first :: rest).
Proof.
  intros Hpos Hsize Hs Ha Hp Hbig Hf.
  set (CH := Z.to_nat (DropBoxStorage.CHUNK_SIZE self)).
  eexists _, (take CH d), _. split; [|split].
  - apply (save_refines self content d Hpos Hsize name dest p w fuel Hs Ha Hp Hbig Hf).
  - reflexivity.
  - cbn [cursors_track cursor_of payload]. split; [exact I|].
    replace (0 + Z.of_nat (length (take CH d))) with (Z.of_nat CH)
      by (rewrite length_take; lia).
    apply tail_calls_track.
Qed.

Lemma session_cursors_track_witness :
  exists w' first rest,
    DropBoxStorage._save 12 (Fixture.storage "/" 4) "f" (Fixture.content 11)
      (Fixture.world_with eleven) = Some (Ok "f", w')
    /\ calls w' = Files_upload_session_start first :: rest
    /\ cursors_track "session-1" 0 (Files_upload_session_start first :: rest).
Proof.
  exact (session_cursors_track (Fixture.storage "/" 4) "f" (Fixture.content 11) eleven 0
           (Fixture.world_with eleven) "/f" 12 eq_refl eq_refl eq_refl (fun _ => eq_refl)
           eq_refl eq_refl ltac:(repeat constructor)).
Defined.

(** The session of eleven bytes in chunks of four. *)
Example save_eleven_bytes :
  calls_of (DropBoxStorage._save 12 (Fixture.storage "/" 4) "f" (Fixture.content 11)
              (Fixture.world_with eleven))
  = [Files_upload_session_start [Byte.x30; Byte.x31; Byte.x32; Byte.x33];
     Files_upload_session_append_v2 [Byte.x34; Byte.x35; Byte.x36; Byte.x37]
       {| session_id := "session-1"; offset := 4 |};
     Files_upload_session_finish [Byte.x61; Byte.x62; Byte.x63]
       {| session_id := "session-1"; offset := 8 |} {| path := "/f" |}].
Proof. reflexivity. Qed.

(** X12: the session that uploads content of more than one chunk makes as
    many calls as the content has chunks, the size divided by the chunk
    size and rounded up, and every call but the last carries a whole
    chunk. *)
Theorem session_has_one_call_per_chunk self name content d p w dest fuel :
  0 < DropBoxStorage.CHUNK_SIZE self ->
  File.size content = Z.of_nat (length d) ->
  stream_at content d p w ->
  accepts w ->
  DropBoxStorage._full_path self name w = Some (Ok dest, w) ->
  DropBoxStorage.CHUNK_SIZE self < File.size content ->
  (length d < fuel)%nat ->
  exists w' session,
    DropBoxStorage._save fuel self name content w = Some (Ok name, w')
    /\ calls w' = calls w ++ session
    /\ Z.of_nat (length session)
       = (File.size content + DropBoxStorage.CHUNK_SIZE self - 1)
         / DropBoxStorage.CHUNK_SIZE self
    /\ Forall (fun ev => Z.of_nat (length (payload ev)) = DropBoxStorage.CHUNK_SIZE self)
         (removelast session).
Proof.
  intros Hpos Hsize Hs Ha Hp Hbig Hf.
  set (CH := Z.to_nat (DropBoxStorage.CHUNK_SIZE self)).
  assert (HCH : Z.of_nat CH = DropBoxStorage.CHUNK_SIZE self) by (subst CH; lia).
  eexists _, _. split; [|split; [|split]].
  - apply (save_refines self content d Hpos Hsize name dest p w fuel Hs Ha Hp Hbig Hf).
  - reflexivity.
  - unfold session_calls. fold CH. cbn [length]. rewrite Nat2Z.inj_succ.
    rewrite (tail_calls_length (length d) CH) by lia.
    rewrite Hsize, <- HCH.
    replace (Z.of_nat (length d) + Z.of_nat CH - 1)
      with (Z.of_nat (length d - CH) + Z.of_nat CH - 1 + 1 * Z.of_nat CH) by lia.
    rewrite Z.div_add by lia. lia.
  - unfold session_calls. fold CH.
    destruct (length d) as [|n] eqn:El; [lia|].
    pose proof (tail_calls_nonempty n CH (session_of (remote w) (take CH d))
                  {| path := dest |} d CH) as Hne.
    pose proof (tail_calls_chunks (S n) CH (session_of (remote w) (take CH d))
                  {| path := dest |} d ltac:(lia) CH ltac:(lia)) as Hall.
    destruct (tail_calls (S n) CH (session_of (remote w) (take CH d)) {| path := dest |} d CH)
      as [|ev t]; [contradiction|].
    change (removelast (?a :: ev :: t)) with (a :: removelast (ev :: t)).
    constructor.
    + cbn [payload]. rewrite length_take. lia.
    + eapply Forall_impl; [exact Hall|]. intros x Hx. cbn beta in Hx. lia.
Qed.

Lemma session_has_one_call_per_chunk_witness :
  exists w' session,
    DropBoxStorage._save 12 (Fixture.storage "/" 4) "f" (Fixture.content 11)
      (Fixture.world_with eleven) = Some (Ok "f", w')
    /\ calls w' = session
    /\ length session = 3%nat.
Proof.
  destruct (session_has_one_call_per_chunk (Fixture.storage "/" 4) "f" (Fixture.content 11)
              eleven 0 (Fixture.world_with eleven) "/f" 12 eq_refl eq_refl eq_refl
              (fun _ => eq_refl) eq_refl eq_refl ltac:(repeat constructor))
    as (w' & session & Hrun & Hc & Hn & _).
  exists w', session. split; [exact Hrun|]. split; [exact Hc|].
  apply Nat2Z.inj. rewrite Hn. reflexivity.
Defined.

(** ** Content whose size is not the number of its bytes, and refused names *)

(** Past the last byte every read is empty, so a loop that waits for a
    position beyond it goes on for ever. *)
Lemma upload_loop_never_ends self content d commit fuel :
  0 <= DropBoxStorage.CHUNK_SIZE self ->
  Z.of_nat (length d) < File.size content ->
  forall p cursor w,
    stream_at content d p w -> accepts w -> (p <= length d)%nat ->
    DropBoxStorage.upload_loop fuel self content cursor commit w = None.
Proof.
  intros Hc Hover. induction fuel as [|fuel IH]; intros p cursor w Hs Ha Hp; [reflexivity|].
  cbn [DropBoxStorage.upload_loop].
  rewrite (bind_ok _ _ _ _ _ (tell_at _ _ _ _ Hs)).
  destruct (Z.ltb_spec (Z.of_nat p) (File.size content)) as [_|Hge]; [|lia].
  rewrite (bind_ok _ _ _ _ _ (tell_at _ _ _ _ Hs)).
  set (chunk := take (Z.to_nat (DropBoxStorage.CHUNK_SIZE self)) (drop p d)).
  assert (Hq : (p + length chunk <= length d)%nat)
    by (subst chunk; rewrite length_take, length_drop; lia).
  destruct (File.size content - Z.of_nat p <=? DropBoxStorage.CHUNK_SIZE self);
    rewrite (bind_ok _ _ _ _ _ (read_at _ _ _ _ _ Hs Hc)); fold chunk.
  - unfold Client.files_upload_session_finish.
    rewrite (bind_ok _ _ _ _ _ (call_ok _ _ _ (accepts_put _ _ _ _ _ Ha _))).
    apply (IH (p + length chunk)%nat); [|exact Ha|exact Hq].
    apply stream_at_logged, (stream_at_put content d). reflexivity.
  - unfold Client.files_upload_session_append_v2.
    rewrite (bind_ok _ _ _ _ _ (call_ok _ _ _ (accepts_put _ _ _ _ _ Ha _))).
    assert (Hs' : stream_at content d (p + length chunk)
                    (logged (Files_upload_session_append_v2 chunk cursor)
                       (put content d (p + length chunk) false w)))
      by (apply stream_at_logged, (stream_at_put content d); reflexivity).
    rewrite (bind_ok _ _ _ _ _ (tell_at _ _ _ _ Hs')).
    apply (IH (p + length chunk)%nat); [exact Hs'|exact Ha|exact Hq].
Qed.

(** X13: when the size attribute of the content is more than one chunk and
    more than the bytes that its reads deliver, [_save] does not return on a
    remote that accepts its calls: no amount of fuel is enough. *)
Theorem save_of_overstated_size_never_returns self name content d p w dest :
  0 < DropBoxStorage.CHUNK_SIZE self ->
  DropBoxStorage.CHUNK_SIZE self < File.size content ->
  Z.of_nat (length d) < File.size content ->
  stream_at content d p w ->
  accepts w ->
  DropBoxStorage._full_path self name w = Some (Ok dest, w) ->
  forall fuel, DropBoxStorage._save fuel self name content w = None.
Proof.
  intros Hpos Hbig Hover Hs Ha Hp fuel.
  assert (Hc : 0 <= DropBoxStorage.CHUNK_SIZE self) by lia.
  pose proof (stream_at_put content d 0 false w eq_refl) as Hs0.
  unfold DropBoxStorage._save.
  rewrite (bind_ok _ _ _ _ _ (open_at _ _ _ _ Hs)).
  destruct (Z.leb_spec (File.size content) (DropBoxStorage.CHUNK_SIZE self)) as [Hle|_]; [lia|].
  rewrite bind_assoc,
    (bind_ok _ _ _ _ _ (full_path_cwd self name w (put content d 0 false w) _ eq_refl Hp)).
  unfold DropBoxStorage._chunked_upload.
  rewrite !bind_assoc, (bind_ok _ _ _ _ _ (read_at _ _ _ _ _ Hs0 Hc)).
  unfold Client.files_upload_session_start.
  rewrite bind_assoc,
    (bind_ok _ _ _ _ _
       (call_ok _ _ _ (accepts_put _ _ _ _ _ (accepts_put content d 0 false w Ha) _))).
  match goal with
  | |- bind _ _ ?w1 = _ =>
      assert (Hs1 : stream_at content d
                      (0 + length (take (Z.to_nat (DropBoxStorage.CHUNK_SIZE self)) (drop 0 d)))
                      w1) by (apply lookup_insert_eq)
  end.
  rewrite bind_assoc, (bind_ok _ _ _ _ _ (tell_at _ _ _ _ Hs1)).
  unfold bind at 1.
  rewrite (upload_loop_never_ends self content d _ fuel Hc Hover _ _ _ Hs1 Ha); [reflexivity|].
  rewrite length_take, length_drop. lia.
Qed.

Lemma save_of_overstated_size_never_returns_witness :
  DropBoxStorage._save 1000 (Fixture.storage "/" 4) "f" (Fixture.content 10)
    (Fixture.world_with Fixture.abc) = None.
Proof.
  exact (save_of_overstated_size_never_returns (Fixture.storage "/" 4) "f" (Fixture.content 10)
           Fixture.abc 0 (Fixture.world_with Fixture.abc) "/f" eq_refl eq_refl eq_refl eq_refl
           (fun _ => eq_refl) eq_refl 1000%nat).
Defined.

(** X14: [_chunked_upload] is for content of more than one chunk only: on
    content that fits in one chunk, a whole chunk included, it starts a
    session with all the bytes and returns without a finish call, so nothing
    is committed. The test of [_save] is what keeps such content away from
    it. *)
Theorem chunked_upload_of_one_chunk_is_not_finished self content d dest w fuel :
  0 < DropBoxStorage.CHUNK_SIZE self ->
  File.size content = Z.of_nat (length d) ->
  File.size content <= DropBoxStorage.CHUNK_SIZE self ->
  stream_at content d 0 w ->
  accepts w ->
  (0 < fuel)%nat ->
  exists w',
    DropBoxStorage._chunked_upload fuel self content dest w = Some (Ok tt, w')
    /\ calls w' = calls w ++ [Files_upload_session_start d]
    /\ count is_finish (calls w') = count is_finish (calls w).
Proof.
  intros Hpos Hsize Hle Hs Ha Hf.
  assert (Hc : 0 <= DropBoxStorage.CHUNK_SIZE self) by lia.
  destruct fuel as [|fuel]; [lia|].
  unfold DropBoxStorage._chunked_upload.
  rewrite (bind_ok _ _ _ _ _ (read_at _ _ _ _ _ Hs Hc)).
  rewrite drop_0, take_ge by lia. cbn [Nat.add].
  unfold Client.files_upload_session_start.
  rewrite (bind_ok _ _ _ _ _ (call_ok _ _ _ (accepts_put _ _ _ _ _ Ha _))).
  assert (Hs1 : stream_at content d (length d)
                  (logged (Files_upload_session_start d) (put content d (length d) false w)))
    by (apply lookup_insert_eq).
  rewrite (bind_ok _ _ _ _ _ (tell_at _ _ _ _ Hs1)).
  cbn [DropBoxStorage.upload_loop].
  rewrite (bind_ok _ _ _ _ _ (tell_at _ _ _ _ Hs1)).
  destruct (Z.ltb_spec (Z.of_nat (length d)) (File.size content)) as [Hlt|_]; [lia|].
  eexists. split; [reflexivity|]. split; [reflexivity|].
  cbn [calls logged set_calls put set_heap]. rewrite count_app.
  unfold count at 2. cbn. lia.
Qed.

Lemma chunked_upload_of_one_chunk_is_not_finished_witness :
  calls_of (DropBoxStorage._chunked_upload 5 (Fixture.storage "/" 8) (Fixture.content 8) "/f"
              (Fixture.world_with Fixture.eight))
  = [Files_upload_session_start Fixture.eight].
Proof.
  destruct (chunked_upload_of_one_chunk_is_not_finished (Fixture.storage "/" 8)
              (Fixture.content 8) Fixture.eight "/f" (Fixture.world_with Fixture.eight) 5
              eq_refl eq_refl ltac:(discriminate) eq_refl (fun _ => eq_refl)
              ltac:(repeat constructor))
    as (w' & Hrun & Hc & _).
  rewrite Hrun. exact Hc.
Defined.

(** X15: [_save] under a name that path resolution refuses raises the
    exception of the resolution and makes no call to the remote; the content
    has been opened, and read to its end when it fits in one chunk, and it
    is left open. *)
Theorem save_under_refused_name self name content d p w e fuel :
  stream_at content d p w ->
  DropBoxStorage._full_path self name w = Some (Raise e, w) ->
  exists w',
    DropBoxStorage._save fuel self name content w = Some (Raise e, w')
    /\ calls w' = calls w
    /\ stream_at content d
         (if File.size content <=? DropBoxStorage.CHUNK_SIZE self then length d else 0) w'.
Proof.
  intros Hs Hp.
  pose proof (stream_at_put content d 0 false w eq_refl) as Hs0.
  unfold DropBoxStorage._save.
  rewrite (bind_ok _ _ _ _ _ (open_at _ _ _ _ Hs)).
  destruct (File.size content <=? DropBoxStorage.CHUNK_SIZE self).
  - rewrite bind_assoc, (bind_ok _ _ _ _ _ (read_all_at _ _ _ _ Hs0)).
    rewrite drop_0. cbn [Nat.add].
    rewrite bind_assoc,
      (bind_raise _ _ _ _ _
         (full_path_cwd self name w
            (put content d (length d) false (put content d 0 false w)) _ eq_refl Hp)).
    eexists. split; [reflexivity|]. split; [reflexivity|]. apply lookup_insert_eq.
  - rewrite bind_assoc,
      (bind_raise _ _ _ _ _
         (full_path_cwd self name w (put content d 0 false w) _ eq_refl Hp)).
    eexists. split; [reflexivity|]. split; [reflexivity|]. exact Hs0.
Qed.

Lemma save_under_refused_name_witness :
  exists msg w',
    DropBoxStorage._save 0 (Fixture.storage "/dir" 4) "../f" (Fixture.content 3)
      (Fixture.world_with Fixture.abc) = Some (Raise (SuspiciousFileOperation msg), w')
    /\ calls w' = []
    /\ stream_at (Fixture.content 3) Fixture.abc 3 w'.
Proof.
  eexists.
  exact (save_under_refused_name (Fixture.storage "/dir" 4) "../f" (Fixture.content 3)
           Fixture.abc 0 (Fixture.world_with Fixture.abc) _ 0 eq_refl eq_refl).
Defined.

(** ** [_save] on any remote *)

Section Outcome.

Variable self : DropBoxStorage.t.
Variable content : File.t.
Variable d : bytes.
Variable w0 : World.

(** The worlds that an upload goes through: the calls made so far and the
    position of the content. *)
Let W (l : list api_call) (p : nat) : World :=
  set_calls (calls w0 ++ l) (put content d p false w0).

Lemma stream_at_W l p : stream_at content d p (W l p).
Proof. apply lookup_insert_eq. Qed.

Lemma read_W l p n :
  exists chunk, File.read content n (W l p) = Some (Ok chunk, W l (p + length chunk)).
Proof.
  unfold File.read, IO.read.
  rewrite (with_stream_open _ _ _ _ (stream_at_W l p) eq_refl). cbn [data pos].
  eexists. unfold W, put, set_calls, set_heap. cbn [heap cwd settings remote calls].
  now rewrite insert_insert_eq.
Qed.

Lemma call_W {A} ev (answer : Remote -> A) l p :
  Client.call ev answer (W l p)
  = match raises (remote w0) ev with
    | Some e => Some (Raise e, W (l ++ [ev]) p)
    | None => Some (Ok (answer (remote w0)), W (l ++ [ev]) p)
    end.
Proof.
  unfold Client.call, W, put, set_calls, set_heap. cbn [heap cwd settings remote calls].
  rewrite <- app_assoc. reflexivity.
Qed.

Lemma raised_last_cons ev e l :
  raises (remote w0) ev = None -> raised_last (remote w0) e l ->
  raised_last (remote w0) e (ev :: l).
Proof.
  intros Hq (l0 & x & -> & Hall & Hx). exists (ev :: l0), x. auto.
Qed.

(** The loop on any remote: when it returns, no call of its calls raised;
    when it raises, the call that raised is its last call; the content is
    open in either case. *)
Lemma upload_loop_outcome commit fuel :
  forall cursor l p r w',
    DropBoxStorage.upload_loop fuel self content cursor commit (W l p) = Some (r, w') ->
    exists l' p',
      w' = W (l ++ l') p'
      /\ match r with
         | Ok _ => Forall (fun ev => raises (remote w0) ev = None) l'
         | Raise e => raised_last (remote w0) e l'
         end.
Proof.
  induction fuel as [|fuel IH]; intros cursor l p r w' H; [discriminate|].
  cbn [DropBoxStorage.upload_loop] in H.
  rewrite (bind_ok _ _ _ _ _ (tell_at _ _ _ _ (stream_at_W l p))) in H.
  destruct (Z.of_nat p <? File.size content).
  2:{ injection H as <- <-. exists [], p. rewrite app_nil_r. auto. }
  rewrite (bind_ok _ _ _ _ _ (tell_at _ _ _ _ (stream_at_W l p))) in H.
  destruct (read_W l p (Some (DropBoxStorage.CHUNK_SIZE self))) as [chunk Hread].
  destruct (File.size content - Z.of_nat p <=? DropBoxStorage.CHUNK_SIZE self);
    rewrite (bind_ok _ _ _ _ _ Hread) in H.
  - unfold Client.files_upload_session_finish in H.
    set (ev := Files_upload_session_finish chunk cursor commit) in *.
    unfold bind at 1 in H. rewrite call_W in H.
    destruct (raises (remote w0) ev) as [e|] eqn:He.
    + injection H as <- <-. exists [ev], (p + length chunk)%nat. split; [reflexivity|].
      exists [], ev. auto.
    + destruct (IH _ _ _ _ _ H) as (l' & p' & -> & Hout).
      exists (ev :: l'), p'. rewrite <- app_assoc. split; [reflexivity|].
      destruct r; [constructor; assumption|apply raised_last_cons; assumption].
  - unfold Client.files_upload_session_append_v2 in H.
    set (ev := Files_upload_session_append_v2 chunk cursor) in *.
    unfold bind at 1 in H. rewrite call_W in H.
    destruct (raises (remote w0) ev) as [e|] eqn:He.
    + injection H as <- <-. exists [ev], (p + length chunk)%nat. split; [reflexivity|].
      exists [], ev. auto.
    + rewrite (bind_ok _ _ _ _ _ (tell_at _ _ _ _ (stream_at_W _ _))) in H.
      destruct (IH _ _ _ _ _ H) as (l' & p' & -> & Hout).
      exists (ev :: l'), p'. rewrite <- app_assoc. split; [reflexivity|].
      destruct r; [constructor; assumption|apply raised_last_cons; assumption].
Qed.

Lemma W_start p : stream_at content d p w0 -> w0 = W [] p.
Proof.
  intros H. unfold W, put, set_calls, set_heap, stream_at in *.
  rewrite app_nil_r, (insert_id _ _ _ H). now destruct w0.
Qed.

Lemma put_W l p q c : put content d q c (W l p) = set_calls (calls w0 ++ l) (put content d q c w0).
Proof.
  unfold W, put, set_calls, set_heap. cbn [heap cwd settings remote calls].
  now rewrite insert_insert_eq.
Qed.

(** [_save] on any remote, for content that is open. *)
Lemma save_outcome name fuel p r w' :
  stream_at content d p w0 ->
  DropBoxStorage._save fuel self name content w0 = Some (r, w') ->
  exists l p',
    w' = set_calls (calls w0 ++ l)
           (put content d p' (match r with Ok _ => true | Raise _ => false end) w0)
    /\ match r with
       | Ok n => n = name /\ Forall (fun ev => raises (remote w0) ev = None) l
       | Raise e => (l = [] /\ DropBoxStorage._full_path self name w0 = Some (Raise e, w0))
                    \/ raised_last (remote w0) e l
       end.
Proof.
  intros Hs H. unfold DropBoxStorage._save in H.
  rewrite (bind_ok _ _ _ _ _ (open_at _ _ _ _ Hs)) in H.
  change (put content d 0 false w0) with (set_heap (<[File.file content := {| data := d; pos := 0; closed := false |}]> (heap w0)) w0) in H.
  assert (E0 : set_heap (<[File.file content := {| data := d; pos := 0; closed := false |}]> (heap w0)) w0 = W [] 0)
    by (unfold W, put, set_calls; now rewrite app_nil_r).
  rewrite E0 in H. clear E0.
  destruct (full_path_pure self name w0) as [rp Hp].
  destruct (File.size content <=? DropBoxStorage.CHUNK_SIZE self).
  - destruct (read_W [] 0 None) as [chunk Hread].
    rewrite bind_assoc, (bind_ok _ _ _ _ _ Hread) in H.
    rewrite bind_assoc in H.
    pose proof (full_path_cwd self name w0 (W [] (0 + length chunk)) rp eq_refl Hp) as Hp'.
    destruct rp as [dest|e].
    + rewrite (bind_ok _ _ _ _ _ Hp') in H.
      unfold Client.files_upload in H. unfold bind at 1 in H. rewrite call_W in H.
      set (ev := Files_upload chunk dest) in *.
      destruct (raises (remote w0) ev) as [e|] eqn:He.
      * injection H as <- <-. exists [ev], (0 + length chunk)%nat. split; [reflexivity|].
        right. exists [], ev. auto.
      * rewrite (bind_ok _ _ _ _ _ (close_at _ _ _ _ (stream_at_W _ _))) in H.
        injection H as <- <-. exists [ev], (0 + length chunk)%nat.
        split; [apply put_W|]. auto.
    + rewrite (bind_raise _ _ _ _ _ Hp') in H. injection H as <- <-.
      exists [], (0 + length chunk)%nat. split; [reflexivity|]. left. auto.
  - rewrite bind_assoc in H.
    pose proof (full_path_cwd self name w0 (W [] 0) rp eq_refl Hp) as Hp'.
    destruct rp as [dest|e].
    2:{ rewrite (bind_raise _ _ _ _ _ Hp') in H. injection H as <- <-.
        exists [], 0%nat. split; [reflexivity|]. left. auto. }
    rewrite (bind_ok _ _ _ _ _ Hp') in H.
    unfold DropBoxStorage._chunked_upload in H.
    destruct (read_W [] 0 (Some (DropBoxStorage.CHUNK_SIZE self))) as [chunk Hread].
    rewrite !bind_assoc, (bind_ok _ _ _ _ _ Hread) in H.
    unfold Client.files_upload_session_start in H.
    rewrite bind_assoc in H. unfold bind at 1 in H. rewrite call_W in H.
    set (ev := Files_upload_session_start chunk) in *.
    destruct (raises (remote w0) ev) as [e|] eqn:He.
    { injection H as <- <-. exists [ev], (0 + length chunk)%nat. split; [reflexivity|].
      right. exists [], ev. auto. }
    rewrite bind_assoc, (bind_ok _ _ _ _ _ (tell_at _ _ _ _ (stream_at_W _ _))) in H.
    unfold bind at 1 in H.
    match type of H with
    | context [DropBoxStorage.upload_loop fuel self content ?c ?m ?w1] =>
        destruct (DropBoxStorage.upload_loop fuel self content c m w1) as [[r1 w1']|] eqn:El
    end; [|discriminate].
    destruct (upload_loop_outcome _ _ _ _ _ _ _ El) as (l' & p' & -> & Hout).
    destruct r1 as [[]|e].
    + rewrite (bind_ok _ _ _ _ _ (close_at _ _ _ _ (stream_at_W _ _))) in H.
      injection H as <- <-. exists (ev :: l'), p'. split; [apply put_W|]. auto.
    + injection H as <- <-. exists (ev :: l'), p'. split; [reflexivity|].
      right. apply raised_last_cons; assumption.
Qed.

End Outcome.

(** X16: for content that is open, on any remote and for any size:
    when [_save] returns, it returns the name it was given, none of its
    calls raised, and the content is closed; when it raises, either path
    resolution refused the name and no call was made, or the last call made
    is the one that raised and what it raised is what [_save] raises, and
    the content is left open. In both cases the log only grew and no other
    file object changed. *)
Theorem save_closes_content_iff_it_returns self name content d p w fuel r w' :
  stream_at content d p w ->
  DropBoxStorage._save fuel self name content w = Some (r, w') ->
  exists l p',
    calls w' = calls w ++ l
    /\ heap w' = <[File.file content :=
                     {| data := d; pos := p';
                        closed := match r with Ok _ => true | Raise _ => false end |}]> (heap w)
    /\ match r with
       | Ok n => n = name /\ Forall (fun ev => raises (remote w) ev = None) l
       | Raise e => (l = [] /\ DropBoxStorage._full_path self name w = Some (Raise e, w))
                    \/ raised_last (remote w) e l
       end.
Proof.
  intros Hs H.
  destruct (save_outcome self content d w name fuel p r w' Hs H) as (l & p' & -> & Hout).
  exists l, p'. split; [reflexivity|]. split; [reflexivity|exact Hout].
Qed.

Lemma save_closes_content_iff_it_returns_witness :
  exists w' l p',
    DropBoxStorage._save 12 (Fixture.storage "/" 4) "f" (Fixture.content 11) failing_world
    = Some (Raise (HttpError 503), w')
    /\ calls w' = l
    /\ heap w' !! 0%nat = Some {| data := eleven; pos := p'; closed := false |}
    /\ raised_last (remote failing_world) (HttpError 503) l.
Proof.
  assert (E : exists w',
             DropBoxStorage._save 12 (Fixture.storage "/" 4) "f" (Fixture.content 11)
               failing_world = Some (Raise (HttpError 503), w'))
    by (eexists; vm_compute; reflexivity).
  destruct E as [w' E].
  destruct (save_closes_content_iff_it_returns (Fixture.storage "/" 4) "f" (Fixture.content 11)
              eleven 0 failing_world 12 _ w' (lookup_singleton_eq _ _) E)
    as (l & p' & Hc & Hh & Hout).
  exists w', l, p'. split; [exact E|]. split; [exact Hc|]. split.
  - rewrite Hh. apply lookup_insert_eq.
  - destruct Hout as [[_ Hp] | Hout]; [vm_compute in Hp; discriminate|exact Hout].
Defined.

(** ** One call for each operation *)

Lemma pure_ret {A} (a : A) : pure (ret a).
Proof. intros w. eexists; reflexivity. Qed.

Lemma pure_raise {A} e : pure (@raise A e).
Proof. intros w. eexists; reflexivity. Qed.

Lemma pure_bind {A B} (c : M A) (k : A -> M B) :
  pure c -> (forall a, pure (k a)) -> pure (bind c k).
Proof.
  intros Hc Hk w. destruct (Hc w) as [[a|e] H].
  - rewrite (bind_ok _ _ _ _ _ H). apply Hk.
  - rewrite (bind_raise _ _ _ _ _ H). eexists; reflexivity.
Qed.

Lemma pure_getitem v key : pure (py_getitem v key).
Proof.
  destruct v; try apply pure_raise. unfold py_getitem.
  destruct (assoc key d); [apply pure_ret|apply pure_raise].
Qed.

Lemma pure_setitem v key x : pure (py_setitem v key x).
Proof. destruct v; try apply pure_raise. apply pure_ret. Qed.

Lemma pure_replace v old new count : pure (py_replace v old new count).
Proof. destruct v; try apply pure_raise. apply pure_ret. Qed.

Lemma pure_iter v : pure (py_iter v).
Proof. destruct v; try apply pure_raise; apply pure_ret. Qed.

Lemma pure_strptime v format : pure (datetime_strptime v format).
Proof.
  destruct v; try apply pure_raise. unfold datetime_strptime.
  destruct (strptime.tokens format); [|apply pure_raise].
  destruct (strptime.parse _ s strptime.default) as [t|]; [|apply pure_raise].
  destruct (strptime.valid t); [apply pure_ret|apply pure_raise].
Qed.

Lemma pure_listdir_entry full_path entry acc :
  pure (DropBoxStorage.listdir_entry full_path entry acc).
Proof.
  unfold DropBoxStorage.listdir_entry. destruct acc as [directories files].
  repeat (apply pure_bind;
          [first [apply pure_getitem | apply pure_replace | apply pure_setitem]|intros ?]).
  destruct (py_bool _); (apply pure_bind; [apply pure_getitem|intros ?; apply pure_ret]).
Qed.

Lemma pure_listdir_loop full_path entries :
  forall acc, pure (DropBoxStorage.listdir_loop full_path entries acc).
Proof.
  induction entries as [|entry entries IH]; intros acc; [apply pure_ret|].
  cbn [DropBoxStorage.listdir_loop]. apply pure_bind; [apply pure_listdir_entry|exact IH].
Qed.

(** An operation that resolves the name, makes one call and goes on without
    the remote. *)
Lemma one_call_then_pure {A B} (call : string -> api_call) (answer : string -> Remote -> A)
    (k : string -> A -> M B) self name w :
  (forall p a, pure (k p a)) ->
  makes_one_call (p <- DropBoxStorage._full_path self name ;;
                  x <- Client.call (call p) (answer p) ;; k p x)
    call self name w.
Proof.
  intros Hk. destruct (full_path_pure self name w) as [[p|e] Hp].
  - right. exists p. rewrite (bind_ok _ _ _ _ _ Hp).
    destruct (raises (remote w) (call p)) as [e|] eqn:He.
    + rewrite (bind_raise _ _ _ _ _ (call_raise _ _ _ _ He)). eauto.
    + rewrite (bind_ok _ _ _ _ _ (call_ok _ _ _ He)).
      destruct (Hk p (answer p (remote w)) (logged (call p) w)) as [r Hr]. eauto.
  - left. exists e. rewrite (bind_raise _ _ _ _ _ Hp). auto.
Qed.

(** X17: [delete], [exists], [listdir], [size], [modified_time],
    [accessed_time] and [url] make at most one call to the remote, on the
    resolved path, whatever the remote answers or raises and however many
    entries a folder has; they make none when the name is refused, and they
    touch no file object. *)
Theorem operations_make_one_call self name w :
  makes_one_call (DropBoxStorage.delete self name) Files_delete self name w
  /\ makes_one_call (DropBoxStorage.exists_ self name) Files_get_metadata self name w
  /\ makes_one_call (DropBoxStorage.listdir self name) Files_get_metadata self name w
  /\ makes_one_call (DropBoxStorage.size self name) Files_get_metadata self name w
  /\ makes_one_call (DropBoxStorage.modified_time self name) Files_get_metadata self name w
  /\ makes_one_call (DropBoxStorage.accessed_time self name) Files_get_metadata self name w
  /\ makes_one_call (DropBoxStorage.url self name) Files_get_temporary_link self name w.
Proof.
  repeat split.
  - destruct (full_path_pure self name w) as [[p|e] Hp].
    + right. exists p. unfold DropBoxStorage.delete, Client.files_delete.
      rewrite (bind_ok _ _ _ _ _ Hp). unfold Client.call.
      destruct (raises (remote w) (Files_delete p)); eauto.
    + left. exists e. unfold DropBoxStorage.delete. now rewrite (bind_raise _ _ _ _ _ Hp).
  - destruct (full_path_pure self name w) as [[p|e] Hp].
    + right. exists p. rewrite (exists_fetch _ _ _ _ Hp).
      destruct (raises (remote w) (Files_get_metadata p)) as [e|]; [|eauto].
      destruct (is_ApiError e); eauto.
    + left. exists e.
      destruct (refused_name_reaches_no_remote self name w e Hp) as (_ & He & _). auto.
  - apply (one_call_then_pure Files_get_metadata (fun p r => metadata_of r p)
             (fun full_path metadata =>
                contents <- py_getitem metadata "contents" ;;
                entries <- py_iter contents ;;
                DropBoxStorage.listdir_loop full_path entries ([], []))).
    intros p md. apply pure_bind; [apply pure_getitem|intros contents].
    apply pure_bind; [apply pure_iter|intros entries]. apply pure_listdir_loop.
  - apply (one_call_then_pure Files_get_metadata (fun p r => metadata_of r p)
             (fun _ metadata => py_getitem metadata "bytes")).
    intros p md. apply pure_getitem.
  - apply (one_call_then_pure Files_get_metadata (fun p r => metadata_of r p)
             (fun _ metadata =>
                modified <- py_getitem metadata "modified" ;;
                mod_time <- datetime_strptime modified DATE_FORMAT ;;
                ret mod_time)).
    intros p md. apply pure_bind; [apply pure_getitem|intros v].
    apply pure_bind; [apply pure_strptime|intros t; apply pure_ret].
  - apply (one_call_then_pure Files_get_metadata (fun p r => metadata_of r p)
             (fun _ metadata =>
                client_mtime <- py_getitem metadata "client_mtime" ;;
                acc_time <- datetime_strptime client_mtime DATE_FORMAT ;;
                ret acc_time)).
    intros p md. apply pure_bind; [apply pure_getitem|intros v].
    apply pure_bind; [apply pure_strptime|intros t; apply pure_ret].
  - destruct (full_path_pure self name w) as [[p|e] Hp].
    + right. exists p. unfold DropBoxStorage.url, Client.files_get_temporary_link.
      rewrite (bind_ok _ _ _ _ _ Hp). unfold Client.call.
      destruct (raises (remote w) (Files_get_temporary_link p)); eauto.
    + left. exists e. unfold DropBoxStorage.url. now rewrite (bind_raise _ _ _ _ _ Hp).
Qed.

(** ** Timestamps written with the format are read back *)

Example strftime_literal :
  strftime "Mon" noon_2024_01_01 = "Mon, 01 Jan 2024 12:00:00 +0000".
Proof. reflexivity. Qed.

Ltac ten k :=
  let H := fresh in
  assert (H : k = 0 \/ k = 1 \/ k = 2 \/ k = 3 \/ k = 4 \/ k = 5 \/ k = 6 \/ k = 7 \/ k = 8 \/ k = 9) by lia;
  destruct H as [-> | [-> | [-> | [-> | [-> | [-> | [-> | [-> | [-> | ->]]]]]]]]].

Lemma digit_of_char k : 0 <= k <= 9 -> strptime.digit (digit_char k) = Some k.
Proof. intros H. ten k; reflexivity. Qed.

Lemma digit_not_space k : 0 <= k <= 9 -> strptime.is_space (digit_char k) = false.
Proof. intros H. ten k; reflexivity. Qed.

Lemma number_two ok ok1 n rest :
  0 <= n <= 99 -> ok (n / 10) (n mod 10) = true ->
  strptime.number ok ok1 (two n rest) = Some (n, rest).
Proof.
  intros Hn Hok.
  pose proof (Z.div_mod n 10 ltac:(lia)) as E.
  pose proof (Z.mod_pos_bound n 10 ltac:(lia)) as B.
  assert (0 <= n / 10 <= 9) by lia.
  unfold strptime.number, two.
  rewrite !digit_of_char by lia. rewrite Hok. do 2 f_equal. lia.
Qed.


Lemma substring_of_append a rest k :
  String.length a = k ->
  String.substring 0 k (a +:+ rest) = a
  /\ String.substring k (String.length (a +:+ rest) - k) (a +:+ rest) = rest.
Proof.
  intros <-. induction a as [|c a [IH1 IH2]].
  - change ("" +:+ rest) with rest. cbn [String.length].
    rewrite substring_none, Nat.sub_0_r, substring_all. auto.
  - change (String c a +:+ rest) with (String c (a +:+ rest)).
    cbn [String.length String.substring Nat.sub]. now rewrite IH1, IH2.
Qed.

Ltac read_name n rest :=
  rewrite ?(proj1 (substring_of_append n rest 3 eq_refl)),
    ?(proj2 (substring_of_append n rest 3 eq_refl)).

Lemma weekday_read wd rest :
  In wd weekday_names ->
  exists i, strptime.name_index strptime.weekdays 1 (wd +:+ rest) = Some (i, rest).
Proof.
  intros H. cbn [In weekday_names] in H.
  repeat (destruct H as [<- | H]); try contradiction; eexists;
    cbn -[String.substring String.length]; cbn [String.length];
    match goal with |- context [String.substring 0 3 (?n +:+ _)] => read_name n rest end;
    reflexivity.
Qed.

Lemma month_read m rest :
  1 <= m <= 12 ->
  strptime.name_index strptime.months 1 (month_name m +:+ rest) = Some (m, rest).
Proof.
  intros H.
  assert (E : m = 1 \/ m = 2 \/ m = 3 \/ m = 4 \/ m = 5 \/ m = 6 \/ m = 7 \/ m = 8
              \/ m = 9 \/ m = 10 \/ m = 11 \/ m = 12) by lia.
  repeat (destruct E as [-> | E]); try subst m;
    cbn -[String.substring String.length]; cbn [String.length];
    match goal with |- context [String.substring 0 3 (?n +:+ _)] => read_name n rest end;
    reflexivity.
Qed.

Lemma year_four y rest :
  0 <= y <= 9999 -> strptime.year_of (four y rest) = Some (y, rest).
Proof.
  intros H.
  pose proof (Z.div_mod y 10 ltac:(lia)). pose proof (Z.mod_pos_bound y 10 ltac:(lia)).
  pose proof (Z.div_mod (y / 10) 10 ltac:(lia)). pose proof (Z.mod_pos_bound (y / 10) 10 ltac:(lia)).
  pose proof (Z.div_mod (y / 100) 10 ltac:(lia)). pose proof (Z.mod_pos_bound (y / 100) 10 ltac:(lia)).
  assert (E1 : y / 100 = y / 10 / 10) by (rewrite Z.div_div by lia; reflexivity).
  assert (E2 : y / 1000 = y / 100 / 10) by (rewrite Z.div_div by lia; reflexivity).
  unfold strptime.year_of, four.
  rewrite !digit_of_char by lia. cbn. do 2 f_equal. lia.
Qed.

Lemma lstrip_digit k s :
  0 <= k <= 9 -> strptime.lstrip (String (digit_char k) s) = String (digit_char k) s.
Proof. intros H. cbn [strptime.lstrip]. now rewrite digit_not_space. Qed.

Lemma lstrip_month m rest :
  1 <= m <= 12 -> strptime.lstrip (month_name m +:+ rest) = month_name m +:+ rest.
Proof.
  intros H.
  assert (E : m = 1 \/ m = 2 \/ m = 3 \/ m = 4 \/ m = 5 \/ m = 6 \/ m = 7 \/ m = 8
              \/ m = 9 \/ m = 10 \/ m = 11 \/ m = 12) by lia.
  repeat (destruct E as [-> | E]); try subst m; reflexivity.
Qed.

Lemma directive_a wd rest t :
  In wd weekday_names -> strptime.directive "a" (wd +:+ rest) t = Some (t, rest).
Proof.
  intros H. destruct (weekday_read wd rest H) as [i Hi].
  unfold strptime.directive. cbn [Ascii.eqb Bool.eqb]. now rewrite Hi.
Qed.

Lemma directive_b m rest t :
  1 <= m <= 12 ->
  strptime.directive "b" (month_name m +:+ rest) t = Some (strptime.set_month m t, rest).
Proof.
  intros H. unfold strptime.directive. cbn [Ascii.eqb Bool.eqb]. now rewrite (month_read m rest H).
Qed.

Lemma directive_d n rest t :
  1 <= n <= 31 -> strptime.directive "d" (two n rest) t = Some (strptime.set_day n t, rest).
Proof.
  intros H. unfold strptime.directive, strptime.day_of. cbn [Ascii.eqb Bool.eqb].
  rewrite number_two; [reflexivity|lia|].
  pose proof (Z.div_mod n 10 ltac:(lia)). pose proof (Z.mod_pos_bound n 10 ltac:(lia)).
  destruct (Z.eqb_spec (n / 10) 3), (Z.leb_spec (n mod 10) 1), (Z.leb_spec 1 (n / 10)),
    (Z.leb_spec (n / 10) 2), (Z.eqb_spec (n / 10) 0), (Z.leb_spec 1 (n mod 10));
    cbn; try reflexivity; lia.
Qed.

Lemma directive_Y n rest t :
  0 <= n <= 9999 -> strptime.directive "Y" (four n rest) t = Some (strptime.set_year n t, rest).
Proof.
  intros H. unfold strptime.directive. cbn [Ascii.eqb Bool.eqb]. now rewrite (year_four n rest H).
Qed.

Lemma directive_H n rest t :
  0 <= n <= 23 -> strptime.directive "H" (two n rest) t = Some (strptime.set_hour n t, rest).
Proof.
  intros H. unfold strptime.directive, strptime.hour_of. cbn [Ascii.eqb Bool.eqb].
  rewrite number_two; [reflexivity|lia|].
  pose proof (Z.div_mod n 10 ltac:(lia)). pose proof (Z.mod_pos_bound n 10 ltac:(lia)).
  destruct (Z.eqb_spec (n / 10) 2), (Z.leb_spec (n mod 10) 3), (Z.leb_spec (n / 10) 1);
    cbn; try reflexivity; lia.
Qed.

Lemma directive_M n rest t :
  0 <= n <= 59 -> strptime.directive "M" (two n rest) t = Some (strptime.set_minute n t, rest).
Proof.
  intros H. unfold strptime.directive, strptime.minute_of. cbn [Ascii.eqb Bool.eqb].
  rewrite number_two; [reflexivity|lia|].
  pose proof (Z.div_mod n 10 ltac:(lia)). pose proof (Z.mod_pos_bound n 10 ltac:(lia)).
  destruct (Z.leb_spec (n / 10) 5); [reflexivity|lia].
Qed.

Lemma directive_S n rest t :
  0 <= n <= 59 -> strptime.directive "S" (two n rest) t = Some (strptime.set_second n t, rest).
Proof.
  intros H. unfold strptime.directive, strptime.second_of. cbn [Ascii.eqb Bool.eqb].
  rewrite number_two; [reflexivity|lia|].
  pose proof (Z.div_mod n 10 ltac:(lia)). pose proof (Z.mod_pos_bound n 10 ltac:(lia)).
  destruct (Z.eqb_spec (n / 10) 6), (Z.leb_spec (n mod 10) 1), (Z.leb_spec (n / 10) 5);
    cbn; try reflexivity; lia.
Qed.

Lemma two_bounds n : 0 <= n <= 99 -> 0 <= n / 10 <= 9.
Proof.
  intros H. pose proof (Z.div_mod n 10 ltac:(lia)). pose proof (Z.mod_pos_bound n 10 ltac:(lia)).
  lia.
Qed.

Lemma parse_lit c ts s t :
  strptime.parse (strptime.TLit c :: ts) (String c s) t = strptime.parse ts s t.
Proof. cbn [strptime.parse]. now rewrite Ascii.eqb_refl. Qed.

Lemma parse_space ts s t :
  strptime.parse (strptime.TSpace :: ts) (String " " s) t
  = strptime.parse ts (strptime.lstrip s) t.
Proof. reflexivity. Qed.

Lemma parse_dir c ts s t s' t' :
  strptime.directive c s t = Some (t', s') ->
  strptime.parse (strptime.TDir c :: ts) s t = strptime.parse ts s' t'.
Proof. intros H. cbn [strptime.parse]. now rewrite H. Qed.

Lemma lstrip_two n rest : 0 <= n <= 99 -> strptime.lstrip (two n rest) = two n rest.
Proof. intros H. apply lstrip_digit. now apply two_bounds. Qed.

Lemma lstrip_four n rest : 0 <= n <= 9999 -> strptime.lstrip (four n rest) = four n rest.
Proof.
  intros H. apply lstrip_digit.
  pose proof (Z.div_mod n 1000 ltac:(lia)). pose proof (Z.mod_pos_bound n 1000 ltac:(lia)).
  lia.
Qed.

Lemma strftime_is_read_back weekday t :
  In weekday weekday_names -> strptime.valid t = true ->
  0 <= hour t -> 0 <= minute t -> 0 <= second t ->
  timestamp_of (strftime weekday t) = Some t.
Proof.
  intros Hw Hv Hh Hm Hs.
  assert (Hr : (1 <= year t <= 9999) /\ (1 <= month t <= 12) /\ (1 <= day t <= 31)
               /\ (hour t <= 23) /\ (minute t <= 59) /\ (second t <= 59)).
  { unfold strptime.valid in Hv.
    repeat (apply andb_prop in Hv; destruct Hv as [Hv ?]).
    assert (strptime.days_in_month (year t) (month t) <= 31).
    { unfold strptime.days_in_month.
      repeat match goal with |- context [if ?c then _ else _] => destruct c end; lia. }
    lia. }
  destruct Hr as (Hy & Hmo & Hd & Hh' & Hm' & Hs').
  unfold timestamp_of.
  let ts := eval vm_compute in (strptime.tokens DATE_FORMAT) in
  change (strptime.tokens DATE_FORMAT) with ts.
  cbv iota beta.
  let ts := eval vm_compute in
    (concat (map strptime.expand
       [strptime.TDir "a"; strptime.TLit ","; strptime.TSpace; strptime.TDir "d";
        strptime.TSpace; strptime.TDir "b"; strptime.TSpace; strptime.TDir "Y";
        strptime.TSpace; strptime.TDir "X"; strptime.TSpace; strptime.TLit "+";
        strptime.TLit "0"; strptime.TLit "0"; strptime.TLit "0"; strptime.TLit "0"])) in
  match goal with |- context [strptime.parse ?l _ _] => change l with ts end.
  assert (Hy0 : 0 <= year t <= 9999) by lia.
  assert (Hh0 : 0 <= hour t <= 23) by lia.
  assert (Hm0 : 0 <= minute t <= 59) by lia.
  assert (Hs0 : 0 <= second t <= 59) by lia.
  unfold strftime.
  rewrite (parse_dir _ _ _ _ _ _ (directive_a _ _ _ Hw)).
  rewrite parse_lit, parse_space, lstrip_two by lia.
  rewrite (parse_dir _ _ _ _ _ _ (directive_d _ _ _ Hd)).
  rewrite parse_space, lstrip_month by lia.
  rewrite (parse_dir _ _ _ _ _ _ (directive_b _ _ _ Hmo)).
  rewrite parse_space, lstrip_four by lia.
  rewrite (parse_dir _ _ _ _ _ _ (directive_Y _ _ _ Hy0)).
  rewrite parse_space, lstrip_two by lia.
  rewrite (parse_dir _ _ _ _ _ _ (directive_H _ _ _ Hh0)).
  rewrite parse_lit.
  rewrite (parse_dir _ _ _ _ _ _ (directive_M _ _ _ Hm0)).
  rewrite parse_lit.
  rewrite (parse_dir _ _ _ _ _ _ (directive_S _ _ _ Hs0)).
  change " +0000" with (String " " "+0000").
  rewrite parse_space. change (strptime.lstrip "+0000") with "+0000".
  change "+0000" with (String "+" (String "0" (String "0" (String "0" (String "0" ""))))).
  rewrite !parse_lit. cbn [strptime.parse String.eqb].
  replace (strptime.set_second _ _) with t by (destruct t; reflexivity).
  now rewrite Hv.
Qed.

(** X18: [DATE_FORMAT] loses nothing of a point in time: for every valid
    date and time of day, and whichever weekday name is written before it,
    [modified_time] and [accessed_time] return that date and time when
    their metadata field holds it written with the format. *)
Theorem timestamps_round_trip self name w p d weekday t :
  DropBoxStorage._full_path self name w = Some (Ok p, w) ->
  raises (remote w) (Files_get_metadata p) = None ->
  metadata_of (remote w) p = PyDict d ->
  In weekday weekday_names ->
  strptime.valid t = true ->
  0 <= hour t -> 0 <= minute t -> 0 <= second t ->
  (assoc "modified" d = Some (PyStr (strftime weekday t)) ->
   DropBoxStorage.modified_time self name w = Some (Ok t, logged (Files_get_metadata p) w))
  /\ (assoc "client_mtime" d = Some (PyStr (strftime weekday t)) ->
      DropBoxStorage.accessed_time self name w = Some (Ok t, logged (Files_get_metadata p) w)).
Proof.
  intros Hp Hr Hm Hw Hv Hh Hmi Hs.
  pose proof (strptime_returned (strftime weekday t) (logged (Files_get_metadata p) w)) as H.
  rewrite (strftime_is_read_back weekday t Hw Hv Hh Hmi Hs) in H.
  split; intros Hf.
  - now rewrite (modified_time_strptime _ _ _ _ _ _ Hp Hr Hm Hf).
  - now rewrite (accessed_time_strptime _ _ _ _ _ _ Hp Hr Hm Hf).
Qed.

Lemma timestamps_round_trip_witness :
  DropBoxStorage.modified_time (Fixture.storage "/" 4) "/a/b.txt"
    (Fixture.world Fixture.remote_ok)
  = Some (Ok noon_2024_01_01,
          logged (Files_get_metadata "/a/b.txt") (Fixture.world Fixture.remote_ok)).
Proof.
  apply (proj1 (timestamps_round_trip (Fixture.storage "/" 4) "/a/b.txt"
                  (Fixture.world Fixture.remote_ok) "/a/b.txt" _ "Mon" noon_2024_01_01
                  eq_refl eq_refl eq_refl (or_introl eq_refl) eq_refl
                  ltac:(discriminate) ltac:(discriminate) ltac:(discriminate))).
  reflexivity.
Defined.
